(** * xmas-py: randomized light animations on a Hue bridge

    A shallow embedding of [http_handler.py], [bridge.py] and [animation.py].

    - Python values that the program handles (JSON documents, numbers,
      dictionaries) are an inductive type; a [dict] is an association list,
      because Python dictionaries are insertion ordered and the program
      iterates over them ([data.items()], [list(self.animations.keys())]).
    - Exceptions, log lines and console lines are constructors that carry the
      arguments of the f-string that builds them in the source; the
      timestamp prefix of a log line is wall-clock time and is left out.
    - Every effect is explicit: a computation reads an oracle (the random
      source and the replies of the network) and threads a world (how much
      of each oracle has been used, and the trace of what the program did).
    - A coroutine object is a suspended computation; [asyncio.gather] runs
      the suspended computations it is given. *)

From Stdlib Require Import ZArith QArith Qabs List Permutation String Ascii Bool Lia.
Import ListNotations.
Set Warnings "-register-all".
Close Scope Q_scope.
Open Scope string_scope.
Open Scope list_scope.
Open Scope Z_scope.

(* ------------------------------------------------------------------ *)
(** ** Python values *)

Module Py.

(** A Python [float]: a finite double is the rational it denotes (the sign
    of zero is not kept); comparisons of floats and ints are exact in
    Python, so only the order of [Q] is used for them. *)
Inductive pyfloat : Type :=
| FFin (q : Q)
| FInf (negative : bool)
| FNan.

(** *** Rounding to a double

    The result of a division is the double nearest to the exact quotient,
    ties to the even significand: 53 bits, the exponent of the last bit no
    smaller than -1074 (subnormals), and nothing from [2 ^ 1024] on. *)

(** The integer nearest to [n / d], ties to even, for [0 <= n] and [0 < d]. *)
Definition round_half_even (n d : Z) : Z :=
  let q := n / d in
  match 2 * (n mod d) ?= d with
  | Lt => q
  | Gt => q + 1
  | Eq => if Z.even q then q else q + 1
  end.

(** The exponent of the last bit of the double nearest to [n / d], for
    [0 < n] and [0 < d]: with [2 ^ lg <= n / d < 2 ^ (lg + 1)] it is [lg - 52],
    and -1074 at least. *)
Definition binary64_exponent (n d : Z) : Z :=
  let e0 := Z.log2 n - Z.log2 d in
  let lg := if (if 0 <=? e0 then d * 2 ^ e0 <=? n else d <=? n * 2 ^ (- e0))
            then e0 else e0 - 1 in
  Z.max (lg - 52) (-1074).

(** The double nearest to [n / d], for [0 < n] and [0 < d]; [None] when
    there is none, the quotient being too large. *)
Definition binary64_pos (n d : Z) : option Q :=
  let ex := binary64_exponent n d in
  if 0 <=? ex
  then let v := round_half_even n (d * 2 ^ ex) * 2 ^ ex in
       if 2 ^ 1024 <=? v then None else Some (inject_Z v)
  else Some (Qred (round_half_even (n * 2 ^ (- ex)) d # Z.to_pos (2 ^ (- ex)))).

Definition binary64 (q : Q) : option Q :=
  match Qnum q with
  | 0 => Some (inject_Z 0)
  | Zpos n => binary64_pos (Zpos n) (Zpos (Qden q))
  | Zneg n => option_map Qopp (binary64_pos (Zpos n) (Zpos (Qden q)))
  end.

Inductive pynum : Type :=
| PInt (z : Z)
| PFloat (f : pyfloat).

(** What [json.load] produces. *)
Inductive json : Type :=
| JNull
| JBool (b : bool)
| JNum (n : pynum)
| JStr (s : string)
| JArr (xs : list json)
| JObj (kvs : list (string * json)).

Definition dict : Type := list (string * json).

Fixpoint dict_get (k : string) (d : dict) : option json :=
  match d with
  | [] => None
  | (k', v) :: rest => if String.eqb k k' then Some v else dict_get k rest
  end.

Definition dict_keys (d : dict) : list string := map fst d.

Definition dict_has (k : string) (d : dict) : bool :=
  match dict_get k d with Some _ => true | None => false end.

(** [needle in haystack] on two strings. *)
Fixpoint is_substring (needle hay : string) : bool :=
  String.prefix needle hay ||
  match hay with
  | EmptyString => false
  | String _ rest => is_substring needle rest
  end.

Definition JInt (z : Z) : json := JNum (PInt z).

(** [<=] on Python floats: every comparison with NaN is false. *)
Definition float_le (a b : pyfloat) : bool :=
  match a, b with
  | FNan, _ | _, FNan => false
  | FInf true, _ => true
  | _, FInf false => true
  | FInf false, _ => false
  | _, FInf true => false
  | FFin x, FFin y => Qle_bool x y
  end.

Definition to_float (n : pynum) : pyfloat :=
  match n with
  | PInt z => FFin (inject_Z z)
  | PFloat f => f
  end.

(** [a <= b] on numbers; an int and a float are compared by value. *)
Definition py_le (a b : pynum) : bool :=
  match a, b with
  | PInt x, PInt y => x <=? y
  | _, _ => float_le (to_float a) (to_float b)
  end.

(** [isinstance(v, int)]: [bool] is a subclass of [int]. *)
Definition isinstance_int (v : json) : bool :=
  match v with
  | JNum (PInt _) => true
  | JBool _ => true
  | _ => false
  end.

(** The integer a Python int (or bool) stands for. *)
Definition int_value (v : json) : option Z :=
  match v with
  | JNum (PInt z) => Some z
  | JBool b => Some (Z.b2z b)
  | _ => None
  end.

(** *** Exceptions, log lines, console lines *)

Inductive exn : Type :=
(* raised by the interpreter or the standard library *)
| TypeError
| KeyError (key : string)
| ValueError
| IndexError
| AttributeError
| OverflowError
(* http_handler.py *)
| InvalidURL (url : string)
| InvalidPayload
| PutRequestFailed (detail : string)
| InvalidJSONResponse (detail : string)
(* bridge.py *)
| InvalidLightID (light_id : string)
| InvalidHue (v : pynum)
| InvalidBrightness (v : pynum)
| InvalidSaturation (v : pynum)
(* animation.py *)
| AnimationFileNotFound (file : string)
| InvalidJSONFile (file detail : string)
| MissingKey (key name : string)
| MissingMinMax (key name : string)
| NotIntegers (key name : string)
| MinGreaterThanMax (key name : string).

Inductive logmsg : Type :=
(* http_handler.py *)
| LogInvalidURL (url : string)
| LogInvalidPayload (data : json)
| LogPutFailed (url detail : string)
| LogPutInvalidJSON (url detail : string)
(* bridge.py *)
| LogInvalidLightID (light_id : string)
| LogInvalidHue (v : pynum)
| LogInvalidBrightness (v : pynum)
| LogInvalidSaturation (v : pynum)
| LogTurnOnFailed (light_id : string) (e : exn)
| LogTurnOffFailed (light_id : string) (e : exn)
| LogSetColorFailed (light_id : string) (e : exn)
(* animation.py *)
| LogUpdateFailed (light_id : string) (e : exn)
| LogAnimationError (e : exn).

(** The dictionary [generate_random_state] returns. *)
Record state : Type := mkState { hue : Z; bri : Z; sat : Z }.

Inductive printed : Type :=
| PrintLightState (light_id : string) (st : state)
| PrintErrorOccurred (e : exn).

Inductive event : Type :=
| EvLog (file : string) (m : logmsg)
| EvPrint (p : printed)
| EvPut (url : string) (body : json)
| EvSleep (seconds : pyfloat).

(** *** Results and effects *)

Inductive pyres (A : Type) : Type :=
| Ok (a : A)
| Err (e : exn).
Arguments Ok {A} a.
Arguments Err {A} e.

Definition bind_res {A B} (r : pyres A) (k : A -> pyres B) : pyres B :=
  match r with
  | Ok a => k a
  | Err e => Err e
  end.

(** How a request to the bridge ends: [raise_for_status] and the connection
    raise an [aiohttp.ClientError]; [response.json()] raises a
    [json.JSONDecodeError]. *)
Inductive net_result : Type :=
| NetOk (response : json)
| NetClientError (detail : string)
| NetJSONDecodeError (detail : string).

Record Oracle : Type := mkOracle {
  entropy : nat -> Z;
  replies : nat -> net_result
}.

Record World : Type := mkWorld {
  rng_pos : nat;
  net_pos : nat;
  trace : list event
}.

Definition M (A : Type) : Type := Oracle -> World -> pyres A * World.

Definition ret {A} (a : A) : M A := fun _ w => (Ok a, w).

Definition raise {A} (e : exn) : M A := fun _ w => (Err e, w).

Definition bind {A B} (m : M A) (k : A -> M B) : M B :=
  fun o w =>
    match m o w with
    | (Ok a, w') => k a o w'
    | (Err e, w') => (Err e, w')
    end.

(** [try: m  except Exception as e: handler e] *)
Definition try_catch {A} (m : M A) (handler : exn -> M A) : M A :=
  fun o w =>
    match m o w with
    | (Ok a, w') => (Ok a, w')
    | (Err e, w') => handler e o w'
    end.

Definition lift {A} (r : pyres A) : M A := fun _ w => (r, w).

Definition emit (e : event) : M unit :=
  fun _ w => (Ok tt, mkWorld (rng_pos w) (net_pos w) (trace w ++ [e])).

(** The next reply of the network. *)
Definition next_reply : M net_result :=
  fun o w => (Ok (replies o (net_pos w)),
              mkWorld (rng_pos w) (S (net_pos w)) (trace w)).

(** [random.randint(a, b)] on ints: [ValueError] on an empty range, before
    the generator is touched. *)
Definition randint_z (a b : Z) : M Z :=
  fun o w =>
    if a <=? b
    then (Ok (a + entropy o (rng_pos w) mod (b - a + 1)),
          mkWorld (S (rng_pos w)) (net_pos w) (trace w))
    else (Err ValueError, w).

(** [random.randint] on what a configuration holds: anything but an int
    (or a bool) is a [TypeError] (older interpreters still take a float
    without fraction; the loader lets no float through). *)
Definition randint (a b : json) : M Z :=
  match int_value a, int_value b with
  | Some x, Some y => randint_z x y
  | _, _ => raise TypeError
  end.

(** [random.choice(seq)]: [IndexError] on an empty sequence. *)
Definition choice (seq : list string) : M string :=
  fun o w =>
    match seq with
    | [] => (Err IndexError, w)
    | x :: _ =>
        (Ok (nth (Z.to_nat (entropy o (rng_pos w) mod Z.of_nat (List.length seq)))
                 seq x),
         mkWorld (S (rng_pos w)) (net_pos w) (trace w))
    end.

(** [key in container] *)
Definition py_in (key : string) (container : json) : pyres bool :=
  match container with
  | JObj kvs => Ok (dict_has key kvs)
  | JArr xs =>
      Ok (existsb (fun x => match x with
                            | JStr s => String.eqb s key
                            | _ => false
                            end) xs)
  | JStr s => Ok (is_substring key s)
  | JNull | JBool _ | JNum _ => Err TypeError
  end.

(** [container[key]] with a string key. *)
Definition getitem (container : json) (key : string) : pyres json :=
  match container with
  | JObj kvs =>
      match dict_get key kvs with
      | Some v => Ok v
      | None => Err (KeyError key)
      end
  | _ => Err TypeError
  end.

Definition getitem2 (container : json) (k1 k2 : string) : pyres json :=
  bind_res (getitem container k1) (fun inner => getitem inner k2).

End Py.

Import Py.

Notation "x <- m ;; k" := (bind m (fun x => k))
  (at level 61, m at next level, right associativity).
Notation "m ;;; k" := (bind m (fun _ => k))
  (at level 61, right associativity).
Notation "x <~ r ;; k" := (bind_res r (fun x => k))
  (at level 61, r at next level, right associativity).

(* ------------------------------------------------------------------ *)
(** ** http_handler.py *)

Module Http.

Record Http : Type := mkHttp { log_file : string }.

(** [Http()] *)
Definition default : Http := mkHttp "http_error_log.txt".

Definition log_error (self : Http) (m : logmsg) : M unit :=
  emit (EvLog (log_file self) m).

Definition validate_url (self : Http) (url : string) : M unit :=
  if negb (String.prefix "http://" url) && negb (String.prefix "https://" url)
  then log_error self (LogInvalidURL url) ;;; raise (InvalidURL url)
  else ret tt.

(** [isinstance(data, dict)] *)
Definition is_dict (data : json) : bool :=
  match data with JObj _ => true | _ => false end.

(** Truth value of a dictionary: empty is false. *)
Definition dict_truthy (data : json) : bool :=
  match data with JObj [] => false | _ => true end.

Definition validate_payload (self : Http) (data : json) : M unit :=
  if negb (is_dict data) || negb (dict_truthy data)
  then log_error self (LogInvalidPayload data) ;;; raise InvalidPayload
  else ret tt.

Definition put (self : Http) (url : string) (data : json) : M json :=
  validate_url self url ;;;
  validate_payload self data ;;;
  emit (EvPut url data) ;;;
  reply <- next_reply ;;
  match reply with
  | NetOk response => ret response
  | NetClientError d =>
      log_error self (LogPutFailed url d) ;;; raise (PutRequestFailed d)
  | NetJSONDecodeError d =>
      log_error self (LogPutInvalidJSON url d) ;;; raise (InvalidJSONResponse d)
  end.

End Http.

(* ------------------------------------------------------------------ *)
(** ** bridge.py *)

Module Bridge.

Record Bridge : Type := mkBridge {
  ip : string;
  token : string;
  http : Http.Http
}.

Definition log_error (self : Bridge) (m : logmsg) : M unit :=
  emit (EvLog "bridge_error_log.txt" m).

(** A light id is a string here, so [isinstance(light_id, str)] holds and
    only emptiness is left to check. *)
Definition validate_light_id (self : Bridge) (light_id : string) : M unit :=
  match light_id with
  | EmptyString =>
      log_error self (LogInvalidLightID light_id) ;;;
      raise (InvalidLightID light_id)
  | _ => ret tt
  end.

Definition light_url (self : Bridge) (light_id : string) : string :=
  ("http://" ++ ip self ++ "/api/" ++ token self ++ "/lights/" ++ light_id
     ++ "/state")%string.

Definition get_url (self : Bridge) (light_id : string) : M string :=
  validate_light_id self light_id ;;;
  ret (light_url self light_id).

Definition turn_on_light (self : Bridge) (light_id : string) : M json :=
  try_catch
    (url <- get_url self light_id ;;
     Http.put (http self) url (JObj [("on", JBool true)]))
    (fun e => log_error self (LogTurnOnFailed light_id e) ;;; raise e).

Definition turn_off_light (self : Bridge) (light_id : string) : M json :=
  try_catch
    (url <- get_url self light_id ;;
     Http.put (http self) url (JObj [("on", JBool false)]))
    (fun e => log_error self (LogTurnOffFailed light_id e) ;;; raise e).

(** [0 <= v <= hi] *)
Definition between (lo hi : Z) (v : pynum) : bool :=
  py_le (PInt lo) v && py_le v (PInt hi).

Definition validate_color_values (self : Bridge)
    (hue brightness saturation : pynum) : M unit :=
  if negb (between 0 65535 hue)
  then log_error self (LogInvalidHue hue) ;;; raise (InvalidHue hue)
  else if negb (between 0 254 brightness)
  then log_error self (LogInvalidBrightness brightness) ;;;
       raise (InvalidBrightness brightness)
  else if negb (between 0 254 saturation)
  then log_error self (LogInvalidSaturation saturation) ;;;
       raise (InvalidSaturation saturation)
  else ret tt.

Definition color_body (hue brightness saturation : pynum) : json :=
  JObj [("hue", JNum hue); ("bri", JNum brightness); ("sat", JNum saturation)].

Definition set_light_color (self : Bridge) (light_id : string)
    (hue brightness saturation : pynum) : M json :=
  validate_color_values self hue brightness saturation ;;;
  try_catch
    (url <- get_url self light_id ;;
     Http.put (http self) url (color_body hue brightness saturation))
    (fun e => log_error self (LogSetColorFailed light_id e) ;;; raise e).

End Bridge.

(* ------------------------------------------------------------------ *)
(** ** animation.py *)

Module Animation.

Record Animation : Type := mkAnimation {
  bridge : Bridge.Bridge;
  lights : list string;
  minimum_duration : Z;
  maximum_duration : Z;
  animations : dict
}.

(** What opening and parsing the animation file comes to. *)
Inductive file_outcome : Type :=
| FileNotFound
| JSONDecodeError (detail : string)
| Parsed (data : json).

Definition required_keys : list string := ["speed"; "hue"; "bri"; "sat"].

(** [all(k in properties[key] for k in ['min', 'max'])] *)
Definition all_min_max (properties : json) (key : string) : pyres bool :=
  r <~ getitem properties key ;;
  has_min <~ py_in "min" r ;;
  if has_min
  then r' <~ getitem properties key ;; py_in "max" r'
  else Ok false.

(** The body of the inner loop, for one preset and one required key. *)
Definition check_key (animation_name : string) (properties : json)
    (key : string) : pyres unit :=
  present <~ py_in key properties ;;
  if negb present then Err (MissingKey key animation_name) else
  both <~ all_min_max properties key ;;
  if negb both then Err (MissingMinMax key animation_name) else
  lo <~ getitem2 properties key "min" ;;
  if negb (isinstance_int lo) then Err (NotIntegers key animation_name) else
  hi <~ getitem2 properties key "max" ;;
  if negb (isinstance_int hi) then Err (NotIntegers key animation_name) else
  lo' <~ getitem2 properties key "min" ;;
  hi' <~ getitem2 properties key "max" ;;
  match int_value lo', int_value hi' with
  | Some a, Some b =>
      if b <? a then Err (MinGreaterThanMax key animation_name) else Ok tt
  | _, _ => Err TypeError
  end.

Fixpoint check_keys (animation_name : string) (properties : json)
    (keys : list string) : pyres unit :=
  match keys with
  | [] => Ok tt
  | key :: rest =>
      _ <~ check_key animation_name properties key ;;
      check_keys animation_name properties rest
  end.

(** [for animation_name, properties in data.items(): ...] *)
Fixpoint check_items (items : dict) : pyres unit :=
  match items with
  | [] => Ok tt
  | (animation_name, properties) :: rest =>
      _ <~ check_keys animation_name properties required_keys ;;
      check_items rest
  end.

Definition load_and_validate_animations (animation_file : string)
    (file : file_outcome) : pyres dict :=
  match file with
  | FileNotFound => Err (AnimationFileNotFound animation_file)
  | JSONDecodeError d => Err (InvalidJSONFile animation_file d)
  | Parsed (JObj items) => _ <~ check_items items ;; Ok items
  | Parsed _ => Err AttributeError  (* no [items] on a list, a number, ... *)
  end.

(** *** [__init__] *)

Fixpoint split_on (sep : ascii) (s : string) : list string :=
  match s with
  | EmptyString => [EmptyString]
  | String c rest =>
      if Ascii.eqb c sep
      then EmptyString :: split_on sep rest
      else match split_on sep rest with
           | first :: others => String c first :: others
           | [] => [String c EmptyString]
           end
  end.

Section Init.

(** [int(s)] on a string is the interpreter's. *)
Variable int_of_str : string -> pyres Z.

(** [int(os.getenv(name, default))] with an int default. *)
Definition getenv_int (env : string -> option string) (name : string)
    (default : Z) : pyres Z :=
  match env name with
  | Some s => int_of_str s
  | None => Ok default
  end.

Definition init (env : string -> option string) (b : Bridge.Bridge)
    (animation_file : string) (file : file_outcome) : pyres Animation :=
  ls <~ match env "LIGHTS" with
        | Some s => Ok (split_on "|"%char s)
        | None => Err AttributeError
        end ;;
  lo <~ getenv_int env "MIN_DURATION" 20 ;;
  hi <~ getenv_int env "MAX_DURATION" 200 ;;
  anims <~ load_and_validate_animations animation_file file ;;
  Ok (mkAnimation b ls lo hi anims).

End Init.

(** *** The run *)

Definition log_error (self : Animation) (m : logmsg) : M unit :=
  emit (EvLog "error_log.txt" m).

Definition debug_request (self : Animation) (light_id : string) (st : state)
    : M unit :=
  emit (EvPrint (PrintLightState light_id st)).

Definition generate_random_state (self : Animation) (config : json) : M state :=
  hmin <- lift (getitem2 config "hue" "min") ;;
  hmax <- lift (getitem2 config "hue" "max") ;;
  h <- randint hmin hmax ;;
  bmin <- lift (getitem2 config "bri" "min") ;;
  bmax <- lift (getitem2 config "bri" "max") ;;
  b <- randint bmin bmax ;;
  smin <- lift (getitem2 config "sat" "min") ;;
  smax <- lift (getitem2 config "sat" "max") ;;
  s <- randint smin smax ;;
  ret (mkState h b s).

(** [asyncio.gather] on a list of tasks, under one schedule: every task is
    started, in the order of the list, and, with the exchange with the
    bridge taken as one step, runs to its end before the next one starts;
    the awaiting coroutine gets the results, or the exception of the first
    task of the list that failed. The event loop may interleave the
    exchanges in any other order, hands over the exception that comes first
    in time, and [asyncio.run] cancels what is still in flight when the run
    ends with it. So which exception it is when several tasks fail, and what
    the other tasks have done by then, belongs to this schedule only: no
    statement below rests on it but those about one concrete run. *)
Fixpoint run_tasks {A} (tasks : list (M A)) (o : Oracle) (w : World)
    : list (pyres A) * World :=
  match tasks with
  | [] => ([], w)
  | t :: rest =>
      let (r, w1) := t o w in
      let (rs, w2) := run_tasks rest o w1 in
      (r :: rs, w2)
  end.

Fixpoint collect {A} (rs : list (pyres A)) : pyres (list A) :=
  match rs with
  | [] => Ok []
  | Err e :: _ => Err e
  | Ok a :: rest =>
      match collect rest with
      | Ok l => Ok (a :: l)
      | Err e => Err e
      end
  end.

Definition gather {A} (tasks : list (M A)) : M (list A) :=
  fun o w => let (rs, w') := run_tasks tasks o w in (collect rs, w').

(** [z / 1000] on an int: the double nearest to the quotient, and an
    [OverflowError] when the quotient is too large for a double. *)
Definition int_truediv_1000 (z : Z) : pyres pyfloat :=
  match binary64 (z # 1000) with
  | Some q => Ok (FFin q)
  | None => Err OverflowError
  end.

(** [config['speed']['min'] / 1000]. A bool is an int; the division of a
    float does not raise: it rounds, and a quotient of an infinity or of a
    NaN is that infinity or a NaN. *)
Definition truediv_1000 (v : json) : pyres pyfloat :=
  match v with
  | JNum (PInt z) => int_truediv_1000 z
  | JBool b => int_truediv_1000 (Z.b2z b)
  | JNum (PFloat (FFin q)) =>
      Ok (match binary64 (Qdiv q (1000 # 1)) with
          | Some r => FFin r
          | None => FInf (Qnum q <? 0)
          end)
  | JNum (PFloat f) => Ok f
  | _ => Err TypeError
  end.

Definition sleep (seconds : pyfloat) : M unit := emit (EvSleep seconds).

(** The [for light_id in self.lights] loop of one tick: the coroutine object
    is made inside the [try], and awaited later, by [gather]. *)
Fixpoint make_tasks (self : Animation) (config : json) (ids : list string)
    : M (list (M json)) :=
  match ids with
  | [] => ret []
  | light_id :: rest =>
      made <- try_catch
                (st <- generate_random_state self config ;;
                 debug_request self light_id st ;;;
                 ret [Bridge.set_light_color (bridge self) light_id
                        (PInt (hue st)) (PInt (bri st)) (PInt (sat st))])
                (fun e => log_error self (LogUpdateFailed light_id e) ;;;
                          ret []) ;;
      more <- make_tasks self config rest ;;
      ret (made ++ more)
  end.

(** One iteration of [for _ in range(duration)]. *)
Definition tick (self : Animation) (config : json) : M unit :=
  tasks <- make_tasks self config (lights self) ;;
  _ <- gather tasks ;;
  lo <- lift (getitem2 config "speed" "min") ;;
  seconds <- lift (truediv_1000 lo) ;;
  sleep seconds.

Fixpoint tick_loop (self : Animation) (config : json) (n : nat) : M unit :=
  match n with
  | O => ret tt
  | S n' => tick self config ;;; tick_loop self config n'
  end.

(** [self.animations[animation_name]] *)
Definition lookup_animation (self : Animation) (name : string) : pyres json :=
  match dict_get name (animations self) with
  | Some c => Ok c
  | None => Err (KeyError name)
  end.

Definition load_effect (self : Animation) : M unit :=
  _ <- gather (map (Bridge.turn_on_light (bridge self)) (lights self)) ;;
  animation_name <- choice (dict_keys (animations self)) ;;
  config <- lift (lookup_animation self animation_name) ;;
  duration <- randint_z (minimum_duration self) (maximum_duration self) ;;
  tick_loop self config (Z.to_nat duration).

(** One turn of [while True] in [launch]. *)
Definition launch_once (self : Animation) : M unit :=
  try_catch
    (load_effect self)
    (fun e => log_error self (LogAnimationError e) ;;;
              emit (EvPrint (PrintErrorOccurred e))).

(** The first [turns] turns of the loop of [launch]. *)
Fixpoint launch (turns : nat) (self : Animation) : M unit :=
  match turns with
  | O => ret tt
  | S n => launch_once self ;;; launch n self
  end.

End Animation.

Import Animation.

(* ------------------------------------------------------------------ *)
(** ** Start-up: [Http.get], the constructor of [Bridge], app.py

    The start-up has exceptions, log lines and a request of its own; they
    are added on top of those of a run, which stay as they are. *)

Module Startup.

Inductive boot_exn : Type :=
| FromRun (e : exn)
(* http_handler.py *)
| GetRequestFailed (detail : string)
(* bridge.py *)
| UnableToConnect
| BridgeValidationFailed (cause : boot_exn).

Inductive boot_logmsg : Type :=
(* http_handler.py *)
| LogGetFailed (url detail : string)
| LogGetInvalidJSON (url detail : string)
(* bridge.py *)
| LogInvalidBridgeResponse (response : json)
| LogBridgeValidationFailed (e : boot_exn)
| LogLightsFailed (e : boot_exn).

Inductive boot_event : Type :=
| Run (e : event)
| EvGet (url : string)
| EvBootLog (file : string) (m : boot_logmsg).

Inductive boot_res (A : Type) : Type :=
| Done (a : A)
| Failed (e : boot_exn).
Arguments Done {A} a.
Arguments Failed {A} e.

Record BootWorld : Type := mkBootWorld {
  boot_rng_pos : nat;
  boot_net_pos : nat;
  boot_trace : list boot_event
}.

Definition B (A : Type) : Type := Oracle -> BootWorld -> boot_res A * BootWorld.

Definition done {A} (a : A) : B A := fun _ w => (Done a, w).

Definition fail {A} (e : boot_exn) : B A := fun _ w => (Failed e, w).

Definition andthen {A C} (m : B A) (k : A -> B C) : B C :=
  fun o w =>
    match m o w with
    | (Done a, w') => k a o w'
    | (Failed e, w') => (Failed e, w')
    end.

(** [try: m  except Exception as e: handler e] *)
Definition rescue {A} (m : B A) (handler : boot_exn -> B A) : B A :=
  fun o w =>
    match m o w with
    | (Done a, w') => (Done a, w')
    | (Failed e, w') => handler e o w'
    end.

Definition record (e : boot_event) : B unit :=
  fun _ w =>
    (Done tt, mkBootWorld (boot_rng_pos w) (boot_net_pos w) (boot_trace w ++ [e])).

Definition next_boot_reply : B net_result :=
  fun o w =>
    (Done (replies o (boot_net_pos w)),
     mkBootWorld (boot_rng_pos w) (S (boot_net_pos w)) (boot_trace w)).

Definition of_res {A} (r : pyres A) : B A :=
  match r with
  | Ok a => done a
  | Err e => fail (FromRun e)
  end.

(** A computation of a run, at start-up: it reads the same oracle from the
    same positions, and what it adds to the trace is added here. *)
Definition of_run {A} (m : M A) : B A :=
  fun o w =>
    let (r, w') := m o (mkWorld (boot_rng_pos w) (boot_net_pos w) []) in
    (match r with
     | Ok a => Done a
     | Err e => Failed (FromRun e)
     end,
     mkBootWorld (rng_pos w') (net_pos w') (boot_trace w ++ map Run (trace w'))).

Notation "x <<- m ;; k" := (andthen m (fun x => k))
  (at level 61, m at next level, right associativity).
Notation "m >>> k" := (andthen m (fun _ => k))
  (at level 61, right associativity).

(** *** http_handler.py: [get] *)

Definition http_log (self : Http.Http) (m : boot_logmsg) : B unit :=
  record (EvBootLog (Http.log_file self) m).

Definition get (self : Http.Http) (url : string) : B json :=
  of_run (Http.validate_url self url) >>>
  record (EvGet url) >>>
  reply <<- next_boot_reply ;;
  match reply with
  | NetOk response => done response
  | NetClientError d =>
      http_log self (LogGetFailed url d) >>> fail (GetRequestFailed d)
  | NetJSONDecodeError d =>
      http_log self (LogGetInvalidJSON url d) >>>
      fail (FromRun (InvalidJSONResponse d))
  end.

(** *** bridge.py: the constructor and [get_available_lights] *)

Definition bridge_log (self : Bridge.Bridge) (m : boot_logmsg) : B unit :=
  record (EvBootLog "bridge_error_log.txt" m).

Definition config_url (self : Bridge.Bridge) : string :=
  ("http://" ++ Bridge.ip self ++ "/api/" ++ Bridge.token self ++ "/config")%string.

Definition lights_url (self : Bridge.Bridge) : string :=
  ("http://" ++ Bridge.ip self ++ "/api/" ++ Bridge.token self ++ "/lights")%string.

Definition validate_bridge_connection (self : Bridge.Bridge) : B unit :=
  rescue
    (response <<- get (Bridge.http self) (config_url self) ;;
     named <<- of_res (py_in "name" response) ;;
     if negb named
     then bridge_log self (LogInvalidBridgeResponse response) >>>
          fail UnableToConnect
     else done tt)
    (fun e => bridge_log self (LogBridgeValidationFailed e) >>>
              fail (BridgeValidationFailed e)).

(** What an f-string makes of [os.getenv(name)]: the text [None] when the
    variable is not set. The address and the token are only ever used in
    f-strings. *)
Definition formatted (v : option string) : string :=
  match v with
  | Some s => s
  | None => "None"
  end.

(** The fields [Bridge()] sets before it validates the connection: the
    local address only when [DEV] is exactly [true]. *)
Definition bridge_of_env (env : string -> option string) : Bridge.Bridge :=
  let ip :=
    match env "DEV" with
    | Some dev =>
        if String.eqb dev "true"
        then env "HUE_BRIDGE_LOCAL_IP"
        else env "HUE_BRIDGE_REMOTE_IP"
    | None => env "HUE_BRIDGE_REMOTE_IP"
    end in
  Bridge.mkBridge (formatted ip) (formatted (env "HUE_TOKEN")) Http.default.

(** [Bridge()] *)
Definition bridge_init (env : string -> option string) : B Bridge.Bridge :=
  let self := bridge_of_env env in
  validate_bridge_connection self >>>
  done self.

Definition get_available_lights (self : Bridge.Bridge) : B json :=
  rescue
    (get (Bridge.http self) (lights_url self))
    (fun e => bridge_log self (LogLightsFailed e) >>> fail e).

(** *** app.py, with the first [turns] turns of the loop of [launch] *)

Section Main.

Variable int_of_str : string -> pyres Z.

Definition main (env : string -> option string) (file : file_outcome)
    (turns : nat) : B unit :=
  bridge <<- bridge_init env ;;
  animation <<- of_res (init int_of_str env bridge "animation.json" file) ;;
  of_run (launch turns animation).

End Main.

End Startup.

(* ------------------------------------------------------------------ *)
(** ** Vocabulary of the specification *)

(** The range a preset gives for [key], when it has one: both bounds are
    there and are Python ints. *)
Definition preset_range (config : json) (key : string) : option (Z * Z) :=
  match getitem2 config key "min", getitem2 config key "max" with
  | Ok a, Ok b =>
      match int_value a, int_value b with
      | Some lo, Some hi => Some (lo, hi)
      | _, _ => None
      end
  | _, _ => None
  end.

Definition well_formed_range (properties : json) (key : string) : Prop :=
  exists lo hi, preset_range properties key = Some (lo, hi) /\ lo <= hi.

Definition well_formed_preset (properties : json) : Prop :=
  Forall (well_formed_range properties) required_keys.

(** An integer of the configuration file: a JSON number written without
    fraction or exponent. [true] and [false] are not integers. *)
Definition is_integer (v : json) : bool :=
  match v with
  | JNum (PInt _) => true
  | _ => false
  end.

(** [lo <= v <= hi], for a number. *)
Definition within (lo hi : Z) (v : pynum) : Prop :=
  match v with
  | PInt z => lo <= z <= hi
  | PFloat (FFin q) => (inject_Z lo <= q)%Q /\ (q <= inject_Z hi)%Q
  | PFloat _ => False
  end.

Definition is_sleep (e : event) : bool :=
  match e with EvSleep _ => true | _ => false end.

Definition is_put (e : event) : bool :=
  match e with EvPut _ _ => true | _ => false end.

(** Ticks a trace has completed: every tick ends with its sleep. *)
Definition count_sleeps (t : list event) : nat := List.length (filter is_sleep t).

Definition count_puts (t : list event) : nat := List.length (filter is_put t).

(** The bridge answers every request. *)
Definition all_replies_ok (o : Oracle) : Prop :=
  forall n, exists response, replies o n = NetOk response.

(** A pace the run can sleep: an int (or a bool) whose thousandth is not
    too large for a double. *)
Definition pace_fits (lo : json) : Prop :=
  exists z q, int_value lo = Some z /\ binary64 (z # 1000) = Some q.

(** A preset whose states the bridge accepts: ranges in order and inside
    the ranges of the bridge, and a pace that fits. *)
Definition playable_preset (config : json) : Prop :=
  exists hl hh bl bh sl sh lo,
    preset_range config "hue" = Some (hl, hh) /\ 0 <= hl <= hh /\ hh <= 65535 /\
    preset_range config "bri" = Some (bl, bh) /\ 0 <= bl <= bh /\ bh <= 254 /\
    preset_range config "sat" = Some (sl, sh) /\ 0 <= sl <= sh /\ sh <= 254 /\
    getitem2 config "speed" "min" = Ok lo /\ pace_fits lo.

(** What a run draws when the random source is at position [p]: first the
    name of the preset, among the names in the order of the file, then the
    number of ticks, between the two bounds of the duration. *)
Definition drawn_preset (self : Animation) (o : Oracle) (p : nat) : option string :=
  match dict_keys (animations self) with
  | [] => None
  | first :: others =>
      Some (nth (Z.to_nat (entropy o p mod Z.of_nat (List.length (first :: others))))
              (first :: others) first)
  end.

Definition drawn_duration (self : Animation) (o : Oracle) (p : nat) : Z :=
  minimum_duration self
  + entropy o (S p) mod (maximum_duration self - minimum_duration self + 1).

(** [d[k] = v] for a key that is there. *)
Fixpoint dict_set (k : string) (v : json) (d : dict) : dict :=
  match d with
  | [] => []
  | (k', v') :: rest =>
      if String.eqb k k' then (k', v) :: rest else (k', v') :: dict_set k v rest
  end.

(** The preset with another value for [speed.max], everything else as it is. *)
Definition with_speed_max (v : json) (config : json) : json :=
  match config with
  | JObj kvs =>
      match dict_get "speed" kvs with
      | Some (JObj r) => JObj (dict_set "speed" (JObj (dict_set "max" v r)) kvs)
      | _ => config
      end
  | _ => config
  end.

Definition retune (v : string -> json) (d : dict) : dict :=
  map (fun entry => (fst entry, with_speed_max (v (fst entry)) (snd entry))) d.

Definition is_scalar (v : json) : bool :=
  match v with
  | JArr _ | JObj _ => false
  | _ => true
  end.

(** A non-empty mapping from keys to scalars. *)
Definition is_flat_mapping (data : json) : bool :=
  match data with
  | JObj [] => false
  | JObj kvs => forallb (fun kv => is_scalar (snd kv)) kvs
  | _ => false
  end.

(** What stands before the first colon of a URL. *)
Fixpoint url_scheme (url : string) : string :=
  match url with
  | EmptyString => EmptyString
  | String c rest =>
      if Ascii.eqb c ":"%char then EmptyString else String c (url_scheme rest)
  end.

(** The sleeps of a trace, in order. *)
Definition sleeps (t : list event) : list event := filter is_sleep t.

(** A state the bridge takes. *)
Definition accepted (st : state) : Prop :=
  0 <= hue st <= 65535 /\ 0 <= bri st <= 254 /\ 0 <= sat st <= 254.

(** The same show with other values for the [speed.max] of its presets. *)
Definition retuned (v : string -> json) (self : Animation) : Animation :=
  mkAnimation (bridge self) (lights self) (minimum_duration self)
    (maximum_duration self) (retune v (animations self)).

(** An event that is not a sleep. *)
Definition quiet (e : event) : Prop := is_sleep e = false.

(** The line the [except] of the tick loop writes. *)
Definition is_update_failure (e : event) : bool :=
  match e with
  | EvLog _ (LogUpdateFailed _ _) => true
  | _ => false
  end.

(** What a computation adds to the trace satisfies [P], and what it returns
    satisfies [Q]. *)
Definition emits {A} (P : event -> Prop) (Q : A -> Prop) (m : M A) : Prop :=
  forall o w,
    (exists new, trace (snd (m o w)) = trace w ++ new /\ Forall P new) /\
    (forall a, fst (m o w) = Ok a -> Q a).

(** Under oracle [o] the computation returns, with [k] more completed
    ticks in the trace, and a value that satisfies [Q]. *)
Definition runs {A} (o : Oracle) (k : nat) (Q : A -> Prop) (m : M A) : Prop :=
  forall w, exists a w',
    m o w = (Ok a, w') /\
    count_sleeps (trace w') = (count_sleeps (trace w) + k)%nat /\
    Q a.

(** *** The configuration of the specification's example *)

Module Sample.

Definition range (lo hi : Z) : json := JObj [("min", JInt lo); ("max", JInt hi)].

Definition pulse : json :=
  JObj [("speed", range 50 50); ("hue", range 0 100);
        ("bri", range 100 150); ("sat", range 200 254)].

(** A preset whose pace has two different bounds. *)
Definition glow : json :=
  JObj [("speed", range 50 80); ("hue", range 0 100);
        ("bri", range 100 150); ("sat", range 200 254)].

(** A preset whose pace is given by booleans. *)
Definition flicker : json :=
  JObj [("speed", JObj [("min", JBool false); ("max", JBool true)]);
        ("hue", range 0 100); ("bri", range 100 150); ("sat", range 200 254)].

Definition hub : Bridge.Bridge := Bridge.mkBridge "192.168.1.2" "token" Http.default.

(** [LIGHTS=1|2], [MIN_DURATION=3], [MAX_DURATION=3]. *)
Definition show : Animation := mkAnimation hub ["1"; "2"] 3 3 [("pulse", pulse)].

(** [LIGHTS=1|2], [MIN_DURATION=3], [MAX_DURATION=5]. *)
Definition encore : Animation := mkAnimation hub ["1"; "2"] 3 5 [("pulse", pulse)].

Definition dice (n : nat) : Z := Z.of_nat n * 37.

Definition empty_reply : json := JArr [].

(** The bridge answers every request. *)
Definition steady : Oracle := mkOracle dice (fun _ => NetOk empty_reply).

(** The bridge fails the request number [k] (from 0) and answers the others. *)
Definition failing_at (k : nat) : Oracle :=
  mkOracle dice (fun n => if Nat.eqb n k
                          then NetClientError "Cannot connect to host"
                          else NetOk empty_reply).

Definition start : World := mkWorld 0 0 [].

End Sample.

(** *** Vocabulary for the rest of the code *)

Definition well_formed_entry (entry : string * json) : Prop :=
  well_formed_preset (snd entry).

(** [isinstance(v, dict)] for a preset. *)
Definition is_object (v : json) : bool :=
  match v with JObj _ => true | _ => false end.

(** [sep.join(pieces)] *)
Fixpoint join (sep : ascii) (pieces : list string) : string :=
  match pieces with
  | [] => EmptyString
  | [p] => p
  | p :: rest => (p ++ String sep (join sep rest))%string
  end.

Fixpoint count_char (c : ascii) (s : string) : nat :=
  match s with
  | EmptyString => O
  | String a rest => ((if Ascii.eqb a c then 1 else 0) + count_char c rest)%nat
  end.

Definition is_log (e : event) : bool :=
  match e with EvLog _ _ => true | _ => false end.

Definition count_logs (t : list event) : nat := List.length (filter is_log t).

(** What a gateway call that reaches the bridge comes to: the PUT, then
    either the response, or the line of the transport, the line [line e] of
    the gateway, and the exception [e] of the transport, unchanged. *)
Definition exchange (b : Bridge.Bridge) (url : string) (body : json)
    (line : exn -> logmsg) (o : Oracle) (w : World) : pyres json * World :=
  let failed (e : exn) (m : logmsg) :=
    (Err e,
     mkWorld (rng_pos w) (S (net_pos w))
       (trace w ++ [EvPut url body;
                    EvLog (Http.log_file (Bridge.http b)) m;
                    EvLog "bridge_error_log.txt" (line e)])) in
  match replies o (net_pos w) with
  | NetOk response =>
      (Ok response,
       mkWorld (rng_pos w) (S (net_pos w)) (trace w ++ [EvPut url body]))
  | NetClientError d => failed (PutRequestFailed d) (LogPutFailed url d)
  | NetJSONDecodeError d => failed (InvalidJSONResponse d) (LogPutInvalidJSON url d)
  end.

(** What the transport and the gateway add to the trace: requests, and
    their own log lines. *)
Definition from_gateway (e : event) : bool :=
  match e with
  | EvPut _ _ => true
  | EvLog _ (LogUpdateFailed _ _) => false
  | EvLog _ (LogAnimationError _) => false
  | EvLog _ _ => true
  | _ => false
  end.

Definition is_animation_error (e : event) : bool :=
  match e with
  | EvLog _ (LogAnimationError _) => true
  | _ => false
  end.

Definition count_animation_errors (t : list event) : nat :=
  List.length (filter is_animation_error t).

Definition no_update_failure (e : event) : Prop := is_update_failure e = false.

Definition count_update_failures (t : list event) : nat :=
  List.length (filter is_update_failure t).

(** What one tick adds to the trace when no state can be drawn: a line for
    each light, and the sleep. *)
Definition skipped_tick (ids : list string) (e : exn) (seconds : pyfloat)
    : list event :=
  map (fun light_id => EvLog "error_log.txt" (LogUpdateFailed light_id e)) ids
  ++ [EvSleep seconds].

(** Requests of the start-up and of the runs it leads to. *)
Definition is_boot_put (e : Startup.boot_event) : bool :=
  match e with
  | Startup.Run (EvPut _ _) => true
  | _ => false
  end.

Definition is_get (e : Startup.boot_event) : bool :=
  match e with
  | Startup.EvGet _ => true
  | _ => false
  end.

Definition count_boot_puts (t : list Startup.boot_event) : nat :=
  List.length (filter is_boot_put t).

Definition count_gets (t : list Startup.boot_event) : nat :=
  List.length (filter is_get t).

(** The world after a GET to [url] and the lines [lines]. *)
Definition after_get (w : Startup.BootWorld) (url : string)
    (lines : list Startup.boot_event) : Startup.BootWorld :=
  Startup.mkBootWorld (Startup.boot_rng_pos w) (S (Startup.boot_net_pos w))
    (Startup.boot_trace w ++ Startup.EvGet url :: lines).

(** Arguments [put] takes: a URL that starts with [http://] or [https://]
    and a dictionary that is not empty. *)
Definition sendable (url : string) (data : json) : bool :=
  (String.prefix "http://" url || String.prefix "https://" url) &&
  match data with
  | JObj (_ :: _) => true
  | _ => false
  end.

(** The keys of the body of a request. *)
Definition body_keys (body : json) : list string :=
  match body with
  | JObj kvs => map fst kvs
  | _ => []
  end.

(** An event that is not a request, or a request that sets a color. *)
Definition no_request_but_color (e : event) : Prop :=
  forall url body, e = EvPut url body -> body_keys body = ["hue"; "bri"; "sat"].

(** The requests of the turn-on step of a run, in the order of the lights. *)
Definition turn_on_requests (self : Animation) : list event :=
  map (fun light_id =>
         EvPut (Bridge.light_url (bridge self) light_id) (JObj [("on", JBool true)]))
      (lights self).

(** The exception of a run that has no preset to draw, or no number of
    ticks to draw. *)
Definition stalled_by (self : Animation) : exn :=
  match animations self with
  | [] => IndexError
  | _ :: _ => ValueError
  end.

(** What the driver adds to the trace when it catches [e]. *)
Definition caught (e : exn) : list event :=
  [EvLog "error_log.txt" (LogAnimationError e); EvPrint (PrintErrorOccurred e)].

(** The line the gateway writes for a light id it refuses. *)
Definition is_invalid_light_id (e : event) : bool :=
  match e with
  | EvLog _ (LogInvalidLightID _) => true
  | _ => false
  end.

Definition count_invalid_light_ids (t : list event) : nat :=
  List.length (filter is_invalid_light_id t).

(** The empty ids of a list of lights. *)
Definition count_empty (ids : list string) : nat :=
  List.length (filter (fun light_id => String.eqb light_id "") ids).

(** A computation that leaves the random source where it is. *)
Definition keeps_rng {A} (m : M A) : Prop :=
  forall o w, rng_pos (snd (m o w)) = rng_pos w.

(** Under oracle [o] the computation returns, with [k] more sleeps and [p]
    more PUT requests in the trace, and a value that satisfies [Q]. *)
Definition tally {A} (o : Oracle) (k p : nat) (Q : A -> Prop) (m : M A) : Prop :=
  forall w, exists a w',
    m o w = (Ok a, w') /\
    count_sleeps (trace w') = (count_sleeps (trace w) + k)%nat /\
    count_puts (trace w') = (count_puts (trace w) + p)%nat /\
    Q a.

(* ------------------------------------------------------------------ *)
(** ** Properties *)

(** *** Presets and random states *)

Lemma preset_range_inv config key lo hi :
  preset_range config key = Some (lo, hi) ->
  exists a b,
    getitem2 config key "min" = Ok a /\ getitem2 config key "max" = Ok b /\
    int_value a = Some lo /\ int_value b = Some hi.
Proof.
  unfold preset_range.
  destruct (getitem2 config key "min") as [a|]; [|discriminate].
  destruct (getitem2 config key "max") as [b|]; [|discriminate].
  destruct (int_value a) as [x|] eqn:Ea; [|discriminate].
  destruct (int_value b) as [y|] eqn:Eb; [|discriminate].
  intros H; inversion H; subst. exists a, b. auto.
Qed.

Lemma randint_in_range a b lo hi o w :
  int_value a = Some lo -> int_value b = Some hi -> lo <= hi ->
  exists v,
    randint a b o w = (Ok v, mkWorld (S (rng_pos w)) (net_pos w) (trace w)) /\
    lo <= v <= hi.
Proof.
  intros Ha Hb Hle. unfold randint, randint_z. rewrite Ha, Hb.
  destruct (Z.leb_spec lo hi); [|lia].
  eexists; split; [reflexivity|].
  pose proof (Z.mod_pos_bound (entropy o (rng_pos w)) (hi - lo + 1)). lia.
Qed.

Lemma generate_random_state_spec self config hl hh bl bh sl sh o w :
  preset_range config "hue" = Some (hl, hh) ->
  preset_range config "bri" = Some (bl, bh) ->
  preset_range config "sat" = Some (sl, sh) ->
  hl <= hh -> bl <= bh -> sl <= sh ->
  exists st,
    generate_random_state self config o w
      = (Ok st, mkWorld (S (S (S (rng_pos w)))) (net_pos w) (trace w)) /\
    hl <= hue st <= hh /\ bl <= bri st <= bh /\ sl <= sat st <= sh.
Proof.
  intros Hh Hb Hs Lh Lb Ls.
  apply preset_range_inv in Hh as (h1 & h2 & Eh1 & Eh2 & Ih1 & Ih2).
  apply preset_range_inv in Hb as (b1 & b2 & Eb1 & Eb2 & Ib1 & Ib2).
  apply preset_range_inv in Hs as (s1 & s2 & Es1 & Es2 & Is1 & Is2).
  unfold generate_random_state, bind, lift.
  rewrite Eh1, Eh2.
  destruct (randint_in_range h1 h2 hl hh o w Ih1 Ih2 Lh) as (vh & Rh & Bh).
  rewrite Rh, Eb1, Eb2.
  match goal with |- context [randint b1 b2 o ?w1] =>
    destruct (randint_in_range b1 b2 bl bh o w1 Ib1 Ib2 Lb) as (vb & Rb & Bb)
  end.
  rewrite Rb, Es1, Es2.
  match goal with |- context [randint s1 s2 o ?w1] =>
    destruct (randint_in_range s1 s2 sl sh o w1 Is1 Is2 Ls) as (vs & Rs & Bs)
  end.
  rewrite Rs. unfold ret. eexists. split; [reflexivity|]. simpl. auto.
Qed.

(** C2. For every preset whose hue, bri and sat ranges each have
    min <= max, [generate_random_state] returns a state, and its hue, bri and
    sat lie between the bounds of the preset, bounds included. *)
Theorem generate_random_state_within_preset self config hl hh bl bh sl sh o w :
  preset_range config "hue" = Some (hl, hh) ->
  preset_range config "bri" = Some (bl, bh) ->
  preset_range config "sat" = Some (sl, sh) ->
  hl <= hh -> bl <= bh -> sl <= sh ->
  exists st w',
    generate_random_state self config o w = (Ok st, w') /\
    hl <= hue st <= hh /\ bl <= bri st <= bh /\ sl <= sat st <= sh.
Proof.
  intros Hh Hb Hs Lh Lb Ls.
  destruct (generate_random_state_spec self config hl hh bl bh sl sh o w
              Hh Hb Hs Lh Lb Ls) as (st & E & B).
  exists st. eexists. split; [exact E | exact B].
Qed.

Lemma generate_random_state_within_preset_witness :
  exists st w',
    generate_random_state Sample.show Sample.pulse Sample.steady Sample.start
      = (Ok st, w') /\
    0 <= hue st <= 100 /\ 100 <= bri st <= 150 /\ 200 <= sat st <= 254.
Proof.
  apply (generate_random_state_within_preset
           Sample.show Sample.pulse 0 100 100 150 200 254);
    solve [reflexivity | lia].
Defined.

(** *** Loading the presets *)

Ltac split_match :=
  match goal with
  | |- context [match ?c with _ => _ end] =>
      lazymatch c with
      | context [match _ with _ => _ end] => fail
      | _ => destruct c eqn:?
      end
  | H : context [match ?c with _ => _ end] |- _ =>
      lazymatch c with
      | context [match _ with _ => _ end] => fail
      | _ => destruct c eqn:?
      end
  | H : context [if ?c then _ else _] |- _ => destruct c eqn:?
  | |- context [if ?c then _ else _] => destruct c eqn:?
  end.

Lemma int_value_isinstance v z : int_value v = Some z -> isinstance_int v = true.
Proof. destruct v as [ | |[|]| | | ]; simpl; congruence. Qed.

Lemma check_key_ok_iff name props key :
  check_key name props key = Ok tt <-> well_formed_range props key.
Proof.
  unfold well_formed_range, preset_range, check_key, all_min_max, getitem2,
    bind_res, py_in, getitem, dict_has.
  split.
  - intros H.
    repeat (split_match; simpl in *; try discriminate; subst).
    all: try congruence.
    match goal with
    | E : (?b <? ?a) = false |- _ =>
        exists a, b; split; [congruence | apply Z.ltb_ge in E; lia]
    end.
  - intros (lo & hi & H & Hle).
    repeat (split_match; simpl in *; try discriminate; subst).
    all: try congruence.
    all: repeat match goal with
    | E : int_value _ = Some _ |- _ => apply int_value_isinstance in E
    end.
    all: try (match goal with E : negb ?b = true, E1 : ?b = true |- _ =>
                rewrite E1 in E; discriminate end).
    match goal with
    | E : (?b <? ?a) = true, E1 : Some _ = Some _ |- _ =>
        apply Z.ltb_lt in E; inversion E1; subst; lia
    end.
Qed.

Lemma check_keys_ok_iff name props keys :
  check_keys name props keys = Ok tt <-> Forall (well_formed_range props) keys.
Proof.
  induction keys as [|k keys IH]; simpl.
  - split; auto.
  - unfold bind_res. split.
    + destruct (check_key name props k) as [[]|] eqn:E; [|discriminate].
      intros H. constructor; [apply check_key_ok_iff in E; exact E | apply IH; exact H].
    + intros H. inversion H as [|? ? Hk Hks]; subst.
      apply check_key_ok_iff with (name := name) in Hk. rewrite Hk.
      apply IH; exact Hks.
Qed.

Lemma check_items_ok_iff items :
  check_items items = Ok tt <->
  Forall (fun entry => well_formed_preset (snd entry)) items.
Proof.
  induction items as [|[name props] items IH]; cbn [check_items].
  - split; auto.
  - unfold bind_res. split.
    + destruct (check_keys name props required_keys) as [[]|] eqn:E; [|discriminate].
      intros H. constructor; [apply check_keys_ok_iff in E; exact E | apply IH; exact H].
    + intros H. inversion H as [|? ? Hk Hks]; subst. simpl in Hk.
      apply check_keys_ok_iff with (name := name) in Hk. rewrite Hk.
      apply IH; exact Hks.
Qed.

(** What the loader accepts: it returns the whole mapping when every preset
    has its four ranges, each with two Python ints in order (a bool counts
    as an int), and raises otherwise; it never returns a part of it. *)
Theorem load_and_validate_characterization animation_file items :
  (Forall (fun entry => well_formed_preset (snd entry)) items ->
   load_and_validate_animations animation_file (Parsed (JObj items)) = Ok items) /\
  (~ Forall (fun entry => well_formed_preset (snd entry)) items ->
   exists e,
     load_and_validate_animations animation_file (Parsed (JObj items)) = Err e).
Proof.
  cbn [load_and_validate_animations]. unfold bind_res. split; intros H.
  - apply check_items_ok_iff in H. rewrite H. reflexivity.
  - destruct (check_items items) as [[]|e] eqn:E.
    + exfalso. apply H. apply check_items_ok_iff. exact E.
    + exists e. reflexivity.
Qed.

Lemma load_returns_parsed animation_file file items :
  load_and_validate_animations animation_file file = Ok items ->
  file = Parsed (JObj items).
Proof.
  destruct file as [ | d | data]; simpl; try discriminate.
  destruct data; try discriminate.
  unfold bind_res. destruct (check_items kvs); [|discriminate].
  intros H; inversion H; reflexivity.
Qed.

(** C3. The loader takes a preset whose [speed.min] and [speed.max] are the
    booleans [false] and [true], which are not integers, and returns the
    mapping: [isinstance(x, int)] holds of a bool. *)
Theorem boolean_bounds_are_loaded :
  is_integer (JBool false) = false /\
  getitem2 Sample.flicker "speed" "min" = Ok (JBool false) /\
  load_and_validate_animations "animation.json"
    (Parsed (JObj [("flicker", Sample.flicker)]))
  = Ok [("flicker", Sample.flicker)].
Proof. repeat split. Qed.

(** *** What computations add to the trace *)

Lemma count_sleeps_app t1 t2 :
  count_sleeps (t1 ++ t2) = (count_sleeps t1 + count_sleeps t2)%nat.
Proof. unfold count_sleeps. rewrite filter_app, length_app. reflexivity. Qed.

Section Emits.

Variable P : event -> Prop.

Lemma emits_ret {A} (Q : A -> Prop) a : Q a -> emits P Q (ret a).
Proof.
  intros Ha o w; simpl; split.
  - exists []. rewrite app_nil_r. auto.
  - intros ? [= <-]. exact Ha.
Qed.

Lemma emits_raise {A} (Q : A -> Prop) e : emits P Q (raise e).
Proof.
  intros o w; simpl; split.
  - exists []. rewrite app_nil_r. auto.
  - discriminate.
Qed.

Lemma emits_lift {A} (Q : A -> Prop) (r : pyres A) :
  (forall a, r = Ok a -> Q a) -> emits P Q (lift r).
Proof.
  intros Hr o w; simpl; split.
  - exists []. rewrite app_nil_r. auto.
  - exact Hr.
Qed.

Lemma emits_emit (Q : unit -> Prop) e : P e -> Q tt -> emits P Q (emit e).
Proof.
  intros He Hq o w; simpl; split.
  - exists [e]. auto.
  - intros [] _. exact Hq.
Qed.

Lemma emits_bind {A B} (Q1 : A -> Prop) (Q : B -> Prop) m k :
  emits P Q1 m -> (forall a, Q1 a -> emits P Q (k a)) -> emits P Q (bind m k).
Proof.
  intros Hm Hk o w. unfold bind.
  destruct (Hm o w) as [(n1 & E1 & F1) R1].
  destruct (m o w) as [[a|e] w1]; simpl in *.
  - destruct (Hk a (R1 a eq_refl) o w1) as [(n2 & E2 & F2) R2]. split.
    + exists (n1 ++ n2). rewrite E2, E1, app_assoc. split; [reflexivity|].
      apply Forall_app; auto.
    + exact R2.
  - split; [exists n1; auto | discriminate].
Qed.

Lemma emits_try {A} (Q : A -> Prop) m h :
  emits P Q m -> (forall e, emits P Q (h e)) -> emits P Q (try_catch m h).
Proof.
  intros Hm Hh o w. unfold try_catch.
  destruct (Hm o w) as [(n1 & E1 & F1) R1].
  destruct (m o w) as [[a|e] w1]; simpl in *.
  - split; [exists n1; auto | exact R1].
  - destruct (Hh e o w1) as [(n2 & E2 & F2) R2]. split.
    + exists (n1 ++ n2). rewrite E2, E1, app_assoc. split; [reflexivity|].
      apply Forall_app; auto.
    + exact R2.
Qed.

Lemma emits_weaken {A} (Q Q' : A -> Prop) m :
  emits P Q m -> (forall a, Q a -> Q' a) -> emits P Q' m.
Proof.
  intros Hm HQ o w. destruct (Hm o w) as [E R]. split; auto.
Qed.

Lemma emits_next_reply : emits P (fun _ => True) next_reply.
Proof.
  intros o w; simpl; split; [|auto].
  exists []. rewrite app_nil_r. auto.
Qed.

Lemma emits_randint_z a b : emits P (fun _ => True) (randint_z a b).
Proof.
  intros o w. unfold randint_z. destruct (a <=? b); simpl; (split; [|auto]);
    exists []; rewrite app_nil_r; auto.
Qed.

Lemma emits_randint a b : emits P (fun _ => True) (randint a b).
Proof.
  unfold randint. destruct (int_value a); [destruct (int_value b)|];
    auto using emits_randint_z, emits_raise.
Qed.

Lemma emits_choice seq : emits P (fun _ => True) (choice seq).
Proof.
  intros o w. unfold choice. destruct seq; simpl; (split; [|auto]);
    exists []; rewrite app_nil_r; auto.
Qed.

Lemma emits_gather {A} (tasks : list (M A)) :
  Forall (emits P (fun _ => True)) tasks -> emits P (fun _ => True) (gather tasks).
Proof.
  intros H o w. split; [|auto]. unfold gather.
  revert w. induction H as [|t tasks Ht _ IH]; intros w; simpl.
  - exists []. rewrite app_nil_r. auto.
  - destruct (Ht o w) as [(n1 & E1 & F1) _].
    destruct (t o w) as [r w1]; simpl in *.
    destruct (IH w1) as (n2 & E2 & F2).
    destruct (run_tasks tasks o w1) as [rs w2]; simpl in *.
    exists (n1 ++ n2). rewrite E2, E1, app_assoc. split; [reflexivity|].
    apply Forall_app; auto.
Qed.

(** Whatever is not a sleep is allowed. *)
Hypothesis others : forall e, is_sleep e = false -> P e.

Lemma emits_put self url data : emits P (fun _ => True) (Http.put self url data).
Proof.
  unfold Http.put, Http.validate_url, Http.validate_payload, Http.log_error.
  repeat first
    [ apply emits_bind with (Q1 := fun _ => True); [|intros ? _]
    | match goal with |- emits _ _ (if ?c then _ else _) => destruct c end
    | match goal with |- emits _ _ (match ?c with _ => _ end) => destruct c end
    | apply emits_emit; [apply others; reflexivity | exact I]
    | apply emits_raise
    | apply emits_ret; exact I
    | apply emits_next_reply ].
Qed.


Ltac emits_steps :=
  repeat first
    [ apply emits_put
    | apply emits_bind with (Q1 := fun _ => True); [|intros ? _]
    | apply emits_try; [|intros ?]
    | match goal with |- emits _ _ (if ?c then _ else _) => destruct c end
    | match goal with |- emits _ _ (match ?c with _ => _ end) => destruct c end
    | apply emits_emit; [apply others; reflexivity | exact I]
    | apply emits_raise
    | apply emits_ret; exact I ].

Lemma emits_turn_on b light_id :
  emits P (fun _ => True) (Bridge.turn_on_light b light_id).
Proof.
  unfold Bridge.turn_on_light, Bridge.get_url, Bridge.validate_light_id,
    Bridge.log_error.
  emits_steps.
Qed.

Lemma emits_set_light_color b light_id h br s :
  emits P (fun _ => True) (Bridge.set_light_color b light_id h br s).
Proof.
  unfold Bridge.set_light_color, Bridge.validate_color_values, Bridge.get_url,
    Bridge.validate_light_id, Bridge.log_error.
  emits_steps.
Qed.

Lemma emits_generate_random_state self config :
  emits P (fun _ => True) (generate_random_state self config).
Proof.
  unfold generate_random_state.
  repeat first
    [ apply emits_bind with (Q1 := fun _ => True); [|intros ? _]
    | apply emits_lift; auto
    | apply emits_randint
    | apply emits_ret; exact I ].
Qed.

Lemma emits_make_tasks self config ids :
  emits P (Forall (emits P (fun _ => True))) (make_tasks self config ids).
Proof.
  induction ids as [|light_id ids IH]; cbn [make_tasks].
  - apply emits_ret. constructor.
  - apply emits_bind with (Q1 := Forall (emits P (fun _ => True))).
    + apply emits_try.
      * apply emits_bind with (Q1 := fun _ => True);
          [apply emits_generate_random_state | intros st _].
        apply emits_bind with (Q1 := fun _ => True); [|intros ? _].
        -- apply emits_emit; [apply others; reflexivity | exact I].
        -- apply emits_ret. constructor; [apply emits_set_light_color | constructor].
      * intros e. apply emits_bind with (Q1 := fun _ => True); [|intros ? _].
        -- apply emits_emit; [apply others; reflexivity | exact I].
        -- apply emits_ret. constructor.
    + intros made Hmade.
      apply emits_bind with (Q1 := Forall (emits P (fun _ => True))); [exact IH|].
      intros more Hmore. apply emits_ret. apply Forall_app; auto.
Qed.

End Emits.

(** *** Runs in which nothing fails *)

Lemma prefix_empty s : String.prefix "" s = true.
Proof. destruct s; reflexivity. Qed.

Lemma light_url_http b light_id :
  String.prefix "http://" (Bridge.light_url b light_id) = true.
Proof. unfold Bridge.light_url. simpl. apply prefix_empty. Qed.

Lemma count_sleeps_snoc t e :
  count_sleeps (t ++ [e]) = (count_sleeps t + (if is_sleep e then 1 else 0))%nat.
Proof. rewrite count_sleeps_app. unfold count_sleeps. simpl. destruct (is_sleep e); reflexivity. Qed.

Section Runs.

Variable o : Oracle.






Lemma runs_weaken {A} k (Q Q' : A -> Prop) m :
  runs o k Q m -> (forall a, Q a -> Q' a) -> runs o k Q' m.
Proof.
  intros Hm HQ w. destruct (Hm w) as (a & w1 & E1 & C1 & R1).
  exists a, w1. auto.
Qed.

Lemma runs_randint_z a b :
  a <= b -> runs o 0 (fun v => a <= v <= b) (randint_z a b).
Proof.
  intros Hle w. unfold randint_z. destruct (Z.leb_spec a b); [|lia].
  eexists _, _. split; [reflexivity|]. simpl. rewrite Nat.add_0_r. split; [reflexivity|].
  pose proof (Z.mod_pos_bound (entropy o (rng_pos w)) (b - a + 1)). lia.
Qed.

Lemma runs_randint a b lo hi :
  int_value a = Some lo -> int_value b = Some hi -> lo <= hi ->
  runs o 0 (fun v => lo <= v <= hi) (randint a b).
Proof.
  intros Ha Hb Hle. unfold randint. rewrite Ha, Hb. apply runs_randint_z. exact Hle.
Qed.



Hypothesis answered : all_replies_ok o.






End Runs.

Lemma between_int lo hi z : lo <= z <= hi -> Bridge.between lo hi (PInt z) = true.
Proof.
  intros [H1 H2]. unfold Bridge.between, py_le.
  apply andb_true_intro. split; apply Z.leb_le; assumption.
Qed.

Lemma truediv_1000_int_value lo z :
  int_value lo = Some z -> truediv_1000 lo = int_truediv_1000 z.
Proof.
  destruct lo as [ | b | [x|f] | | | ]; cbn [int_value truediv_1000];
    try discriminate; intros [= <-]; reflexivity.
Qed.

Lemma truediv_1000_fits lo :
  pace_fits lo -> exists seconds, truediv_1000 lo = Ok seconds.
Proof.
  intros (z & q & Hz & Hq). rewrite (truediv_1000_int_value lo z Hz).
  unfold int_truediv_1000. rewrite Hq. eauto.
Qed.

Section HealthyRun.

Variable o : Oracle.
Hypothesis answered : all_replies_ok o.

Variable self : Animation.
Hypothesis named : Forall (fun light_id => light_id <> "") (lights self).

Variable config : json.
Hypothesis playable : playable_preset config.





End HealthyRun.

Lemma dict_get_key_in k d :
  In k (dict_keys d) -> exists v, dict_get k d = Some v /\ In (k, v) d.
Proof.
  induction d as [|[k' v'] d IH]; simpl; [tauto|].
  intros Hin. destruct (String.eqb_spec k k') as [->|Hne].
  - exists v'. auto.
  - destruct Hin as [->|Hin]; [congruence|].
    destruct (IH Hin) as (v & E & I). exists v. auto.
Qed.



(** *** The upper bound of the pace *)

Lemma dict_get_dict_set k k' v d :
  dict_get k (dict_set k' v d) =
  if String.eqb k k'
  then match dict_get k' d with Some _ => Some v | None => None end
  else dict_get k d.
Proof.
  induction d as [|[k0 v0] d IH]; simpl.
  - destruct (String.eqb k k'); reflexivity.
  - destruct (String.eqb_spec k' k0) as [->|Hne]; simpl.
    + destruct (String.eqb_spec k k0) as [->|Hne']; reflexivity.
    + rewrite IH. destruct (String.eqb_spec k k0) as [->|Hne'].
      * destruct (String.eqb_spec k0 k'); [congruence|reflexivity].
      * reflexivity.
Qed.

Lemma getitem2_with_speed_max v config k1 k2 :
  String.eqb k1 "speed" && String.eqb k2 "max" = false ->
  getitem2 (with_speed_max v config) k1 k2 = getitem2 config k1 k2.
Proof.
  intros Hk. unfold with_speed_max.
  destruct config as [ | | | | |kvs]; try reflexivity.
  destruct (dict_get "speed" kvs) as [[ | | | | |r]|] eqn:Es; try reflexivity.
  unfold getitem2, getitem. rewrite dict_get_dict_set.
  destruct (String.eqb_spec k1 "speed") as [->|Hne]; [|reflexivity].
  rewrite Es. simpl. rewrite dict_get_dict_set.
  simpl in Hk. rewrite Hk. reflexivity.
Qed.

Lemma dict_keys_retune v d : dict_keys (retune v d) = dict_keys d.
Proof.
  unfold dict_keys, retune. rewrite map_map. apply map_ext. reflexivity.
Qed.

Lemma dict_get_retune v name d :
  dict_get name (retune v d) =
  match dict_get name d with
  | Some c => Some (with_speed_max (v name) c)
  | None => None
  end.
Proof.
  induction d as [|[k c] d IH]; simpl; [reflexivity|].
  destruct (String.eqb_spec name k) as [->|Hne]; [reflexivity | exact IH].
Qed.

Section Retuned.

Variables self self' : Animation.
Hypothesis same_bridge : bridge self' = bridge self.
Hypothesis same_lights : lights self' = lights self.

Variable config : json.
Variable v : json.

Lemma generate_random_state_retuned o w :
  generate_random_state self' (with_speed_max v config) o w
  = generate_random_state self config o w.
Proof.
  unfold generate_random_state.
  rewrite !getitem2_with_speed_max by reflexivity. reflexivity.
Qed.

Lemma make_tasks_retuned ids o w :
  make_tasks self' (with_speed_max v config) ids o w
  = make_tasks self config ids o w.
Proof.
  revert w. induction ids as [|light_id ids IH]; intros w; cbn [make_tasks];
    [reflexivity|].
  unfold bind, try_catch. rewrite generate_random_state_retuned, same_bridge.
  destruct (generate_random_state self config o w) as [[st|e] w1];
    unfold debug_request, log_error; simpl; rewrite IH; reflexivity.
Qed.

Lemma tick_retuned o w :
  tick self' (with_speed_max v config) o w = tick self config o w.
Proof.
  unfold tick, bind. rewrite same_lights, make_tasks_retuned.
  rewrite getitem2_with_speed_max by reflexivity. reflexivity.
Qed.

Lemma tick_loop_retuned n o w :
  tick_loop self' (with_speed_max v config) n o w = tick_loop self config n o w.
Proof.
  revert w. induction n as [|n IH]; intros w; cbn [tick_loop]; [reflexivity|].
  unfold bind. rewrite tick_retuned.
  destruct (tick self config o w) as [[[]|e] w1]; [apply IH | reflexivity].
Qed.

End Retuned.

Lemma load_effect_retuned v self o w :
  load_effect (retuned v self) o w = load_effect self o w.
Proof.
  unfold load_effect, bind. cbn [retuned bridge lights animations
    minimum_duration maximum_duration].
  destruct (gather _ o w) as [[rs|e] w1]; [|reflexivity].
  rewrite dict_keys_retune.
  destruct (choice (dict_keys (animations self)) o w1) as [[name|e] w2];
    [|reflexivity].
  unfold lift, lookup_animation. cbn [retuned animations].
  rewrite dict_get_retune.
  destruct (dict_get name (animations self)) as [config|]; [|reflexivity].
  destruct (randint_z _ _ o w2) as [[d|e] w3]; [|reflexivity].
  apply tick_loop_retuned; reflexivity.
Qed.

Lemma launch_retuned v self turns o w :
  launch turns (retuned v self) o w = launch turns self o w.
Proof.
  revert w. induction turns as [|n IH]; intros w; cbn [launch]; [reflexivity|].
  unfold bind, launch_once, try_catch. rewrite load_effect_retuned.
  destruct (load_effect self o w) as [[[]|e] w1].
  - apply IH.
  - unfold log_error. simpl. apply IH.
Qed.

Lemma with_speed_max_sets v config old :
  getitem2 config "speed" "max" = Ok old ->
  getitem2 (with_speed_max v config) "speed" "max" = Ok v.
Proof.
  unfold with_speed_max, getitem2, getitem, bind_res.
  destruct config as [ | | | | |kvs]; try discriminate.
  destruct (dict_get "speed" kvs) as [[ | | | | |r]|] eqn:Es; try discriminate.
  destruct (dict_get "max" r) eqn:Em; [|discriminate]. intros _.
  rewrite dict_get_dict_set, Es. simpl. rewrite dict_get_dict_set, Em. reflexivity.
Qed.

(** *** Requests *)

Lemma between_within lo hi v : Bridge.between lo hi v = true <-> within lo hi v.
Proof.
  unfold Bridge.between, within, py_le.
  destruct v as [z|[q|[|]|]]; simpl.
  - rewrite andb_true_iff, !Z.leb_le. tauto.
  - rewrite andb_true_iff, !Qle_bool_iff. tauto.
  - split; [discriminate|tauto].
  - split; [discriminate|tauto].
  - split; [discriminate|tauto].
Qed.

Lemma count_puts_app t1 t2 :
  count_puts (t1 ++ t2) = (count_puts t1 + count_puts t2)%nat.
Proof. unfold count_puts. rewrite filter_app, length_app. reflexivity. Qed.

(** A request with a good URL and a non-empty dictionary goes out, once. *)
Lemma put_sends self url k v more o w :
  negb (String.prefix "http://" url) && negb (String.prefix "https://" url) = false ->
  exists r w' rest,
    Http.put self url (JObj ((k, v) :: more)) o w = (r, w') /\
    trace w' = trace w ++ EvPut url (JObj ((k, v) :: more)) :: rest /\
    net_pos w' = S (net_pos w) /\ rng_pos w' = rng_pos w /\ count_puts rest = 0%nat.
Proof.
  intros Hp.
  unfold Http.put, Http.validate_url, Http.validate_payload, bind, ret, emit,
    next_reply, Http.log_error, raise.
  rewrite Hp. simpl.
  destruct (replies o (net_pos w)) as [j|d|d]; simpl;
    eexists _, _, _; (split; [reflexivity|]); simpl;
    rewrite <- ?app_assoc; simpl; auto.
Qed.

Lemma set_light_color_sends b light_id h br s o w :
  light_id <> "" ->
  within 0 65535 h -> within 0 254 br -> within 0 254 s ->
  exists r w' rest,
    Bridge.set_light_color b light_id h br s o w = (r, w') /\
    trace w' = trace w ++
      EvPut (Bridge.light_url b light_id) (Bridge.color_body h br s) :: rest /\
    net_pos w' = S (net_pos w) /\ count_puts rest = 0%nat.
Proof.
  intros Hne Hh Hb Hs.
  apply between_within in Hh, Hb, Hs.
  unfold Bridge.set_light_color, Bridge.validate_color_values, bind.
  rewrite Hh, Hb, Hs. cbn [negb ret].
  unfold try_catch, bind, Bridge.get_url, Bridge.validate_light_id.
  destruct light_id as [|c id]; [congruence|]. cbn [ret].
  destruct (put_sends (Bridge.http b) (Bridge.light_url b (String c id))
              "hue" (JNum h) [("bri", JNum br); ("sat", JNum s)] o w)
    as (r & w' & rest & E & T & N & _ & C).
  { rewrite light_url_http. reflexivity. }
  unfold Bridge.color_body, bind, ret. rewrite E.
  destruct r as [j|e].
  - exists (Ok j), w', rest. auto.
  - unfold Bridge.log_error, emit, raise. eexists _, _, _.
    split; [reflexivity|]. cbn [trace net_pos]. rewrite T, <- app_assoc. simpl.
    split; [reflexivity|]. split; [exact N|].
    rewrite count_puts_app, C. reflexivity.
Qed.

Lemma set_light_color_rejects b light_id h br s o w :
  ~ (within 0 65535 h /\ within 0 254 br /\ within 0 254 s) ->
  exists e m,
    Bridge.set_light_color b light_id h br s o w
      = (Err e, mkWorld (rng_pos w) (net_pos w)
                  (trace w ++ [EvLog "bridge_error_log.txt" m])) /\
    ((e = InvalidHue h /\ m = LogInvalidHue h) \/
     (e = InvalidBrightness br /\ m = LogInvalidBrightness br) \/
     (e = InvalidSaturation s /\ m = LogInvalidSaturation s)).
Proof.
  intros Hout. rewrite <- !between_within in Hout.
  unfold Bridge.set_light_color, Bridge.validate_color_values, bind,
    Bridge.log_error, emit, raise.
  destruct (Bridge.between 0 65535 h); simpl.
  - destruct (Bridge.between 0 254 br); simpl.
    + destruct (Bridge.between 0 254 s); simpl.
      * exfalso. apply Hout. auto.
      * eexists _, _. split; [reflexivity|]. auto.
    + eexists _, _. split; [reflexivity|]. auto.
  - eexists _, _. split; [reflexivity|]. auto.
Qed.

Lemma prefix_cons a s1 url :
  String.prefix (String a s1) url = true ->
  exists rest, url = String a rest /\ String.prefix s1 rest = true.
Proof.
  destruct url as [|c rest]; cbn [String.prefix]; [discriminate|].
  destruct (ascii_dec a c) as [->|]; [|discriminate].
  intros H. exists rest. auto.
Qed.

Ltac peel H :=
  apply prefix_cons in H; destruct H as (? & -> & H).

Lemma http_prefix_scheme url :
  String.prefix "http://" url = true -> url_scheme url = "http".
Proof.
  intros H. do 7 peel H. reflexivity.
Qed.

Lemma https_prefix_scheme url :
  String.prefix "https://" url = true -> url_scheme url = "https".
Proof.
  intros H. do 8 peel H. reflexivity.
Qed.

Lemma put_rejects_url self url data o w :
  String.prefix "http://" url = false -> String.prefix "https://" url = false ->
  Http.put self url data o w
  = (Err (InvalidURL url),
     mkWorld (rng_pos w) (net_pos w)
       (trace w ++ [EvLog (Http.log_file self) (LogInvalidURL url)])).
Proof.
  intros H1 H2. unfold Http.put, Http.validate_url, bind. rewrite H1, H2. reflexivity.
Qed.

Lemma put_rejects_payload self url data o w :
  negb (String.prefix "http://" url) && negb (String.prefix "https://" url) = false ->
  Http.is_dict data = false \/ data = JObj [] ->
  Http.put self url data o w
  = (Err InvalidPayload,
     mkWorld (rng_pos w) (net_pos w)
       (trace w ++ [EvLog (Http.log_file self) (LogInvalidPayload data)])).
Proof.
  intros Hp Hd. unfold Http.put, Http.validate_url, Http.validate_payload, bind.
  rewrite Hp. cbn [ret].
  destruct Hd as [Hd| ->]; [rewrite Hd|]; reflexivity.
Qed.

(** *** Failures *)

Lemma count_sleeps_quiet new : Forall quiet new -> count_sleeps new = 0%nat.
Proof.
  unfold count_sleeps. induction 1 as [|e new He _ IH]; simpl; [reflexivity|].
  rewrite He. exact IH.
Qed.

Lemma run_tasks_app {A} (l1 l2 : list (M A)) o w :
  run_tasks (l1 ++ l2) o w =
  let (r1, w1) := run_tasks l1 o w in
  let (r2, w2) := run_tasks l2 o w1 in
  (r1 ++ r2, w2).
Proof.
  revert w. induction l1 as [|t l1 IH]; intros w; simpl.
  - destruct (run_tasks l2 o w); reflexivity.
  - destruct (t o w) as [r w1]. rewrite IH.
    destruct (run_tasks l1 o w1) as [r1 w2].
    destruct (run_tasks l2 o w2) as [r2 w3]. reflexivity.
Qed.

Lemma emits_run_tasks {A} P (tasks : list (M A)) o w :
  Forall (emits P (fun _ => True)) tasks ->
  exists new, trace (snd (run_tasks tasks o w)) = trace w ++ new /\ Forall P new.
Proof.
  intros H. destruct (emits_gather P tasks H o w) as [(new & E & F) _].
  unfold gather in E. destruct (run_tasks tasks o w) as [rs w']. eauto.
Qed.

Lemma turn_on_failure_logged b light_id o w e w' :
  Bridge.turn_on_light b light_id o w = (Err e, w') ->
  exists new,
    trace w' = trace w ++ new ++
                 [EvLog "bridge_error_log.txt" (LogTurnOnFailed light_id e)] /\
    Forall quiet new.
Proof.
  unfold Bridge.turn_on_light, try_catch.
  match goal with |- context [(?m o w)] =>
    assert (Hm : emits quiet (fun _ => True) m)
  end.
  { apply emits_bind with (Q1 := fun _ => True); [|intros ? _].
    - unfold Bridge.get_url, Bridge.validate_light_id, Bridge.log_error.
      destruct light_id.
      + repeat first [ apply emits_bind with (Q1 := fun _ => True); [|intros ? _]
                     | apply emits_emit; [reflexivity | exact I]
                     | apply emits_raise | apply emits_ret; exact I ].
      + repeat first [ apply emits_bind with (Q1 := fun _ => True); [|intros ? _]
                     | apply emits_ret; exact I ].
    - apply emits_put. auto. }
  destruct (Hm o w) as [(new & E & F) _].
  match goal with |- context [(?m o w)] => destruct (m o w) as [[a|e0] w1] end;
    simpl in *; [discriminate|].
  intros [= <- <-]. exists new. simpl. rewrite E, app_assoc. auto.
Qed.

Lemma launch_once_returns self o w :
  exists w', launch_once self o w = (Ok tt, w').
Proof.
  unfold launch_once, try_catch.
  destruct (load_effect self o w) as [[[]|e] w1]; eexists; reflexivity.
Qed.

Lemma launch_returns turns self o w :
  exists w', launch turns self o w = (Ok tt, w').
Proof.
  revert w. induction turns as [|n IH]; intros w; cbn [launch].
  - exists w. reflexivity.
  - unfold bind. destruct (launch_once_returns self o w) as [w1 E]. rewrite E.
    apply IH.
Qed.

Lemma tick_failure_ends_the_loop self config n o w tasks w1 e w2 :
  make_tasks self config (lights self) o w = (Ok tasks, w1) ->
  gather tasks o w1 = (Err e, w2) ->
  tick_loop self config (S n) o w = (Err e, w2).
Proof.
  intros Hm Hg. cbn [tick_loop]. unfold bind, tick, bind. rewrite Hm, Hg. reflexivity.
Qed.

(* ------------------------------------------------------------------ *)
(** ** The claim about a push that fails in a tick *)

(** C1. With lights 1 and 2, three ticks due, and a bridge that fails the
    first push of the first tick: the exception of that push leaves
    [gather] and ends the run. No tick is completed, the two pushes of the
    first tick are the only ones, and the [except] of the loop writes
    nothing: the coroutine is awaited outside of its [try]. *)
Theorem failed_push_aborts_the_run :
  let run := load_effect Sample.show (Sample.failing_at 2) Sample.start in
  minimum_duration Sample.show = 3 /\ maximum_duration Sample.show = 3 /\
  fst run = Err (PutRequestFailed "Cannot connect to host") /\
  count_sleeps (trace (snd run)) = 0%nat /\
  count_puts (trace (snd run)) = 4%nat /\
  In (EvLog "bridge_error_log.txt"
        (LogSetColorFailed "1" (PutRequestFailed "Cannot connect to host")))
     (trace (snd run)) /\
  existsb is_update_failure (trace (snd run)) = false.
Proof.
  cbv zeta.
  split; [reflexivity|]. split; [reflexivity|].
  split; [vm_compute; reflexivity|].
  split; [vm_compute; reflexivity|].
  split; [vm_compute; reflexivity|].
  split; [|vm_compute; reflexivity].
  vm_compute. do 6 right. left. reflexivity.
Qed.

Lemma pulse_playable : playable_preset Sample.pulse.
Proof.
  exists 0, 100, 100, 150, 200, 254, (JInt 50).
  repeat (split; [solve [reflexivity | lia]|]).
  exists 50. eexists. split; [reflexivity | vm_compute; reflexivity].
Qed.

Lemma steady_answers : all_replies_ok Sample.steady.
Proof. intros n. exists Sample.empty_reply. reflexivity. Qed.

(* ------------------------------------------------------------------ *)
(** ** The claims about the gateway and the transport *)

(** C4. A hue outside 0..65535, or a brightness or saturation outside
    0..254, makes [set_light_color] raise the matching error after one line
    in the bridge log and nothing else: no request, whatever the light id.
    With the three values in range and a light id that is not empty, the
    first thing it does is the PUT to the URL of the light, with the body
    [{hue, bri, sat}], and that is its only request. *)
Theorem set_light_color_checks_ranges_first b light_id h br s o w :
  (~ (within 0 65535 h /\ within 0 254 br /\ within 0 254 s) ->
   exists e m,
     Bridge.set_light_color b light_id h br s o w
       = (Err e, mkWorld (rng_pos w) (net_pos w)
                   (trace w ++ [EvLog "bridge_error_log.txt" m])) /\
     ((e = InvalidHue h /\ m = LogInvalidHue h) \/
      (e = InvalidBrightness br /\ m = LogInvalidBrightness br) \/
      (e = InvalidSaturation s /\ m = LogInvalidSaturation s))) /\
  (within 0 65535 h -> within 0 254 br -> within 0 254 s -> light_id <> "" ->
   exists r w' rest,
     Bridge.set_light_color b light_id h br s o w = (r, w') /\
     trace w' = trace w ++
       EvPut (Bridge.light_url b light_id)
         (JObj [("hue", JNum h); ("bri", JNum br); ("sat", JNum s)]) :: rest /\
     net_pos w' = S (net_pos w) /\ count_puts rest = 0%nat).
Proof.
  split.
  - apply set_light_color_rejects.
  - intros Hh Hb Hs Hne. apply set_light_color_sends; assumption.
Qed.

Lemma set_light_color_checks_ranges_first_witness :
  (exists e m,
     Bridge.set_light_color Sample.hub "1" (PInt 70000) (PInt 10) (PInt 10)
       Sample.steady Sample.start
       = (Err e, mkWorld 0 0 [EvLog "bridge_error_log.txt" m]) /\
     ((e = InvalidHue (PInt 70000) /\ m = LogInvalidHue (PInt 70000)) \/
      (e = InvalidBrightness (PInt 10) /\ m = LogInvalidBrightness (PInt 10)) \/
      (e = InvalidSaturation (PInt 10) /\ m = LogInvalidSaturation (PInt 10)))) /\
  (exists r w' rest,
     Bridge.set_light_color Sample.hub "1" (PInt 10) (PInt 20) (PInt 30)
       Sample.steady Sample.start = (r, w') /\
     trace w' =
       EvPut "http://192.168.1.2/api/token/lights/1/state"
         (JObj [("hue", JInt 10); ("bri", JInt 20); ("sat", JInt 30)]) :: rest /\
     net_pos w' = 1%nat /\ count_puts rest = 0%nat).
Proof.
  split.
  - apply (proj1 (set_light_color_checks_ranges_first Sample.hub "1"
                    (PInt 70000) (PInt 10) (PInt 10) Sample.steady Sample.start)).
    simpl. lia.
  - apply (proj2 (set_light_color_checks_ranges_first Sample.hub "1"
                    (PInt 10) (PInt 20) (PInt 30) Sample.steady Sample.start));
      simpl; solve [lia | discriminate].
Defined.

(** C10. The check of the color values looks at the range only: floats in
    range pass it untouched, and for a light id that is not empty the PUT
    goes out with these floats in its body. *)
Theorem fractional_colors_are_sent b light_id qh qb qs o w :
  light_id <> "" ->
  within 0 65535 (PFloat (FFin qh)) ->
  within 0 254 (PFloat (FFin qb)) ->
  within 0 254 (PFloat (FFin qs)) ->
  Bridge.validate_color_values b
    (PFloat (FFin qh)) (PFloat (FFin qb)) (PFloat (FFin qs)) o w = (Ok tt, w) /\
  exists r w' rest,
    Bridge.set_light_color b light_id
      (PFloat (FFin qh)) (PFloat (FFin qb)) (PFloat (FFin qs)) o w = (r, w') /\
    trace w' = trace w ++
      EvPut (Bridge.light_url b light_id)
        (JObj [("hue", JNum (PFloat (FFin qh)));
               ("bri", JNum (PFloat (FFin qb)));
               ("sat", JNum (PFloat (FFin qs)))]) :: rest /\
    net_pos w' = S (net_pos w) /\ count_puts rest = 0%nat.
Proof.
  intros Hne Hh Hb Hs. split.
  - unfold Bridge.validate_color_values.
    rewrite (proj2 (between_within _ _ _) Hh), (proj2 (between_within _ _ _) Hb),
      (proj2 (between_within _ _ _) Hs). reflexivity.
  - apply set_light_color_sends; assumption.
Qed.

Lemma fractional_colors_are_sent_witness :
  Bridge.validate_color_values Sample.hub
    (PFloat (FFin (1 # 2))) (PFloat (FFin (3 # 2))) (PFloat (FFin (5 # 2)))
    Sample.steady Sample.start = (Ok tt, Sample.start) /\
  exists r w' rest,
    Bridge.set_light_color Sample.hub "1"
      (PFloat (FFin (1 # 2))) (PFloat (FFin (3 # 2))) (PFloat (FFin (5 # 2)))
      Sample.steady Sample.start = (r, w') /\
    trace w' =
      EvPut "http://192.168.1.2/api/token/lights/1/state"
        (JObj [("hue", JNum (PFloat (FFin (1 # 2))));
               ("bri", JNum (PFloat (FFin (3 # 2))));
               ("sat", JNum (PFloat (FFin (5 # 2))))]) :: rest /\
    net_pos w' = 1%nat /\ count_puts rest = 0%nat.
Proof.
  apply (fractional_colors_are_sent Sample.hub "1" (1 # 2) (3 # 2) (5 # 2)
           Sample.steady Sample.start).
  - discriminate.
  - split; unfold Qle; simpl; lia.
  - split; unfold Qle; simpl; lia.
  - split; unfold Qle; simpl; lia.
Defined.

(** C8, as the code has it. [put] raises the invalid-URL error when the URL
    starts with neither [http://] nor [https://], so whenever its scheme is
    not http or https; for a good URL it raises the invalid-payload error
    when the body is not a dictionary or is the empty dictionary. In both
    cases it writes one line to the log of the transport and sends nothing.
    Any non-empty dictionary, flat or nested, is sent. *)
Theorem put_validates_url_then_payload self url data o w :
  (url_scheme url <> "http" -> url_scheme url <> "https" ->
   Http.put self url data o w
   = (Err (InvalidURL url),
      mkWorld (rng_pos w) (net_pos w)
        (trace w ++ [EvLog (Http.log_file self) (LogInvalidURL url)]))) /\
  (String.prefix "http://" url = false -> String.prefix "https://" url = false ->
   Http.put self url data o w
   = (Err (InvalidURL url),
      mkWorld (rng_pos w) (net_pos w)
        (trace w ++ [EvLog (Http.log_file self) (LogInvalidURL url)]))) /\
  (String.prefix "http://" url = true \/ String.prefix "https://" url = true ->
   Http.is_dict data = false \/ data = JObj [] ->
   Http.put self url data o w
   = (Err InvalidPayload,
      mkWorld (rng_pos w) (net_pos w)
        (trace w ++ [EvLog (Http.log_file self) (LogInvalidPayload data)]))) /\
  (String.prefix "http://" url = true \/ String.prefix "https://" url = true ->
   forall k v more, data = JObj ((k, v) :: more) ->
   exists r w' rest,
     Http.put self url data o w = (r, w') /\
     trace w' = trace w ++ EvPut url data :: rest /\
     net_pos w' = S (net_pos w) /\ count_puts rest = 0%nat).
Proof.
  assert (Hgood : String.prefix "http://" url = true \/
                  String.prefix "https://" url = true ->
                  negb (String.prefix "http://" url) &&
                  negb (String.prefix "https://" url) = false).
  { intros [H|H]; rewrite H; simpl; [reflexivity | apply andb_false_r]. }
  split; [|split; [|split]].
  - intros H1 H2. apply put_rejects_url.
    + destruct (String.prefix "http://" url) eqn:E; [|reflexivity].
      elim H1. apply http_prefix_scheme. exact E.
    + destruct (String.prefix "https://" url) eqn:E; [|reflexivity].
      elim H2. apply https_prefix_scheme. exact E.
  - apply put_rejects_url.
  - intros Hu Hd. apply put_rejects_payload; auto.
  - intros Hu k v more ->.
    destruct (put_sends self url k v more o w (Hgood Hu))
      as (r & w' & rest & E & T & N & _ & C).
    exists r, w', rest. auto.
Qed.

Lemma put_validates_url_then_payload_witness :
  Http.put Http.default "ftp://hub/api" (JObj [("on", JBool true)])
    Sample.steady Sample.start
  = (Err (InvalidURL "ftp://hub/api"),
     mkWorld 0 0 [EvLog "http_error_log.txt" (LogInvalidURL "ftp://hub/api")]) /\
  Http.put Http.default "http://hub/api" (JObj []) Sample.steady Sample.start
  = (Err InvalidPayload,
     mkWorld 0 0 [EvLog "http_error_log.txt" (LogInvalidPayload (JObj []))]) /\
  exists r w' rest,
    Http.put Http.default "http://hub/api"
      (JObj [("state", JObj [("on", JBool true)])]) Sample.steady Sample.start
    = (r, w') /\
    trace w' = EvPut "http://hub/api"
                 (JObj [("state", JObj [("on", JBool true)])]) :: rest /\
    net_pos w' = 1%nat /\ count_puts rest = 0%nat.
Proof.
  split; [|split].
  - apply (proj1 (put_validates_url_then_payload Http.default "ftp://hub/api"
                    (JObj [("on", JBool true)]) Sample.steady Sample.start));
      discriminate.
  - apply (proj1 (proj2 (proj2 (put_validates_url_then_payload Http.default
                    "http://hub/api" (JObj []) Sample.steady Sample.start))));
      [left | right]; reflexivity.
  - apply (proj2 (proj2 (proj2 (put_validates_url_then_payload Http.default
                    "http://hub/api" (JObj [("state", JObj [("on", JBool true)])])
                    Sample.steady Sample.start)))
             (or_introl eq_refl) "state" (JObj [("on", JBool true)]) []).
    reflexivity.
Defined.

(** C8, as the specification has it, fails: a dictionary with a dictionary
    inside is not flat, and [put] sends it. *)
Lemma put_sends_nested_mapping :
  ~ (forall self url data o w,
       is_flat_mapping data = false ->
       exists e w', Http.put self url data o w = (Err e, w')).
Proof.
  intros H.
  destruct (H Http.default "http://hub/api"
              (JObj [("state", JObj [("on", JBool true)])])
              Sample.steady Sample.start eq_refl) as (e & w' & E).
  vm_compute in E. discriminate.
Qed.

(* ------------------------------------------------------------------ *)
(** ** The claim about a file with no preset *)

(** C9, as the code has it. What a successful load returns is the parsed
    mapping, whole and as it is; a file with no preset loads, as the empty
    mapping. With no preset a run raises, at the turn-on step or at the
    choice of the preset, before any tick. *)
Theorem load_returns_the_parsed_mapping :
  (forall animation_file file items,
     load_and_validate_animations animation_file file = Ok items ->
     file = Parsed (JObj items)) /\
  (forall animation_file,
     load_and_validate_animations animation_file (Parsed (JObj [])) = Ok []) /\
  (forall self o w,
     animations self = [] ->
     exists e w',
       load_effect self o w = (Err e, w') /\
       count_sleeps (trace w') = count_sleeps (trace w)).
Proof.
  split; [|split].
  - apply load_returns_parsed.
  - reflexivity.
  - intros self o w Hempty. unfold load_effect, bind.
    assert (Hq : Forall (emits quiet (fun _ => True))
                   (map (Bridge.turn_on_light (bridge self)) (lights self))).
    { apply Forall_map, Forall_forall. intros id _. apply emits_turn_on. auto. }
    destruct (emits_gather quiet _ Hq o w) as [(n1 & E1 & F1) _].
    assert (C : forall w1, trace w1 = trace w ++ n1 ->
                count_sleeps (trace w1) = count_sleeps (trace w)).
    { intros w1 ->. rewrite count_sleeps_app, (count_sleeps_quiet n1 F1). lia. }
    destruct (gather _ o w) as [[rs|e] w1]; simpl in E1.
    + rewrite Hempty. simpl. exists IndexError, w1. auto.
    + exists e, w1. auto.
Qed.

Lemma load_returns_the_parsed_mapping_witness :
  Parsed (JObj [("pulse", Sample.pulse)]) = Parsed (JObj [("pulse", Sample.pulse)]) /\
  exists e w',
    load_effect (mkAnimation Sample.hub ["1"; "2"] 3 3 [])
      Sample.steady Sample.start = (Err e, w') /\
    count_sleeps (trace w') = 0%nat.
Proof.
  split.
  - apply (proj1 load_returns_the_parsed_mapping "animation.json").
    reflexivity.
  - apply (proj2 (proj2 load_returns_the_parsed_mapping)
             (mkAnimation Sample.hub ["1"; "2"] 3 3 [])
             Sample.steady Sample.start).
    reflexivity.
Defined.

(** C9, as the specification has it, fails: the load of a file with no
    preset succeeds, and what it returns is empty. *)
Lemma empty_preset_file_loads :
  ~ (forall animation_file file items,
       load_and_validate_animations animation_file file = Ok items ->
       items <> []).
Proof.
  intros H. apply (H "animation.json" (Parsed (JObj [])) [] eq_refl). reflexivity.
Qed.

(* ------------------------------------------------------------------ *)
(** ** More about the loader *)

Lemma pulse_well_formed : well_formed_preset Sample.pulse.
Proof.
  repeat constructor.
  - exists 50, 50. split; [reflexivity | lia].
  - exists 0, 100. split; [reflexivity | lia].
  - exists 100, 150. split; [reflexivity | lia].
  - exists 200, 254. split; [reflexivity | lia].
Qed.

Lemma pulse_entry : Forall well_formed_entry [("pulse", Sample.pulse)].
Proof. constructor; [exact pulse_well_formed | constructor]. Qed.

(** X1. The loader returns the parsed mapping, whole, exactly when every
    preset has the four ranges, each with two Python ints in order; in every
    other case it raises. *)
Theorem loader_accepts_exactly_well_formed animation_file items :
  (load_and_validate_animations animation_file (Parsed (JObj items)) = Ok items
   <-> Forall well_formed_entry items) /\
  (forall loaded,
     load_and_validate_animations animation_file (Parsed (JObj items)) = Ok loaded ->
     loaded = items) /\
  (~ Forall well_formed_entry items ->
   exists e,
     load_and_validate_animations animation_file (Parsed (JObj items)) = Err e).
Proof.
  cbn [load_and_validate_animations]. unfold bind_res, well_formed_entry.
  destruct (check_items items) as [[]|e] eqn:E.
  - apply check_items_ok_iff in E. repeat split; auto.
    + intros loaded [= <-]. reflexivity.
    + intros H. contradiction.
  - assert (N : ~ Forall (fun entry => well_formed_preset (snd entry)) items).
    { intros H. apply check_items_ok_iff in H. congruence. }
    repeat split; try discriminate; try contradiction.
    intros _. exists e. reflexivity.
Qed.

Lemma loader_accepts_exactly_well_formed_witness :
  load_and_validate_animations "animation.json"
    (Parsed (JObj [("pulse", Sample.pulse)])) = Ok [("pulse", Sample.pulse)] /\
  exists e,
    load_and_validate_animations "animation.json"
      (Parsed (JObj [("pulse", Sample.pulse); ("bare", JObj [])])) = Err e.
Proof.
  split.
  - apply (proj1 (loader_accepts_exactly_well_formed "animation.json"
                    [("pulse", Sample.pulse)])).
    exact pulse_entry.
  - apply (proj2 (proj2 (loader_accepts_exactly_well_formed "animation.json"
                           [("pulse", Sample.pulse); ("bare", JObj [])]))).
    intros H. inversion H as [|? ? _ H1]; subst. inversion H1 as [|? ? H2 _]; subst.
    inversion H2 as [|? ? (lo & hi & R & _) _]; subst. discriminate.
Defined.

Lemma check_keys_first_failure name props before key after e :
  Forall (well_formed_range props) before ->
  check_key name props key = Err e ->
  check_keys name props (before ++ key :: after) = Err e.
Proof.
  induction 1 as [|k before Hk _ IH]; intros He; simpl; unfold bind_res.
  - rewrite He. reflexivity.
  - apply check_key_ok_iff with (name := name) in Hk. rewrite Hk. apply IH, He.
Qed.

Lemma check_items_first_failure good name props rest e :
  Forall well_formed_entry good ->
  check_keys name props required_keys = Err e ->
  check_items (good ++ (name, props) :: rest) = Err e.
Proof.
  induction 1 as [|[n p] good Hp _ IH]; intros He; cbn [app check_items];
    unfold bind_res.
  - rewrite He. reflexivity.
  - unfold well_formed_entry, well_formed_preset in Hp. simpl in Hp.
    apply check_keys_ok_iff with (name := n) in Hp. rewrite Hp. apply IH, He.
Qed.

Lemma load_first_failure animation_file good name props rest before key after e :
  Forall well_formed_entry good ->
  required_keys = before ++ key :: after ->
  Forall (well_formed_range props) before ->
  check_key name props key = Err e ->
  load_and_validate_animations animation_file
    (Parsed (JObj (good ++ (name, props) :: rest))) = Err e.
Proof.
  intros Hg Hk Hb He. cbn [load_and_validate_animations]. unfold bind_res.
  rewrite (check_items_first_failure good name props rest e Hg); [reflexivity|].
  rewrite Hk. apply check_keys_first_failure; assumption.
Qed.

(** X2. The error of the loader is about the first preset of the file that
    is not well formed and, in it, about the first of speed, hue, bri, sat
    that is not; what comes after is not looked at. For that range the
    message is, in this order: the key is missing; a bound is missing; a
    bound is not an int; min is above max. *)
Theorem loader_names_the_first_defect
    animation_file good name kvs rest before key after :
  Forall well_formed_entry good ->
  required_keys = before ++ key :: after ->
  Forall (well_formed_range (JObj kvs)) before ->
  (dict_get key kvs = None ->
   load_and_validate_animations animation_file
     (Parsed (JObj (good ++ (name, JObj kvs) :: rest)))
   = Err (MissingKey key name)) /\
  (forall r,
     dict_get key kvs = Some (JObj r) ->
     dict_get "min" r = None \/ dict_get "max" r = None ->
     load_and_validate_animations animation_file
       (Parsed (JObj (good ++ (name, JObj kvs) :: rest)))
     = Err (MissingMinMax key name)) /\
  (forall r a b,
     dict_get key kvs = Some (JObj r) ->
     dict_get "min" r = Some a -> dict_get "max" r = Some b ->
     isinstance_int a = false \/ isinstance_int b = false ->
     load_and_validate_animations animation_file
       (Parsed (JObj (good ++ (name, JObj kvs) :: rest)))
     = Err (NotIntegers key name)) /\
  (forall r a b x y,
     dict_get key kvs = Some (JObj r) ->
     dict_get "min" r = Some a -> dict_get "max" r = Some b ->
     int_value a = Some x -> int_value b = Some y -> y < x ->
     load_and_validate_animations animation_file
       (Parsed (JObj (good ++ (name, JObj kvs) :: rest)))
     = Err (MinGreaterThanMax key name)).
Proof.
  intros Hg Hk Hb.
  assert (L : forall e, check_key name (JObj kvs) key = Err e ->
              load_and_validate_animations animation_file
                (Parsed (JObj (good ++ (name, JObj kvs) :: rest))) = Err e).
  { intros e. apply load_first_failure with (before := before) (after := after);
      assumption. }
  repeat split.
  - intros H. apply L.
    unfold check_key, bind_res, py_in, dict_has. rewrite H. reflexivity.
  - intros r H Hm. apply L.
    unfold check_key, all_min_max, bind_res, py_in, getitem, dict_has.
    rewrite H. simpl. unfold dict_has.
    destruct Hm as [Hm|Hm]; rewrite Hm; [reflexivity|].
    destruct (dict_get "min" r); reflexivity.
  - intros r a b H Ha Hb' Hi. apply L.
    unfold check_key, all_min_max, getitem2, bind_res, py_in, getitem, dict_has.
    rewrite H. simpl. unfold dict_has. rewrite Ha, Hb'. simpl.
    destruct Hi as [Hi|Hi]; rewrite Hi; simpl; [reflexivity|].
    destruct (isinstance_int a); reflexivity.
  - intros r a b x y H Ha Hb' Ia Ib Hlt. apply L.
    unfold check_key, all_min_max, getitem2, bind_res, py_in, getitem, dict_has.
    rewrite H. simpl. unfold dict_has. rewrite Ha, Hb'. simpl.
    rewrite (int_value_isinstance a x Ia), (int_value_isinstance b y Ib). simpl.
    rewrite Ia, Ib. destruct (Z.ltb_spec y x); [reflexivity | lia].
Qed.

Lemma loader_names_the_first_defect_witness :
  load_and_validate_animations "animation.json"
    (Parsed (JObj [("pulse", Sample.pulse);
                   ("slow", JObj [("speed", Sample.range 50 50);
                                  ("hue", Sample.range 300 100)]);
                   ("bare", JObj [])]))
  = Err (MinGreaterThanMax "hue" "slow").
Proof.
  apply (proj2 (proj2 (proj2
           (loader_names_the_first_defect "animation.json"
              [("pulse", Sample.pulse)] "slow"
              [("speed", Sample.range 50 50); ("hue", Sample.range 300 100)]
              [("bare", JObj [])] ["speed"] "hue" ["bri"; "sat"]
              pulse_entry
              eq_refl
              ltac:(constructor; [|constructor]; exists 50, 50; split;
                    [reflexivity | lia]))))
           [("min", JInt 300); ("max", JInt 100)] (JInt 300) (JInt 100) 300 100);
    solve [reflexivity | lia].
Defined.

(** X3. A preset that is not a JSON object never loads, and the error is
    not one of the loader's own three other messages: [null], a boolean or
    a number is a [TypeError] at [key not in properties]; a list or a string
    is "Missing key 'speed'" unless it holds [speed], and a [TypeError] at
    the subscript if it does. A file whose top level is not an object is an
    [AttributeError] at [data.items()]. *)
Theorem preset_must_be_an_object animation_file good name props rest :
  Forall well_formed_entry good ->
  is_object props = false ->
  load_and_validate_animations animation_file
    (Parsed (JObj (good ++ (name, props) :: rest)))
  = Err (match py_in "speed" props with
         | Ok false => MissingKey "speed" name
         | _ => TypeError
         end) /\
  (forall x, props = JNull \/ props = JBool x ->
     py_in "speed" props = Err TypeError) /\
  (forall n, props = JNum n -> py_in "speed" props = Err TypeError) /\
  load_and_validate_animations animation_file (Parsed props) = Err AttributeError.
Proof.
  intros Hg Hp. split; [|split; [|split]].
  - apply load_first_failure with (before := []) (key := "speed")
                                  (after := ["hue"; "bri"; "sat"]);
      [assumption | reflexivity | constructor |].
    unfold check_key, all_min_max, bind_res.
    destruct props as [ |b|n|s|xs|kvs]; try discriminate; try reflexivity.
    + simpl. destruct (is_substring "speed" s); reflexivity.
    + simpl. destruct (existsb _ xs); reflexivity.
  - intros x [->| ->]; reflexivity.
  - intros n ->. reflexivity.
  - destruct props; try discriminate; reflexivity.
Qed.

Lemma preset_must_be_an_object_witness :
  load_and_validate_animations "animation.json"
    (Parsed (JObj [("pulse", Sample.pulse); ("off", JNull)])) = Err TypeError /\
  load_and_validate_animations "animation.json"
    (Parsed (JObj [("list", JArr [JStr "hue"])]))
  = Err (MissingKey "speed" "list") /\
  load_and_validate_animations "animation.json" (Parsed (JArr [])) = Err AttributeError.
Proof.
  split; [|split].
  - apply (proj1 (preset_must_be_an_object "animation.json"
                    [("pulse", Sample.pulse)] "off" JNull [] pulse_entry eq_refl)).
  - apply (proj1 (preset_must_be_an_object "animation.json"
                    [] "list" (JArr [JStr "hue"]) [] (Forall_nil _) eq_refl)).
  - apply (proj2 (proj2 (proj2
             (preset_must_be_an_object "animation.json"
                [] "none" (JArr []) [] (Forall_nil _) eq_refl)))).
Defined.

(* ------------------------------------------------------------------ *)
(** ** The list of lights *)

Lemma split_on_not_empty sep s : split_on sep s <> [].
Proof.
  destruct s as [|c rest]; simpl; [discriminate|].
  destruct (Ascii.eqb c sep); [discriminate|].
  destruct (split_on sep rest); discriminate.
Qed.

Lemma join_push sep c first others :
  join sep (String c first :: others) = String c (join sep (first :: others)).
Proof. destruct others; reflexivity. Qed.

(** X4. [s.split(sep)] loses nothing: joining the pieces with the separator
    gives [s] back; there is one piece more than there are separators in
    [s], so never none; and no piece holds the separator. *)
Theorem split_on_round_trip sep s :
  join sep (split_on sep s) = s /\
  List.length (split_on sep s) = S (count_char sep s) /\
  Forall (fun piece => count_char sep piece = 0%nat) (split_on sep s).
Proof.
  induction s as [|c rest (IHj & IHl & IHf)]; cbn [split_on count_char].
  - repeat split. repeat constructor.
  - destruct (Ascii.eqb c sep) eqn:E.
    + apply Ascii.eqb_eq in E. subst c.
      pose proof (split_on_not_empty sep rest) as Hne.
      destruct (split_on sep rest) as [|p ps] eqn:Es; [congruence|].
      repeat split.
      * change (join sep ("" :: p :: ps))
          with ("" ++ String sep (join sep (p :: ps)))%string.
        rewrite IHj. reflexivity.
      * simpl in *. lia.
      * constructor; [reflexivity | exact IHf].
    + pose proof (split_on_not_empty sep rest) as Hne.
      destruct (split_on sep rest) as [|p ps] eqn:Es; [congruence|].
      repeat split.
      * rewrite join_push, IHj. reflexivity.
      * simpl in *. lia.
      * inversion IHf as [|? ? Hp Hps]; subst.
        constructor; [|exact Hps]. simpl. rewrite E. exact Hp.
Qed.

(* ------------------------------------------------------------------ *)
(** ** More about the transport and the gateway *)

Lemma count_logs_app t1 t2 :
  count_logs (t1 ++ t2) = (count_logs t1 + count_logs t2)%nat.
Proof. unfold count_logs. rewrite filter_app, length_app. reflexivity. Qed.

(** X5. Whatever the URL, the body and the bridge: [put] makes at most one
    request, and none when it rejects its arguments: a URL that starts
    with neither [http://] nor [https://], or a body that is not a
    dictionary or is the empty one, is an error without a request. With good
    arguments the request is the first thing [put] does. It writes exactly
    one line to its log when it raises and none when it returns; what it
    returns is the response of the bridge, as it is. *)
Theorem put_logs_what_it_raises self url data o w :
  exists new,
    trace (snd (Http.put self url data o w)) = trace w ++ new /\
    (count_puts new <= 1)%nat /\
    net_pos (snd (Http.put self url data o w)) = (net_pos w + count_puts new)%nat /\
    count_logs new
    = match fst (Http.put self url data o w) with Ok _ => 0%nat | Err _ => 1%nat end /\
    Forall (fun e => forall file m, e = EvLog file m -> file = Http.log_file self) new /\
    (forall response,
       fst (Http.put self url data o w) = Ok response ->
       replies o (net_pos w) = NetOk response /\ new = [EvPut url data]) /\
    (sendable url data = true ->
     exists rest, new = EvPut url data :: rest /\ count_puts rest = 0%nat) /\
    (sendable url data = false ->
     count_puts new = 0%nat /\
     net_pos (snd (Http.put self url data o w)) = net_pos w /\
     (fst (Http.put self url data o w) = Err (InvalidURL url) \/
      fst (Http.put self url data o w) = Err InvalidPayload)).
Proof.
  unfold Http.put, Http.validate_url, Http.validate_payload, bind, ret, emit,
    next_reply, Http.log_error, raise, sendable.
  assert (F : forall l,
            Forall (fun e => is_log e = true ->
                             exists m, e = EvLog (Http.log_file self) m) l ->
            Forall (fun e => forall file m,
                      e = EvLog file m -> file = Http.log_file self) l).
  { intros l. apply Forall_impl. intros e He file m ->.
    destruct (He eq_refl) as [m' [= -> _]]. reflexivity. }
  assert (G : forall b1 b2, negb b1 && negb b2 = negb (b1 || b2)).
  { intros [|] [|]; reflexivity. }
  rewrite G.
  destruct (String.prefix "http://" url || String.prefix "https://" url);
    cbn [negb andb].
  2: { eexists. split; [reflexivity|]. unfold count_puts, count_logs. simpl.
       split; [lia|]. split; [lia|]. split; [reflexivity|].
       split; [apply F; repeat constructor; eauto|].
       split; [discriminate|]. split; [discriminate|]. auto. }
  assert (R : forall m : logmsg,
            exists new,
              trace w ++ [EvLog (Http.log_file self) m] = trace w ++ new /\
              (count_puts new <= 1)%nat /\
              net_pos w = (net_pos w + count_puts new)%nat /\
              count_logs new = 1%nat /\
              Forall (fun e => forall file m0,
                        e = EvLog file m0 -> file = Http.log_file self) new /\
              count_puts new = 0%nat).
  { intros m. eexists. split; [reflexivity|]. unfold count_puts, count_logs. simpl.
    split; [lia|]. split; [lia|]. split; [reflexivity|].
    split; [apply F; repeat constructor; eauto | reflexivity]. }
  destruct data as [ |b|n|s|xs|[|kv kvs]]; simpl.
  1-6: match goal with
       | |- context [LogInvalidPayload ?d] =>
           destruct (R (LogInvalidPayload d)) as (new' & E' & C1 & C2 & C3 & C4 & C5)
       end;
       exists new'; split; [exact E'|]; split; [exact C1|]; split; [exact C2|];
       split; [exact C3|]; split; [exact C4|]; split; [discriminate|];
       split; [discriminate|]; auto.
  destruct (replies o (net_pos w)) as [j|d|d]; simpl.
  - exists [EvPut url (JObj (kv :: kvs))]. unfold count_puts, count_logs. simpl.
    split; [reflexivity|]. split; [lia|]. split; [lia|]. split; [reflexivity|].
    split; [apply F; repeat constructor; discriminate|].
    split; [intros ? [= <-]; auto|].
    split; [|discriminate]. intros _. exists []. auto.
  - exists [EvPut url (JObj (kv :: kvs));
            EvLog (Http.log_file self) (LogPutFailed url d)].
    rewrite <- app_assoc. unfold count_puts, count_logs. simpl.
    split; [reflexivity|]. split; [lia|]. split; [lia|]. split; [reflexivity|].
    split; [apply F; repeat constructor; [discriminate | eauto]|].
    split; [discriminate|].
    split; [|discriminate]. intros _. eexists. split; reflexivity.
  - exists [EvPut url (JObj (kv :: kvs));
            EvLog (Http.log_file self) (LogPutInvalidJSON url d)].
    rewrite <- app_assoc. unfold count_puts, count_logs. simpl.
    split; [reflexivity|]. split; [lia|]. split; [lia|]. split; [reflexivity|].
    split; [apply F; repeat constructor; [discriminate | eauto]|].
    split; [discriminate|].
    split; [|discriminate]. intros _. eexists. split; reflexivity.
Qed.

Lemma put_logs_what_it_raises_witness :
  count_puts
    (trace (snd (Http.put Http.default "ftp://hub/api" (JObj [("on", JBool true)])
                   Sample.steady Sample.start))) = 0%nat /\
  net_pos (snd (Http.put Http.default "http://hub/api" (JArr [])
                  Sample.steady Sample.start)) = 0%nat /\
  exists rest,
    trace (snd (Http.put Http.default "https://hub/api" (JObj [("on", JBool true)])
                  (Sample.failing_at 0) Sample.start))
    = EvPut "https://hub/api" (JObj [("on", JBool true)]) :: rest /\
    count_puts rest = 0%nat.
Proof.
  split; [|split].
  - destruct (put_logs_what_it_raises Http.default "ftp://hub/api"
                (JObj [("on", JBool true)]) Sample.steady Sample.start)
      as (new & E & _ & _ & _ & _ & _ & _ & H).
    rewrite E. destruct (H eq_refl) as (C & _). exact C.
  - destruct (put_logs_what_it_raises Http.default "http://hub/api"
                (JArr []) Sample.steady Sample.start)
      as (new & _ & _ & _ & _ & _ & _ & _ & H).
    destruct (H eq_refl) as (_ & N & _). exact N.
  - destruct (put_logs_what_it_raises Http.default "https://hub/api"
                (JObj [("on", JBool true)]) (Sample.failing_at 0) Sample.start)
      as (new & E & _ & _ & _ & _ & _ & H & _).
    rewrite E. exact (H eq_refl).
Defined.

Lemma put_exchange b url k v more line o w :
  String.prefix "http://" url = true ->
  try_catch (Http.put (Bridge.http b) url (JObj ((k, v) :: more)))
    (fun e => Bridge.log_error b (line e) ;;; raise e) o w
  = exchange b url (JObj ((k, v) :: more)) line o w.
Proof.
  intros Hp.
  unfold try_catch, Http.put, Http.validate_url, Http.validate_payload, bind, ret,
    emit, next_reply, Http.log_error, Bridge.log_error, raise, exchange.
  rewrite Hp. simpl.
  destruct (replies o (net_pos w)) as [j|d|d]; simpl;
    rewrite <- ?app_assoc; reflexivity.
Qed.

Lemma switch_exchange b c id flag line o w :
  try_catch
    (url <- Bridge.get_url b (String c id) ;;
     Http.put (Bridge.http b) url (JObj [("on", JBool flag)]))
    (fun e => Bridge.log_error b (line e) ;;; raise e) o w
  = exchange b (Bridge.light_url b (String c id)) (JObj [("on", JBool flag)])
      line o w.
Proof.
  rewrite <- (put_exchange b _ "on" (JBool flag) [] line o w (light_url_http b _)).
  reflexivity.
Qed.

(** X6. For a light id that is not empty, turning a light on or off is one
    PUT of [{on: true}] or [{on: false}] to the state URL of the light. When
    the bridge answers, its response is returned and nothing is logged; when
    the request fails, the transport writes its line, the gateway writes
    "Failed to turn on (off) light" with the same exception, and that
    exception is raised. There is no second request. *)
Theorem switching_a_light b light_id o w :
  light_id <> "" ->
  Bridge.turn_on_light b light_id o w
  = exchange b (Bridge.light_url b light_id) (JObj [("on", JBool true)])
      (LogTurnOnFailed light_id) o w /\
  Bridge.turn_off_light b light_id o w
  = exchange b (Bridge.light_url b light_id) (JObj [("on", JBool false)])
      (LogTurnOffFailed light_id) o w.
Proof.
  intros Hne. destruct light_id as [|c id]; [congruence|].
  split; apply switch_exchange.
Qed.

Lemma switching_a_light_witness :
  Bridge.turn_off_light Sample.hub "2" Sample.steady Sample.start
  = (Ok Sample.empty_reply,
     mkWorld 0 1 [EvPut "http://192.168.1.2/api/token/lights/2/state"
                    (JObj [("on", JBool false)])]) /\
  Bridge.turn_on_light Sample.hub "2" (Sample.failing_at 0) Sample.start
  = (Err (PutRequestFailed "Cannot connect to host"),
     mkWorld 0 1
       [EvPut "http://192.168.1.2/api/token/lights/2/state"
          (JObj [("on", JBool true)]);
        EvLog "http_error_log.txt"
          (LogPutFailed "http://192.168.1.2/api/token/lights/2/state"
             "Cannot connect to host");
        EvLog "bridge_error_log.txt"
          (LogTurnOnFailed "2" (PutRequestFailed "Cannot connect to host"))]).
Proof.
  split.
  - apply (proj2 (switching_a_light Sample.hub "2" Sample.steady Sample.start
                    ltac:(discriminate))).
  - apply (proj1 (switching_a_light Sample.hub "2" (Sample.failing_at 0)
                    Sample.start ltac:(discriminate))).
Defined.

(** X7. With the three values in range and a light id that is not empty,
    [set_light_color] is one PUT of [{hue, bri, sat}] to the state URL of the
    light: the response of the bridge is returned and nothing is logged, or
    the transport writes its line, the gateway writes "Failed to set light
    color" with the same exception, and that exception is raised. *)
Theorem setting_a_color b light_id h br s o w :
  light_id <> "" ->
  within 0 65535 h -> within 0 254 br -> within 0 254 s ->
  Bridge.set_light_color b light_id h br s o w
  = exchange b (Bridge.light_url b light_id)
      (JObj [("hue", JNum h); ("bri", JNum br); ("sat", JNum s)])
      (LogSetColorFailed light_id) o w.
Proof.
  intros Hne Hh Hb Hs. apply between_within in Hh, Hb, Hs.
  destruct light_id as [|c id]; [congruence|].
  rewrite <- (put_exchange b _ "hue" (JNum h) [("bri", JNum br); ("sat", JNum s)]
                (LogSetColorFailed (String c id)) o w (light_url_http b _)).
  unfold Bridge.set_light_color, Bridge.validate_color_values, bind.
  rewrite Hh, Hb, Hs. reflexivity.
Qed.

Lemma setting_a_color_witness :
  Bridge.set_light_color Sample.hub "1" (PInt 10) (PInt 20) (PInt 30)
    (Sample.failing_at 0) Sample.start
  = (Err (PutRequestFailed "Cannot connect to host"),
     mkWorld 0 1
       [EvPut "http://192.168.1.2/api/token/lights/1/state"
          (JObj [("hue", JInt 10); ("bri", JInt 20); ("sat", JInt 30)]);
        EvLog "http_error_log.txt"
          (LogPutFailed "http://192.168.1.2/api/token/lights/1/state"
             "Cannot connect to host");
        EvLog "bridge_error_log.txt"
          (LogSetColorFailed "1" (PutRequestFailed "Cannot connect to host"))]).
Proof.
  apply (setting_a_color Sample.hub "1" (PInt 10) (PInt 20) (PInt 30)
           (Sample.failing_at 0) Sample.start);
    simpl; solve [lia | discriminate].
Defined.

(** X8. The color check stops at the first value out of range, in the order
    hue, brightness, saturation, and complains about that one only, with one
    line in the bridge log; with the three in range it does nothing at all. A
    NaN or an infinite float is out of every range. *)
Theorem color_check_stops_at_the_first b h br s o w :
  let complaint (e : exn) (m : logmsg) :=
    (@Err unit e,
     mkWorld (rng_pos w) (net_pos w) (trace w ++ [EvLog "bridge_error_log.txt" m]))
  in
  (~ within 0 65535 h ->
   Bridge.validate_color_values b h br s o w
   = complaint (InvalidHue h) (LogInvalidHue h)) /\
  (within 0 65535 h -> ~ within 0 254 br ->
   Bridge.validate_color_values b h br s o w
   = complaint (InvalidBrightness br) (LogInvalidBrightness br)) /\
  (within 0 65535 h -> within 0 254 br -> ~ within 0 254 s ->
   Bridge.validate_color_values b h br s o w
   = complaint (InvalidSaturation s) (LogInvalidSaturation s)) /\
  (within 0 65535 h -> within 0 254 br -> within 0 254 s ->
   Bridge.validate_color_values b h br s o w = (Ok tt, w)) /\
  (forall lo hi negative,
     Bridge.between lo hi (PFloat FNan) = false /\
     Bridge.between lo hi (PFloat (FInf negative)) = false).
Proof.
  cbv zeta. unfold Bridge.validate_color_values.
  rewrite <- !between_within.
  repeat split.
  - intros H. destruct (Bridge.between 0 65535 h); [congruence | reflexivity].
  - intros -> H. destruct (Bridge.between 0 254 br); [congruence | reflexivity].
  - intros -> -> H. destruct (Bridge.between 0 254 s); [congruence | reflexivity].
  - intros -> -> ->. reflexivity.
  - destruct negative; reflexivity.
Qed.

Lemma color_check_stops_at_the_first_witness :
  Bridge.validate_color_values Sample.hub (PInt 10) (PInt 255) (PInt 300)
    Sample.steady Sample.start
  = (Err (InvalidBrightness (PInt 255)),
     mkWorld 0 0 [EvLog "bridge_error_log.txt" (LogInvalidBrightness (PInt 255))]) /\
  Bridge.validate_color_values Sample.hub (PFloat FNan) (PInt 255) (PInt 300)
    Sample.steady Sample.start
  = (Err (InvalidHue (PFloat FNan)),
     mkWorld 0 0 [EvLog "bridge_error_log.txt" (LogInvalidHue (PFloat FNan))]) /\
  Bridge.validate_color_values Sample.hub (PInt 0) (PInt 254) (PInt 0)
    Sample.steady Sample.start = (Ok tt, Sample.start).
Proof.
  split; [|split].
  - apply (proj1 (proj2 (color_check_stops_at_the_first Sample.hub
                           (PInt 10) (PInt 255) (PInt 300)
                           Sample.steady Sample.start))); simpl; lia.
  - apply (proj1 (color_check_stops_at_the_first Sample.hub
                    (PFloat FNan) (PInt 255) (PInt 300)
                    Sample.steady Sample.start)). simpl. tauto.
  - apply (proj1 (proj2 (proj2 (proj2
             (color_check_stops_at_the_first Sample.hub
                (PInt 0) (PInt 254) (PInt 0) Sample.steady Sample.start)))));
      simpl; lia.
Defined.

(* ------------------------------------------------------------------ *)
(** ** More about a run *)

Lemma emits_mono {A} (P P' : event -> Prop) (Q : A -> Prop) m :
  (forall e, P e -> P' e) -> emits P Q m -> emits P' Q m.
Proof.
  intros HP Hm o w. destruct (Hm o w) as [(new & E & F) R]. split; [|exact R].
  exists new. split; [exact E|]. eapply Forall_impl; [|exact F]. exact HP.
Qed.

Lemma emits_try_ok {A} P (Q : A -> Prop) m h :
  emits P Q m -> (forall o w, exists a w', m o w = (Ok a, w')) ->
  emits P Q (try_catch m h).
Proof.
  intros Hm Hok o w. unfold try_catch. specialize (Hm o w).
  destruct (Hok o w) as (a & w' & E). rewrite E in *. exact Hm.
Qed.

Section Gateway.

Variable P : event -> Prop.
Hypothesis gateway : forall e, from_gateway e = true -> P e.

Ltac gateway_steps :=
  repeat first
    [ apply emits_bind with (Q1 := fun _ => True); [|intros ? _]
    | apply emits_try; [|intros ?]
    | match goal with |- emits _ _ (if ?c then _ else _) => destruct c end
    | match goal with |- emits _ _ (match ?c with _ => _ end) => destruct c end
    | apply emits_emit; [apply gateway; reflexivity | exact I]
    | apply emits_raise
    | apply emits_ret; exact I
    | apply emits_next_reply ].

Lemma gateway_put self url data : emits P (fun _ => True) (Http.put self url data).
Proof.
  unfold Http.put, Http.validate_url, Http.validate_payload, Http.log_error.
  gateway_steps.
Qed.

Ltac gateway_calls :=
  repeat first
    [ apply gateway_put
    | apply emits_bind with (Q1 := fun _ => True); [|intros ? _]
    | apply emits_try; [|intros ?]
    | match goal with |- emits _ _ (if ?c then _ else _) => destruct c end
    | match goal with |- emits _ _ (match ?c with _ => _ end) => destruct c end
    | apply emits_emit; [apply gateway; reflexivity | exact I]
    | apply emits_raise
    | apply emits_ret; exact I ].

Lemma gateway_turn_on b light_id :
  emits P (fun _ => True) (Bridge.turn_on_light b light_id).
Proof.
  unfold Bridge.turn_on_light, Bridge.get_url, Bridge.validate_light_id,
    Bridge.log_error.
  gateway_calls.
Qed.

Lemma gateway_set_light_color b light_id h br s :
  emits P (fun _ => True) (Bridge.set_light_color b light_id h br s).
Proof.
  unfold Bridge.set_light_color, Bridge.validate_color_values, Bridge.get_url,
    Bridge.validate_light_id, Bridge.log_error.
  gateway_calls.
Qed.

End Gateway.

Lemma well_formed_preset_ranges config :
  well_formed_preset config ->
  well_formed_range config "speed" /\ well_formed_range config "hue" /\
  well_formed_range config "bri" /\ well_formed_range config "sat".
Proof.
  unfold well_formed_preset, required_keys. intros H.
  inversion H as [|? ? H1 H']; subst. inversion H' as [|? ? H2 H'']; subst.
  inversion H'' as [|? ? H3 H''']; subst. inversion H''' as [|? ? H4 _]; subst.
  auto.
Qed.

Lemma generate_random_state_well_formed self config :
  well_formed_preset config ->
  forall o w, exists st,
    generate_random_state self config o w
    = (Ok st, mkWorld (S (S (S (rng_pos w)))) (net_pos w) (trace w)) /\
    (exists hl hh bl bh sl sh,
       preset_range config "hue" = Some (hl, hh) /\
       preset_range config "bri" = Some (bl, bh) /\
       preset_range config "sat" = Some (sl, sh) /\
       hl <= hue st <= hh /\ bl <= bri st <= bh /\ sl <= sat st <= sh).
Proof.
  intros Hw o w.
  destruct (well_formed_preset_ranges config Hw)
    as (_ & (hl & hh & Rh & Lh) & (bl & bh & Rb & Lb) & (sl & sh & Rs & Ls)).
  destruct (generate_random_state_spec self config hl hh bl bh sl sh o w
              Rh Rb Rs Lh Lb Ls) as (st & E & B).
  exists st. split; [exact E|]. exists hl, hh, bl, bh, sl, sh. tauto.
Qed.

Lemma emits_make_tasks_well_formed self config ids :
  well_formed_preset config ->
  emits no_update_failure (Forall (emits no_update_failure (fun _ => True)))
    (make_tasks self config ids).
Proof.
  intros Hw. induction ids as [|light_id ids IH]; cbn [make_tasks].
  - apply emits_ret. constructor.
  - apply emits_bind
      with (Q1 := Forall (emits no_update_failure (fun _ => True))).
    + apply emits_try_ok.
      * apply emits_bind with (Q1 := fun _ => True);
          [apply emits_generate_random_state | intros st _].
        apply emits_bind with (Q1 := fun _ => True); [|intros ? _].
        -- apply emits_emit; [reflexivity | exact I].
        -- apply emits_ret. constructor; [|constructor].
           apply gateway_set_light_color.
           intros [f [ ]| | | ]; simpl; unfold no_update_failure; simpl;
             congruence.
      * intros o w.
        destruct (generate_random_state_well_formed self config Hw o w)
          as (st & E & _).
        unfold bind, debug_request, emit, ret. rewrite E. eauto.
    + intros made Hmade.
      apply emits_bind
        with (Q1 := Forall (emits no_update_failure (fun _ => True)));
        [exact IH|].
      intros more Hmore. apply emits_ret. apply Forall_app; auto.
Qed.

Lemma emits_tick_loop_well_formed self config n :
  well_formed_preset config ->
  emits no_update_failure (fun _ => True) (tick_loop self config n).
Proof.
  intros Hw. induction n as [|n IH]; cbn [tick_loop].
  - apply emits_ret. exact I.
  - apply emits_bind with (Q1 := fun _ => True); [|intros _ _; exact IH].
    unfold tick.
    apply emits_bind
      with (Q1 := Forall (emits no_update_failure (fun _ => True)));
      [apply emits_make_tasks_well_formed; exact Hw|].
    intros tasks Ht.
    apply emits_bind with (Q1 := fun _ => True); [apply emits_gather; exact Ht|].
    intros _ _.
    apply emits_bind with (Q1 := fun _ => True); [apply emits_lift; auto|].
    intros lo _.
    apply emits_bind with (Q1 := fun _ => True); [apply emits_lift; auto|].
    intros s _. unfold sleep. apply emits_emit; [reflexivity | exact I].
Qed.

Lemma no_update_failure_existsb new :
  Forall no_update_failure new -> existsb is_update_failure new = false.
Proof.
  induction 1 as [|e new He _ IH]; simpl; [reflexivity|].
  rewrite He. exact IH.
Qed.

(** X9. For every preset of a mapping the loader has returned,
    [generate_random_state] returns: it draws three numbers, one within each
    of the hue, bri and sat ranges, and touches nothing else. So the
    [except] of the tick loop is never taken for a loaded preset: no
    "Failed to update light" line is ever written. *)
Theorem loaded_presets_always_generate animation_file file items name config :
  load_and_validate_animations animation_file file = Ok items ->
  In (name, config) items ->
  forall self o w,
    (exists st hl hh bl bh sl sh,
       generate_random_state self config o w
       = (Ok st, mkWorld (S (S (S (rng_pos w)))) (net_pos w) (trace w)) /\
       preset_range config "hue" = Some (hl, hh) /\
       preset_range config "bri" = Some (bl, bh) /\
       preset_range config "sat" = Some (sl, sh) /\
       hl <= hue st <= hh /\ bl <= bri st <= bh /\ sl <= sat st <= sh) /\
    (forall n, exists new,
       trace (snd (tick_loop self config n o w)) = trace w ++ new /\
       existsb is_update_failure new = false).
Proof.
  intros Hload Hin self o w.
  assert (Hw : well_formed_preset config).
  { pose proof (load_returns_parsed _ _ _ Hload) as ->.
    cbn [load_and_validate_animations] in Hload. unfold bind_res in Hload.
    destruct (check_items items) as [[]|] eqn:E; [|discriminate].
    apply check_items_ok_iff in E. rewrite Forall_forall in E.
    apply (E (name, config) Hin). }
  split.
  - destruct (generate_random_state_well_formed self config Hw o w)
      as (st & E & hl & hh & bl & bh & sl & sh & H).
    exists st, hl, hh, bl, bh, sl, sh. tauto.
  - intros n.
    destruct (emits_tick_loop_well_formed self config n Hw o w)
      as [(new & E & F) _].
    exists new. split; [exact E | apply no_update_failure_existsb, F].
Qed.

Lemma loaded_presets_always_generate_witness :
  (exists st hl hh bl bh sl sh,
     generate_random_state Sample.show Sample.pulse Sample.steady Sample.start
     = (Ok st, mkWorld 3 0 []) /\
     preset_range Sample.pulse "hue" = Some (hl, hh) /\
     preset_range Sample.pulse "bri" = Some (bl, bh) /\
     preset_range Sample.pulse "sat" = Some (sl, sh) /\
     hl <= hue st <= hh /\ bl <= bri st <= bh /\ sl <= sat st <= sh) /\
  (forall n, exists new,
     trace (snd (tick_loop Sample.show Sample.pulse n (Sample.failing_at 2)
                   Sample.start)) = trace Sample.start ++ new /\
     existsb is_update_failure new = false).
Proof.
  split.
  - apply (proj1 (loaded_presets_always_generate "animation.json"
                    (Parsed (JObj [("pulse", Sample.pulse)]))
                    [("pulse", Sample.pulse)] "pulse" Sample.pulse
                    eq_refl (or_introl eq_refl)
                    Sample.show Sample.steady Sample.start)).
  - apply (proj2 (loaded_presets_always_generate "animation.json"
                    (Parsed (JObj [("pulse", Sample.pulse)]))
                    [("pulse", Sample.pulse)] "pulse" Sample.pulse
                    eq_refl (or_introl eq_refl)
                    Sample.show (Sample.failing_at 2) Sample.start)).
Defined.

Lemma quiet_others e : is_sleep e = false -> quiet e.
Proof. auto. Qed.

Lemma tick_completed self config o w :
  count_sleeps (trace (snd (tick self config o w)))
  = (count_sleeps (trace w)
     + match fst (tick self config o w) with Ok _ => 1 | Err _ => 0 end)%nat.
Proof.
  unfold tick, bind.
  destruct (emits_make_tasks quiet quiet_others self config (lights self) o w)
    as [(n1 & E1 & F1) HQ].
  destruct (make_tasks self config (lights self) o w) as [[tasks|e] w1];
    simpl in E1, HQ |- *.
  2: { rewrite E1, count_sleeps_app, (count_sleeps_quiet n1 F1). lia. }
  destruct (emits_gather quiet tasks (HQ tasks eq_refl) o w1) as [(n2 & E2 & F2) _].
  destruct (gather tasks o w1) as [[rs|e] w2]; simpl in E2 |- *.
  2: { rewrite E2, E1, !count_sleeps_app, (count_sleeps_quiet n1 F1),
         (count_sleeps_quiet n2 F2). lia. }
  assert (C : count_sleeps (trace w2) = count_sleeps (trace w)).
  { rewrite E2, E1, !count_sleeps_app, (count_sleeps_quiet n1 F1),
      (count_sleeps_quiet n2 F2). lia. }
  unfold lift. destruct (getitem2 config "speed" "min") as [lo|e]; simpl;
    [|lia].
  destruct (truediv_1000 lo) as [s|e]; simpl; [|lia].
  rewrite count_sleeps_snoc. simpl. lia.
Qed.

Lemma tick_loop_completed self config n o w :
  exists k,
    count_sleeps (trace (snd (tick_loop self config n o w)))
    = (count_sleeps (trace w) + k)%nat /\
    match fst (tick_loop self config n o w) with
    | Ok _ => k = n
    | Err _ => (k < n)%nat
    end.
Proof.
  revert w. induction n as [|n IH]; intros w; cbn [tick_loop].
  - exists 0%nat. simpl. split; [lia | reflexivity].
  - unfold bind. pose proof (tick_completed self config o w) as T.
    destruct (tick self config o w) as [[[]|e] w1]; simpl in T |- *.
    + destruct (IH w1) as (k & C & R). exists (S k). split; [lia|].
      destruct (fst (tick_loop self config n o w1)); lia.
    + exists 0%nat. split; lia.
Qed.

(** X10. A tick loop of [n] ticks that returns has slept exactly [n] times;
    one that raises has slept fewer than [n] times: the tick that raises
    does not sleep and none comes after it. So a run that returns has
    completed [d] ticks for a [d] between the two bounds of the duration,
    and a run that raises fewer than the upper bound. *)
Theorem completed_ticks self o w :
  (forall config n, exists k,
     count_sleeps (trace (snd (tick_loop self config n o w)))
     = (count_sleeps (trace w) + k)%nat /\
     match fst (tick_loop self config n o w) with
     | Ok _ => k = n
     | Err _ => (k < n)%nat
     end) /\
  (exists k,
     count_sleeps (trace (snd (load_effect self o w)))
     = (count_sleeps (trace w) + k)%nat /\
     match fst (load_effect self o w) with
     | Ok _ =>
         exists d,
           minimum_duration self <= d <= maximum_duration self /\ k = Z.to_nat d
     | Err _ => k = 0%nat \/ (k < Z.to_nat (maximum_duration self))%nat
     end).
Proof.
  split; [intros config n; apply tick_loop_completed|].
  unfold load_effect, bind.
  assert (Hq : Forall (emits quiet (fun _ => True))
                 (map (Bridge.turn_on_light (bridge self)) (lights self))).
  { apply Forall_map, Forall_forall. intros id _. apply emits_turn_on. auto. }
  destruct (emits_gather quiet _ Hq o w) as [(n1 & E1 & F1) _].
  assert (C : forall t, t = trace w ++ n1 ->
              count_sleeps t = (count_sleeps (trace w) + 0)%nat).
  { intros t ->. rewrite count_sleeps_app, (count_sleeps_quiet n1 F1). lia. }
  destruct (gather _ o w) as [[rs|e] w1]; simpl in E1 |- *;
    [|exists 0%nat; auto].
  unfold choice.
  destruct (dict_keys (animations self)) as [|x rest]; simpl;
    [exists 0%nat; auto|].
  unfold lift, lookup_animation.
  match goal with |- context [dict_get ?n (animations self)] =>
    destruct (dict_get n (animations self)) as [config|]
  end; simpl; [|exists 0%nat; auto].
  unfold randint_z. simpl.
  destruct (Z.leb_spec (minimum_duration self) (maximum_duration self));
    simpl; [|exists 0%nat; auto].
  match goal with |- context [tick_loop self config (Z.to_nat ?d) o ?w2] =>
    set (drawn := d); set (w3 := w2)
  end.
  assert (Hd : minimum_duration self <= drawn <= maximum_duration self).
  { subst drawn.
    pose proof (Z.mod_pos_bound (entropy o (S (rng_pos w1)))
                  (maximum_duration self - minimum_duration self + 1)). lia. }
  destruct (tick_loop_completed self config (Z.to_nat drawn) o w3) as (k & Ck & R).
  exists k. split.
  - rewrite Ck. subst w3. simpl. rewrite (C _ E1). lia.
  - destruct (fst (tick_loop self config (Z.to_nat drawn) o w3)).
    + exists drawn. auto.
    + right. lia.
Qed.

Lemma make_tasks_skips self config e ids o w :
  (forall w0, generate_random_state self config o w0 = (Err e, w0)) ->
  make_tasks self config ids o w
  = (Ok [],
     mkWorld (rng_pos w) (net_pos w)
       (trace w ++
        map (fun light_id => EvLog "error_log.txt" (LogUpdateFailed light_id e))
          ids)).
Proof.
  intros Hg. revert w. induction ids as [|light_id ids IH]; intros w;
    cbn [make_tasks map].
  - unfold ret. rewrite app_nil_r. destruct w; reflexivity.
  - unfold bind, try_catch. rewrite Hg. unfold log_error, emit, ret. simpl.
    rewrite IH. simpl. rewrite <- app_assoc. reflexivity.
Qed.

(** X11. When no state can be drawn from a preset that did not go through
    the loader (here: a hue range with min above max, so [randint] raises
    [ValueError] before it draws), the tick loop goes on: in each tick it
    writes "Failed to update light" for every light, pushes nothing, and
    sleeps; after [n] ticks it returns, having used neither the random
    source nor the bridge. *)
Theorem undrawable_preset_is_skipped self config lo hi pace seconds n o w :
  preset_range config "hue" = Some (lo, hi) -> hi < lo ->
  getitem2 config "speed" "min" = Ok pace ->
  truediv_1000 pace = Ok seconds ->
  tick_loop self config n o w
  = (Ok tt,
     mkWorld (rng_pos w) (net_pos w)
       (trace w ++
        List.concat (repeat (skipped_tick (lights self) ValueError seconds) n))).
Proof.
  intros Hr Hlt Hp Hs.
  assert (Hg : forall w0,
            generate_random_state self config o w0 = (Err ValueError, w0)).
  { intros w0. apply preset_range_inv in Hr as (a & b & Ea & Eb & Ia & Ib).
    unfold generate_random_state, bind, lift. rewrite Ea, Eb.
    unfold randint. rewrite Ia, Ib. unfold randint_z.
    destruct (Z.leb_spec lo hi); [lia | reflexivity]. }
  revert w. induction n as [|n IH]; intros w; cbn [tick_loop repeat List.concat].
  - unfold ret. rewrite app_nil_r. destruct w; reflexivity.
  - unfold bind, tick, bind.
    rewrite (make_tasks_skips self config ValueError (lights self) o w Hg).
    unfold gather, lift, sleep, emit. simpl. rewrite Hp, Hs. simpl.
    rewrite IH. simpl. unfold skipped_tick. rewrite <- !app_assoc. reflexivity.
Qed.

Lemma undrawable_preset_is_skipped_witness :
  tick_loop Sample.show
    (JObj [("speed", Sample.range 50 50); ("hue", Sample.range 300 100)])
    2 Sample.steady Sample.start
  = (Ok tt,
     mkWorld 0 0
       [EvLog "error_log.txt" (LogUpdateFailed "1" ValueError);
        EvLog "error_log.txt" (LogUpdateFailed "2" ValueError);
        EvSleep (FFin (3602879701896397 # 72057594037927936));
        EvLog "error_log.txt" (LogUpdateFailed "1" ValueError);
        EvLog "error_log.txt" (LogUpdateFailed "2" ValueError);
        EvSleep (FFin (3602879701896397 # 72057594037927936))]).
Proof.
  apply (undrawable_preset_is_skipped Sample.show
           (JObj [("speed", Sample.range 50 50); ("hue", Sample.range 300 100)])
           300 100 (JInt 50) (FFin (3602879701896397 # 72057594037927936)) 2
           Sample.steady Sample.start);
    solve [reflexivity | lia | vm_compute; reflexivity].
Defined.

(* ------------------------------------------------------------------ *)
(** ** Runs that cannot start *)

Lemma collect_with_failure {A} (r1 : list (pyres A)) e r2 :
  exists e', collect (r1 ++ Err e :: r2) = Err e'.
Proof.
  induction r1 as [|[a|e0] r1 (e' & IH)]; simpl; eauto.
  rewrite IH. eauto.
Qed.

Lemma turn_on_gateway b ids :
  Forall (emits (fun e => from_gateway e = true) (fun _ => True))
    (map (Bridge.turn_on_light b) ids).
Proof.
  apply Forall_map, Forall_forall. intros id _. apply gateway_turn_on. auto.
Qed.

Lemma empty_id_run_fails self o w :
  In "" (lights self) ->
  exists e w' new,
    load_effect self o w = (Err e, w') /\
    trace w' = trace w ++ new /\
    Forall (fun ev => from_gateway ev = true) new /\
    In (EvLog "bridge_error_log.txt" (LogInvalidLightID "")) new.
Proof.
  intros Hin. apply in_split in Hin as (l1 & l2 & Hl).
  unfold load_effect, bind, gather. rewrite Hl, map_app, run_tasks_app.
  destruct (emits_run_tasks _ _ o w (turn_on_gateway (bridge self) l1))
    as (n1 & E1 & F1).
  destruct (run_tasks (map (Bridge.turn_on_light (bridge self)) l1) o w)
    as [r1 w1]. simpl in E1. cbn [map run_tasks].
  unfold Bridge.turn_on_light at 1, try_catch, bind, Bridge.get_url,
    Bridge.validate_light_id, Bridge.log_error, emit, raise. simpl.
  match goal with |- context [run_tasks ?ts o ?w2] =>
    destruct (emits_run_tasks _ _ o w2 (turn_on_gateway (bridge self) l2))
      as (n3 & E3 & F3);
    destruct (run_tasks ts o w2) as [r3 w3]
  end. simpl in E3.
  destruct (collect_with_failure r1 (InvalidLightID "") r3) as [e' Hc].
  rewrite Hc.
  exists e', w3,
    (n1 ++ [EvLog "bridge_error_log.txt" (LogInvalidLightID "");
            EvLog "bridge_error_log.txt"
              (LogTurnOnFailed "" (InvalidLightID ""))] ++ n3).
  split; [reflexivity|]. split.
  - rewrite E3, E1, <- !app_assoc. reflexivity.
  - split.
    + apply Forall_app. split; [exact F1|].
      apply Forall_app. split; [repeat constructor | exact F3].
    + rewrite !in_app_iff. simpl. auto.
Qed.

Lemma no_preset_run_fails self o w :
  animations self = [] ->
  exists e w' new,
    load_effect self o w = (Err e, w') /\
    trace w' = trace w ++ new /\
    Forall (fun ev => from_gateway ev = true) new.
Proof.
  intros Hempty. unfold load_effect, bind.
  destruct (emits_gather _ _ (turn_on_gateway (bridge self) (lights self)) o w)
    as [(n1 & E1 & F1) _].
  destruct (gather _ o w) as [[rs|e] w1]; simpl in E1.
  - rewrite Hempty. simpl. exists IndexError, w1, n1. auto.
  - exists e, w1, n1. auto.
Qed.

Lemma gateway_counts new :
  Forall (fun ev => from_gateway ev = true) new ->
  count_sleeps new = 0%nat /\ count_animation_errors new = 0%nat.
Proof.
  unfold count_sleeps, count_animation_errors.
  induction 1 as [|e new He _ (IH1 & IH2)]; simpl; [auto|].
  destruct e as [f [ ]|p|u b|s]; simpl in *; try discriminate; auto.
Qed.

Lemma count_animation_errors_app t1 t2 :
  count_animation_errors (t1 ++ t2)
  = (count_animation_errors t1 + count_animation_errors t2)%nat.
Proof.
  unfold count_animation_errors. rewrite filter_app, length_app. reflexivity.
Qed.

Lemma launch_spins self :
  (forall o w, exists e w' new,
     load_effect self o w = (Err e, w') /\
     trace w' = trace w ++ new /\
     Forall (fun ev => from_gateway ev = true) new) ->
  forall turns o w, exists w',
    launch turns self o w = (Ok tt, w') /\
    count_sleeps (trace w') = count_sleeps (trace w) /\
    count_animation_errors (trace w')
    = (count_animation_errors (trace w) + turns)%nat.
Proof.
  intros Hrun turns o. induction turns as [|n IH]; intros w; cbn [launch].
  - exists w. repeat split; lia.
  - unfold bind, launch_once, try_catch.
    destruct (Hrun o w) as (e & w1 & new & E & T & F). rewrite E.
    unfold log_error, emit. simpl.
    match goal with |- context [launch n self o ?w2] =>
      destruct (IH w2) as (w' & L & Cs & Ce)
    end.
    exists w'. split; [exact L|]. simpl in Cs, Ce.
    destruct (gateway_counts new F) as (G1 & G2).
    rewrite Cs, Ce, T, <- !app_assoc, !count_sleeps_app,
      !count_animation_errors_app, G1, G2.
    unfold count_sleeps, count_animation_errors. simpl. lia.
Qed.

(** X12. A light id that is empty never reaches the bridge: turning the
    light on or off, or setting its color, writes "Invalid light ID" and the
    line of the operation to the bridge log and raises, without a request.
    A show with such a light cannot start: every run raises at the turn-on
    step, before any tick. *)
Theorem empty_light_id_is_fatal_to_a_run :
  (forall b o w,
     Bridge.turn_on_light b "" o w
     = (Err (InvalidLightID ""),
        mkWorld (rng_pos w) (net_pos w)
          (trace w ++
           [EvLog "bridge_error_log.txt" (LogInvalidLightID "");
            EvLog "bridge_error_log.txt"
              (LogTurnOnFailed "" (InvalidLightID ""))])) /\
     Bridge.turn_off_light b "" o w
     = (Err (InvalidLightID ""),
        mkWorld (rng_pos w) (net_pos w)
          (trace w ++
           [EvLog "bridge_error_log.txt" (LogInvalidLightID "");
            EvLog "bridge_error_log.txt"
              (LogTurnOffFailed "" (InvalidLightID ""))]))) /\
  (forall b h br s o w,
     within 0 65535 h -> within 0 254 br -> within 0 254 s ->
     Bridge.set_light_color b "" h br s o w
     = (Err (InvalidLightID ""),
        mkWorld (rng_pos w) (net_pos w)
          (trace w ++
           [EvLog "bridge_error_log.txt" (LogInvalidLightID "");
            EvLog "bridge_error_log.txt"
              (LogSetColorFailed "" (InvalidLightID ""))]))) /\
  (forall self o w,
     In "" (lights self) ->
     exists e w' new,
       load_effect self o w = (Err e, w') /\
       trace w' = trace w ++ new /\
       In (EvLog "bridge_error_log.txt" (LogInvalidLightID "")) new /\
       count_sleeps new = 0%nat).
Proof.
  split; [|split].
  - intros b o w. split.
    + unfold Bridge.turn_on_light, try_catch, bind, Bridge.get_url,
        Bridge.validate_light_id, Bridge.log_error, emit, raise. simpl.
      rewrite <- app_assoc. reflexivity.
    + unfold Bridge.turn_off_light, try_catch, bind, Bridge.get_url,
        Bridge.validate_light_id, Bridge.log_error, emit, raise. simpl.
      rewrite <- app_assoc. reflexivity.
  - intros b h br s o w Hh Hb Hs. apply between_within in Hh, Hb, Hs.
    unfold Bridge.set_light_color, Bridge.validate_color_values, bind.
    rewrite Hh, Hb, Hs. cbn [negb ret].
    unfold try_catch, bind, Bridge.get_url, Bridge.validate_light_id,
      Bridge.log_error, emit, raise. simpl.
    rewrite <- app_assoc. reflexivity.
  - intros self o w Hin.
    destruct (empty_id_run_fails self o w Hin) as (e & w' & new & E & T & F & I).
    exists e, w', new. repeat split; auto.
    apply (gateway_counts new F).
Qed.

Lemma empty_light_id_is_fatal_to_a_run_witness :
  Bridge.set_light_color Sample.hub "" (PInt 10) (PInt 20) (PInt 30)
    Sample.steady Sample.start
  = (Err (InvalidLightID ""),
     mkWorld 0 0
       [EvLog "bridge_error_log.txt" (LogInvalidLightID "");
        EvLog "bridge_error_log.txt" (LogSetColorFailed "" (InvalidLightID ""))]) /\
  exists e w' new,
    load_effect (mkAnimation Sample.hub (split_on "|" "1|") 3 3
                   [("pulse", Sample.pulse)]) Sample.steady Sample.start
    = (Err e, w') /\
    trace w' = trace Sample.start ++ new /\
    In (EvLog "bridge_error_log.txt" (LogInvalidLightID "")) new /\
    count_sleeps new = 0%nat.
Proof.
  split.
  - apply (proj1 (proj2 empty_light_id_is_fatal_to_a_run) Sample.hub
             (PInt 10) (PInt 20) (PInt 30) Sample.steady Sample.start);
      simpl; lia.
  - apply (proj2 (proj2 empty_light_id_is_fatal_to_a_run)
             (mkAnimation Sample.hub (split_on "|" "1|") 3 3
                [("pulse", Sample.pulse)]) Sample.steady Sample.start).
    simpl. auto.
Defined.

Lemma inverted_duration_run_fails self o w :
  maximum_duration self < minimum_duration self ->
  exists e w' new,
    load_effect self o w = (Err e, w') /\
    trace w' = trace w ++ new /\
    Forall (fun ev => from_gateway ev = true) new.
Proof.
  intros Hlt. unfold load_effect, bind.
  destruct (emits_gather _ _ (turn_on_gateway (bridge self) (lights self)) o w)
    as [(n1 & E1 & F1) _].
  destruct (gather _ o w) as [[rs|e] w1]; simpl in E1; [|exists e, w1, n1; auto].
  unfold choice.
  destruct (dict_keys (animations self)) as [|x rest];
    [exists IndexError, w1, n1; auto|].
  unfold lift, lookup_animation.
  match goal with |- context [dict_get ?n (animations self)] =>
    destruct (dict_get n (animations self)) as [config|]
  end; [|eexists _, _, n1; split; [reflexivity | auto]].
  unfold randint_z.
  destruct (Z.leb_spec (minimum_duration self) (maximum_duration self)); [lia|].
  eexists _, _, n1. split; [reflexivity | auto].
Qed.

(* ------------------------------------------------------------------ *)
(** ** Start-up *)

Import Startup.

Lemma of_run_validate_url self url w o :
  negb (String.prefix "http://" url) && negb (String.prefix "https://" url) = false ->
  of_run (Http.validate_url self url) o w
  = (Done tt, mkBootWorld (boot_rng_pos w) (boot_net_pos w) (boot_trace w)).
Proof.
  intros Hp. unfold of_run, Http.validate_url. rewrite Hp. simpl.
  rewrite app_nil_r. reflexivity.
Qed.

Lemma get_exact self url o w :
  negb (String.prefix "http://" url) && negb (String.prefix "https://" url) = false ->
  get self url o w
  = match replies o (boot_net_pos w) with
    | NetOk response => (Done response, after_get w url [])
    | NetClientError d =>
        (Failed (GetRequestFailed d),
         after_get w url [EvBootLog (Http.log_file self) (LogGetFailed url d)])
    | NetJSONDecodeError d =>
        (Failed (FromRun (InvalidJSONResponse d)),
         after_get w url [EvBootLog (Http.log_file self) (LogGetInvalidJSON url d)])
    end.
Proof.
  intros Hp. unfold get, andthen. rewrite (of_run_validate_url self url w o Hp).
  unfold record, next_boot_reply, http_log, record, done, fail, after_get. simpl.
  destruct (replies o (boot_net_pos w)); simpl; rewrite <- ?app_assoc; reflexivity.
Qed.

(** X14. [get] with a URL that starts with neither [http://] nor
    [https://] writes "Invalid URL" to the log of the transport and raises,
    without a request. With a good URL it makes one GET: it returns the
    response of the bridge as it is, or writes one line to its log and
    raises "GET request failed" or "Invalid JSON response". *)
Theorem get_outcome self url o w :
  (String.prefix "http://" url = false -> String.prefix "https://" url = false ->
   get self url o w
   = (Failed (FromRun (InvalidURL url)),
      mkBootWorld (boot_rng_pos w) (boot_net_pos w)
        (boot_trace w ++ [Run (EvLog (Http.log_file self) (LogInvalidURL url))]))) /\
  (String.prefix "http://" url = true \/ String.prefix "https://" url = true ->
   get self url o w
   = match replies o (boot_net_pos w) with
     | NetOk response => (Done response, after_get w url [])
     | NetClientError d =>
         (Failed (GetRequestFailed d),
          after_get w url [EvBootLog (Http.log_file self) (LogGetFailed url d)])
     | NetJSONDecodeError d =>
         (Failed (FromRun (InvalidJSONResponse d)),
          after_get w url
            [EvBootLog (Http.log_file self) (LogGetInvalidJSON url d)])
     end).
Proof.
  split.
  - intros H1 H2. unfold get, andthen, of_run, Http.validate_url.
    rewrite H1, H2. reflexivity.
  - intros H. apply get_exact.
    destruct H as [H|H]; rewrite H; simpl; [reflexivity | apply andb_false_r].
Qed.

Lemma get_outcome_witness :
  get Http.default "ftp://hub/api" Sample.steady (mkBootWorld 0 0 [])
  = (Failed (FromRun (InvalidURL "ftp://hub/api")),
     mkBootWorld 0 0
       [Run (EvLog "http_error_log.txt" (LogInvalidURL "ftp://hub/api"))]) /\
  get Http.default "https://hub/api" (Sample.failing_at 0) (mkBootWorld 0 0 [])
  = (Failed (GetRequestFailed "Cannot connect to host"),
     mkBootWorld 0 1
       [EvGet "https://hub/api";
        EvBootLog "http_error_log.txt"
          (LogGetFailed "https://hub/api" "Cannot connect to host")]).
Proof.
  split.
  - apply (proj1 (get_outcome Http.default "ftp://hub/api" Sample.steady
                    (mkBootWorld 0 0 []))); reflexivity.
  - apply (proj2 (get_outcome Http.default "https://hub/api" (Sample.failing_at 0)
                    (mkBootWorld 0 0 []))). right. reflexivity.
Defined.

Lemma config_url_http self : String.prefix "http://" (config_url self) = true.
Proof. unfold config_url. simpl. apply prefix_empty. Qed.

Lemma lights_url_http self : String.prefix "http://" (lights_url self) = true.
Proof. unfold lights_url. simpl. apply prefix_empty. Qed.

Lemma validate_bridge_connection_exact self o w :
  validate_bridge_connection self o w
  = let url := config_url self in
    let failed cause lines :=
      (Failed (BridgeValidationFailed cause),
       after_get w url
         (lines ++ [EvBootLog "bridge_error_log.txt"
                      (LogBridgeValidationFailed cause)])) in
    match replies o (boot_net_pos w) with
    | NetOk response =>
        match py_in "name" response with
        | Ok true => (Done tt, after_get w url [])
        | Ok false =>
            failed UnableToConnect
              [EvBootLog "bridge_error_log.txt" (LogInvalidBridgeResponse response)]
        | Err e => failed (FromRun e) []
        end
    | NetClientError d =>
        failed (GetRequestFailed d)
          [EvBootLog (Http.log_file (Bridge.http self)) (LogGetFailed url d)]
    | NetJSONDecodeError d =>
        failed (FromRun (InvalidJSONResponse d))
          [EvBootLog (Http.log_file (Bridge.http self)) (LogGetInvalidJSON url d)]
    end.
Proof.
  unfold validate_bridge_connection, rescue, andthen.
  rewrite get_exact by (rewrite config_url_http; reflexivity).
  cbv zeta.
  destruct (replies o (boot_net_pos w)) as [response|d|d].
  - destruct (py_in "name" response) as [[|]|e]; simpl;
      unfold bridge_log, record, fail, after_get; simpl;
      rewrite <- ?app_assoc; reflexivity.
  - unfold bridge_log, record, fail, after_get; simpl.
    rewrite <- ?app_assoc. reflexivity.
  - unfold bridge_log, record, fail, after_get; simpl.
    rewrite <- ?app_assoc. reflexivity.
Qed.

(** X15. The check of the connection makes one GET, to the [config] URL,
    and nothing else but log lines. It returns exactly when the bridge
    answers with a document that holds [name]. Otherwise it raises "Bridge
    validation failed" around the cause, and the last line it writes, to the
    bridge log, says so; an answer without [name] gets the line "Invalid
    response from Hue Bridge" first, so two lines for one failure. *)
Theorem bridge_validation self o w :
  (fst (validate_bridge_connection self o w) = Done tt <->
   exists response,
     replies o (boot_net_pos w) = NetOk response /\
     py_in "name" response = Ok true) /\
  (exists lines,
     snd (validate_bridge_connection self o w)
     = after_get w (config_url self) lines /\
     count_gets lines = 0%nat /\ count_boot_puts lines = 0%nat) /\
  (forall e,
     fst (validate_bridge_connection self o w) = Failed e ->
     exists cause before,
       e = BridgeValidationFailed cause /\
       boot_trace (snd (validate_bridge_connection self o w))
       = before ++ [EvBootLog "bridge_error_log.txt"
                      (LogBridgeValidationFailed cause)]) /\
  (forall response,
     replies o (boot_net_pos w) = NetOk response ->
     py_in "name" response = Ok false ->
     validate_bridge_connection self o w
     = (Failed (BridgeValidationFailed UnableToConnect),
        after_get w (config_url self)
          [EvBootLog "bridge_error_log.txt" (LogInvalidBridgeResponse response);
           EvBootLog "bridge_error_log.txt"
             (LogBridgeValidationFailed UnableToConnect)])).
Proof.
  rewrite validate_bridge_connection_exact. cbv zeta.
  assert (T : forall url lines m,
            boot_trace (after_get w url (lines ++ [m]))
            = (boot_trace w ++ EvGet url :: lines) ++ [m]).
  { intros. unfold after_get. simpl. rewrite <- app_assoc. reflexivity. }
  destruct (replies o (boot_net_pos w)) as [response|d|d].
  - destruct (py_in "name" response) as [[|]|e0] eqn:En; simpl.
    + split; [split; [intros _; exists response; auto | reflexivity]|].
      split; [exists []; auto|].
      split; [discriminate|]. intros r [= <-]. congruence.
    + split; [split; [discriminate | intros (r & [= <-] & E); congruence]|].
      split; [eexists; split; [reflexivity | split; reflexivity]|].
      split.
      * intros e [= <-]. eexists _, _. split; [reflexivity|].
        apply (T _ [_]).
      * intros r [= <-] _. reflexivity.
    + split; [split; [discriminate | intros (r & [= <-] & E); congruence]|].
      split; [eexists; split; [reflexivity | split; reflexivity]|].
      split.
      * intros e [= <-]. eexists _, _. split; [reflexivity|]. apply (T _ []).
      * intros r [= <-]. congruence.
  - simpl. split; [split; [discriminate | intros (r & E & _); discriminate]|].
    split; [eexists; split; [reflexivity | split; reflexivity]|].
    split; [|discriminate].
    intros e [= <-]. eexists _, _. split; [reflexivity|]. apply (T _ [_]).
  - simpl. split; [split; [discriminate | intros (r & E & _); discriminate]|].
    split; [eexists; split; [reflexivity | split; reflexivity]|].
    split; [|discriminate].
    intros e [= <-]. eexists _, _. split; [reflexivity|]. apply (T _ [_]).
Qed.

Lemma bridge_validation_witness :
  fst (validate_bridge_connection Sample.hub
         (mkOracle Sample.dice (fun _ => NetOk (JObj [("name", JStr "hub")])))
         (mkBootWorld 0 0 [])) = Done tt /\
  validate_bridge_connection Sample.hub
    (mkOracle Sample.dice (fun _ => NetOk (JObj [("error", JStr "unauthorized")])))
    (mkBootWorld 0 0 [])
  = (Failed (BridgeValidationFailed UnableToConnect),
     mkBootWorld 0 1
       [EvGet "http://192.168.1.2/api/token/config";
        EvBootLog "bridge_error_log.txt"
          (LogInvalidBridgeResponse (JObj [("error", JStr "unauthorized")]));
        EvBootLog "bridge_error_log.txt"
          (LogBridgeValidationFailed UnableToConnect)]).
Proof.
  split.
  - apply (proj1 (bridge_validation Sample.hub
                    (mkOracle Sample.dice
                       (fun _ => NetOk (JObj [("name", JStr "hub")])))
                    (mkBootWorld 0 0 []))).
    exists (JObj [("name", JStr "hub")]). split; reflexivity.
  - apply (proj2 (proj2 (proj2
             (bridge_validation Sample.hub
                (mkOracle Sample.dice
                   (fun _ => NetOk (JObj [("error", JStr "unauthorized")])))
                (mkBootWorld 0 0 []))))
             (JObj [("error", JStr "unauthorized")]));
      reflexivity.
Defined.

(** X16. [get_available_lights] makes one GET, to the [lights] URL. It
    returns the response of the bridge as it is; when the request fails it
    writes "Failed to retrieve available lights" to the bridge log, after
    the line of the transport, and raises the exception of the transport
    unchanged (not wrapped, unlike the check of the connection). *)
Theorem listing_the_lights self o w :
  get_available_lights self o w
  = let url := lights_url self in
    let failed e m :=
      (Failed e,
       after_get w url
         [EvBootLog (Http.log_file (Bridge.http self)) m;
          EvBootLog "bridge_error_log.txt" (LogLightsFailed e)]) in
    match replies o (boot_net_pos w) with
    | NetOk response => (Done response, after_get w url [])
    | NetClientError d => failed (GetRequestFailed d) (LogGetFailed url d)
    | NetJSONDecodeError d =>
        failed (FromRun (InvalidJSONResponse d)) (LogGetInvalidJSON url d)
    end.
Proof.
  unfold get_available_lights, rescue.
  rewrite get_exact by (rewrite lights_url_http; reflexivity).
  cbv zeta.
  destruct (replies o (boot_net_pos w)); simpl;
    unfold bridge_log, record, fail, after_get, andthen; simpl;
    rewrite <- ?app_assoc; reflexivity.
Qed.

Lemma count_boot_puts_app t1 t2 :
  count_boot_puts (t1 ++ t2) = (count_boot_puts t1 + count_boot_puts t2)%nat.
Proof. unfold count_boot_puts. rewrite filter_app, length_app. reflexivity. Qed.

Lemma validation_sends_no_put self o w :
  count_boot_puts (boot_trace (snd (validate_bridge_connection self o w)))
  = count_boot_puts (boot_trace w) /\
  boot_net_pos (snd (validate_bridge_connection self o w)) = S (boot_net_pos w).
Proof.
  rewrite validate_bridge_connection_exact. cbv zeta.
  destruct (replies o (boot_net_pos w)) as [response|d|d];
    [destruct (py_in "name" response) as [[|]|e0]| |];
    unfold after_get; simpl; rewrite count_boot_puts_app;
    unfold count_boot_puts; simpl; split; lia.
Qed.

Lemma of_run_launch_returns turns self o w :
  fst (of_run (launch turns self) o w) = Done tt.
Proof.
  unfold of_run.
  destruct (launch_returns turns self o
              (mkWorld (boot_rng_pos w) (boot_net_pos w) [])) as [w' E].
  rewrite E. reflexivity.
Qed.

(** X17. The program starts all or nothing. When the check of the
    connection raises, that exception ends the program: the presets are not
    loaded and no light is touched. When the check passes and the
    environment or the animation file is refused, that exception ends the
    program, again before any PUT, after the single GET of the check. When
    both pass, the program is the loop of [launch], which never raises. *)
Theorem startup_is_all_or_nothing int_of_str env file turns o w :
  let bridge := bridge_of_env env in
  let checked := validate_bridge_connection bridge o w in
  let program := main int_of_str env file turns o w in
  (forall e, fst checked = Failed e -> program = (Failed e, snd checked)) /\
  (forall e,
     fst checked = Done tt ->
     init int_of_str env bridge "animation.json" file = Err e ->
     program = (Failed (FromRun e), snd checked)) /\
  (forall animation,
     fst checked = Done tt ->
     init int_of_str env bridge "animation.json" file = Ok animation ->
     program = of_run (launch turns animation) o (snd checked) /\
     fst program = Done tt) /\
  (fst program <> Done tt ->
   count_boot_puts (boot_trace (snd program)) = count_boot_puts (boot_trace w) /\
   boot_net_pos (snd program) = S (boot_net_pos w)).
Proof.
  cbv zeta. unfold main, bridge_init, andthen. cbv zeta.
  pose proof (validation_sends_no_put (bridge_of_env env) o w) as V.
  destruct (validate_bridge_connection (bridge_of_env env) o w) as [[[]|e0] w1];
    simpl in V |- *.
  - unfold done.
    destruct (init int_of_str env (bridge_of_env env) "animation.json" file)
      as [a|e1]; simpl.
    + split; [discriminate|]. split; [discriminate|]. split.
      * intros animation _ [= <-]. split; [reflexivity|].
        apply of_run_launch_returns.
      * intros H. exfalso. apply H. apply of_run_launch_returns.
    + split; [discriminate|]. split; [intros e _ [= <-]; reflexivity|].
      split; [discriminate|]. intros _. exact V.
  - split; [intros e [= <-]; reflexivity|]. split; [discriminate|].
    split; [discriminate|]. intros _. exact V.
Qed.

Lemma startup_is_all_or_nothing_witness :
  main (fun _ => Err ValueError)
    (fun name => if String.eqb name "LIGHTS" then Some "1|2" else None)
    (Parsed (JObj [("pulse", Sample.pulse)])) 3
    (Sample.failing_at 0) (mkBootWorld 0 0 [])
  = (Failed (BridgeValidationFailed (GetRequestFailed "Cannot connect to host")),
     mkBootWorld 0 1
       [EvGet "http://None/api/None/config";
        EvBootLog "http_error_log.txt"
          (LogGetFailed "http://None/api/None/config" "Cannot connect to host");
        EvBootLog "bridge_error_log.txt"
          (LogBridgeValidationFailed
             (GetRequestFailed "Cannot connect to host"))]) /\
  fst (main (fun _ => Err ValueError)
         (fun name => if String.eqb name "LIGHTS" then Some "1|2" else None)
         (Parsed (JObj [("pulse", Sample.pulse)])) 3
         (mkOracle Sample.dice (fun _ => NetOk (JObj [("name", JStr "hub")])))
         (mkBootWorld 0 0 [])) = Done tt.
Proof.
  split.
  - apply (proj1 (startup_is_all_or_nothing (fun _ => Err ValueError)
                    (fun name => if String.eqb name "LIGHTS" then Some "1|2" else None)
                    (Parsed (JObj [("pulse", Sample.pulse)])) 3
                    (Sample.failing_at 0) (mkBootWorld 0 0 []))).
    reflexivity.
  - apply (proj1 (proj2 (proj2
             (startup_is_all_or_nothing (fun _ => Err ValueError)
                (fun name => if String.eqb name "LIGHTS" then Some "1|2" else None)
                (Parsed (JObj [("pulse", Sample.pulse)])) 3
                (mkOracle Sample.dice
                   (fun _ => NetOk (JObj [("name", JStr "hub")])))
                (mkBootWorld 0 0 []))))
             (mkAnimation
                (bridge_of_env
                   (fun name => if String.eqb name "LIGHTS" then Some "1|2" else None))
                ["1"; "2"] 20 200 [("pulse", Sample.pulse)])).
    + reflexivity.
    + reflexivity.
Defined.

(* ------------------------------------------------------------------ *)
(** ** Counting the sleeps and the requests of a computation *)

Lemma count_puts_snoc t e :
  count_puts (t ++ [e]) = (count_puts t + (if is_put e then 1 else 0))%nat.
Proof.
  rewrite count_puts_app. unfold count_puts. simpl.
  destruct (is_put e); reflexivity.
Qed.

Section Tally.

Variable o : Oracle.

Lemma tally_ret {A} (Q : A -> Prop) a : Q a -> tally o 0 0 Q (ret a).
Proof. intros H w. exists a, w. rewrite !Nat.add_0_r. auto. Qed.

Lemma tally_emit (Q : unit -> Prop) e :
  Q tt ->
  tally o (if is_sleep e then 1 else 0) (if is_put e then 1 else 0) Q (emit e).
Proof.
  intros H w. eexists tt, _. split; [reflexivity|]. simpl.
  rewrite count_sleeps_snoc, count_puts_snoc. auto.
Qed.

Lemma tally_bind {A C} k1 k2 p1 p2 (Q1 : A -> Prop) (Q : C -> Prop) m k :
  tally o k1 p1 Q1 m -> (forall a, Q1 a -> tally o k2 p2 Q (k a)) ->
  tally o (k1 + k2) (p1 + p2) Q (bind m k).
Proof.
  intros Hm Hk w. destruct (Hm w) as (a & w1 & E1 & C1 & P1 & R1).
  destruct (Hk a R1 w1) as (b & w2 & E2 & C2 & P2 & R2).
  exists b, w2. unfold bind. rewrite E1, E2. repeat split; auto; lia.
Qed.

Lemma tally_try {A} k p (Q : A -> Prop) m h :
  tally o k p Q m -> tally o k p Q (try_catch m h).
Proof.
  intros Hm w. destruct (Hm w) as (a & w1 & E1 & R).
  exists a, w1. unfold try_catch. rewrite E1. auto.
Qed.

Lemma tally_gather {A} (tasks : list (M A)) :
  Forall (tally o 0 1 (fun _ => True)) tasks ->
  tally o 0 (List.length tasks) (fun _ => True) (gather tasks).
Proof.
  intros H. unfold gather.
  assert (G : forall w, exists rs l w',
               run_tasks tasks o w = (rs, w') /\ collect rs = Ok l /\
               count_sleeps (trace w') = count_sleeps (trace w) /\
               count_puts (trace w')
               = (count_puts (trace w) + List.length tasks)%nat).
  { induction H as [|t tasks Ht _ IH]; intros w; simpl.
    - exists [], [], w. repeat split; auto.
    - destruct (Ht w) as (a & w1 & E1 & C1 & P1 & _). rewrite E1.
      destruct (IH w1) as (rs & l & w2 & E2 & L2 & C2 & P2). rewrite E2.
      exists (Ok a :: rs), (a :: l), w2. simpl. rewrite L2.
      repeat split; auto; lia. }
  intros w. destruct (G w) as (rs & l & w' & E & L & C & P).
  exists l, w'. rewrite E, L, C, P. repeat split; auto.
Qed.

Hypothesis answered : all_replies_ok o.

Lemma tally_exchange b url body line :
  (forall w, exists response w',
     exchange b url body line o w = (Ok response, w') /\
     trace w' = trace w ++ [EvPut url body]).
Proof.
  intros w. unfold exchange. destruct (answered (net_pos w)) as [j Hj].
  rewrite Hj. eexists _, _. split; reflexivity.
Qed.

Lemma tally_of_exchange b url body line (m : M json) :
  (forall w, m o w = exchange b url body line o w) ->
  tally o 0 1 (fun _ => True) m.
Proof.
  intros Hm w. destruct (tally_exchange b url body line w) as (j & w' & E & T).
  exists j, w'. rewrite Hm, E, T, count_sleeps_snoc, count_puts_snoc. simpl.
  repeat split; auto.
Qed.

End Tally.

Lemma set_light_color_exchange b c id h br s o w :
  Bridge.between 0 65535 h = true -> Bridge.between 0 254 br = true ->
  Bridge.between 0 254 s = true ->
  Bridge.set_light_color b (String c id) h br s o w
  = exchange b (Bridge.light_url b (String c id)) (Bridge.color_body h br s)
      (LogSetColorFailed (String c id)) o w.
Proof.
  intros Hh Hb Hs. unfold Bridge.color_body.
  rewrite <- (put_exchange b _ "hue" (JNum h) [("bri", JNum br); ("sat", JNum s)]
                (LogSetColorFailed (String c id)) o w (light_url_http b _)).
  unfold Bridge.set_light_color, Bridge.validate_color_values, bind.
  rewrite Hh, Hb, Hs. reflexivity.
Qed.

Section HealthyRequests.

Variable o : Oracle.
Hypothesis answered : all_replies_ok o.

Variable self : Animation.
Hypothesis named : Forall (fun light_id => light_id <> "") (lights self).

Lemma tally_turn_on_all ids :
  Forall (fun light_id => light_id <> "") ids ->
  tally o 0 (List.length ids) (fun _ => True)
    (gather (map (Bridge.turn_on_light (bridge self)) ids)).
Proof.
  intros Hids.
  rewrite <- (length_map (Bridge.turn_on_light (bridge self)) ids).
  apply tally_gather. apply Forall_map.
  eapply Forall_impl; [|exact Hids]. intros [|c id] Hne; [congruence|].
  apply tally_of_exchange
    with (b := bridge self) (url := Bridge.light_url (bridge self) (String c id))
         (body := JObj [("on", JBool true)]) (line := LogTurnOnFailed (String c id));
    [exact answered|].
  intros w. apply switch_exchange.
Qed.

Variable config : json.
Hypothesis playable : playable_preset config.

Lemma tally_generate_random_state :
  tally o 0 0 accepted (generate_random_state self config).
Proof.
  destruct playable as (hl & hh & bl & bh & sl & sh & lo & Hh & Lh & Uh & Hb & Lb
                        & Ub & Hs & Ls & Us & _).
  intros w.
  destruct (generate_random_state_spec self config hl hh bl bh sl sh o w)
    as (st & E & B1 & B2 & B3); try assumption; try lia.
  eexists st, _. split; [exact E|]. simpl. rewrite !Nat.add_0_r.
  repeat split; try reflexivity; lia.
Qed.

Lemma tally_make_tasks ids :
  Forall (fun light_id => light_id <> "") ids ->
  tally o 0 0
    (fun tasks => Forall (tally o 0 1 (fun _ => True)) tasks /\
                  List.length tasks = List.length ids)
    (make_tasks self config ids).
Proof.
  induction 1 as [|light_id ids Hne _ IH]; cbn [make_tasks].
  - apply tally_ret. split; [constructor | reflexivity].
  - apply (tally_bind o 0 0 0 0)
      with (Q1 := fun made => Forall (tally o 0 1 (fun _ => True)) made /\
                              List.length made = 1%nat).
    + apply tally_try.
      apply (tally_bind o 0 0 0 0) with (Q1 := accepted);
        [apply tally_generate_random_state|].
      intros st (Bh & Bb & Bs).
      apply (tally_bind o 0 0 0 0) with (Q1 := fun _ => True).
      * apply (tally_emit o (fun _ => True) (EvPrint _)). exact I.
      * intros _ _. apply tally_ret. split; [|reflexivity].
        constructor; [|constructor].
        destruct light_id as [|c id]; [congruence|].
        apply tally_of_exchange
          with (b := bridge self)
               (url := Bridge.light_url (bridge self) (String c id))
               (body := Bridge.color_body (PInt (hue st)) (PInt (bri st))
                          (PInt (sat st)))
               (line := LogSetColorFailed (String c id)); [exact answered|].
        intros w. apply set_light_color_exchange; apply between_int; assumption.
    + intros made (Hmade & Lmade).
      apply (tally_bind o 0 0 0 0)
        with (Q1 := fun more => Forall (tally o 0 1 (fun _ => True)) more /\
                                List.length more = List.length ids);
        [exact IH|].
      intros more (Hmore & Lmore). apply tally_ret. split.
      * apply Forall_app; auto.
      * rewrite length_app, Lmade, Lmore. reflexivity.
Qed.

Lemma tally_tick :
  tally o 1 (List.length (lights self)) (fun _ => True) (tick self config).
Proof.
  destruct playable as (hl & hh & bl & bh & sl & sh & lo & _ & _ & _ & _ & _
                        & _ & _ & _ & _ & Hlo & Ilo).
  destruct (truediv_1000_fits lo Ilo) as [seconds Hs].
  unfold tick. intros w.
  destruct (tally_make_tasks (lights self) named w)
    as (tasks & w1 & E1 & C1 & P1 & Ht & Lt).
  destruct (tally_gather o tasks Ht w1) as (rs & w2 & E2 & C2 & P2 & _).
  unfold bind, lift, sleep, emit. rewrite E1, E2, Hlo, Hs.
  eexists tt, _. split; [reflexivity|]. simpl.
  rewrite count_sleeps_snoc, count_puts_snoc. simpl.
  repeat split; auto; lia.
Qed.

Lemma tally_tick_loop n :
  tally o n (n * List.length (lights self)) (fun _ => True)
    (tick_loop self config n).
Proof.
  induction n as [|n IH]; cbn [tick_loop].
  - apply tally_ret. exact I.
  - apply (tally_bind o 1 n (List.length (lights self))
             (n * List.length (lights self))) with (Q1 := fun _ => True);
      [apply tally_tick | intros _ _; exact IH].
Qed.

End HealthyRequests.


(* ------------------------------------------------------------------ *)
(** ** The steps of a run *)

(** *** The turn-on step *)

Lemma keeps_rng_bind {A C} (m : M A) (k : A -> M C) :
  keeps_rng m -> (forall a, keeps_rng (k a)) -> keeps_rng (bind m k).
Proof.
  intros Hm Hk o w. unfold bind. specialize (Hm o w).
  destruct (m o w) as [[a|e] w1]; simpl in *; [rewrite Hk|]; exact Hm.
Qed.

Lemma keeps_rng_try {A} (m : M A) h :
  keeps_rng m -> (forall e, keeps_rng (h e)) -> keeps_rng (try_catch m h).
Proof.
  intros Hm Hh o w. unfold try_catch. specialize (Hm o w).
  destruct (m o w) as [[a|e] w1]; simpl in *; [|rewrite Hh]; exact Hm.
Qed.

Lemma keeps_rng_put self url data : keeps_rng (Http.put self url data).
Proof.
  intros o w.
  unfold Http.put, Http.validate_url, Http.validate_payload, bind, ret, emit,
    next_reply, Http.log_error, raise.
  destruct (negb (String.prefix "http://" url) &&
            negb (String.prefix "https://" url)); [reflexivity|].
  destruct (negb (Http.is_dict data) || negb (Http.dict_truthy data));
    [reflexivity|].
  simpl. destruct (replies o (net_pos w)); reflexivity.
Qed.

Lemma keeps_rng_turn_on b light_id : keeps_rng (Bridge.turn_on_light b light_id).
Proof.
  unfold Bridge.turn_on_light. apply keeps_rng_try.
  - apply keeps_rng_bind; [|intros url; apply keeps_rng_put].
    intros o w. destruct light_id; reflexivity.
  - intros e o w. reflexivity.
Qed.

Lemma run_tasks_keeps_rng {A} (tasks : list (M A)) o w :
  Forall keeps_rng tasks -> rng_pos (snd (run_tasks tasks o w)) = rng_pos w.
Proof.
  intros H. revert w. induction H as [|t tasks Ht _ IH]; intros w; simpl;
    [reflexivity|].
  specialize (Ht o w). destruct (t o w) as [r w1]. simpl in Ht.
  specialize (IH w1). destruct (run_tasks tasks o w1) as [rs w2]. simpl in *.
  congruence.
Qed.

Lemma turn_on_exchange b c id o w :
  Bridge.turn_on_light b (String c id) o w
  = exchange b (Bridge.light_url b (String c id)) (JObj [("on", JBool true)])
      (LogTurnOnFailed (String c id)) o w.
Proof. apply switch_exchange. Qed.

(** The turn-on step writes no sleep and draws nothing. *)
Lemma turn_on_step_quiet b ids o w :
  rng_pos (snd (gather (map (Bridge.turn_on_light b) ids) o w)) = rng_pos w /\
  exists new,
    trace (snd (gather (map (Bridge.turn_on_light b) ids) o w)) = trace w ++ new /\
    Forall quiet new.
Proof.
  split.
  - pose proof (run_tasks_keeps_rng (map (Bridge.turn_on_light b) ids) o w) as H.
    unfold gather. destruct (run_tasks _ o w) as [rs w1]. apply H.
    apply Forall_map, Forall_forall. intros id _. apply keeps_rng_turn_on.
  - assert (Hq : Forall (emits quiet (fun _ => True))
                   (map (Bridge.turn_on_light b) ids)).
    { apply Forall_map, Forall_forall. intros id _. apply emits_turn_on. auto. }
    destruct (emits_gather quiet _ Hq o w) as [H _]. exact H.
Qed.

(** When the turn-on step raises, the exception is the one of a light that
    could not be turned on, and the bridge log says so. *)
Lemma turn_on_step_fails b ids o w e w1 :
  gather (map (Bridge.turn_on_light b) ids) o w = (Err e, w1) ->
  exists light_id new,
    In light_id ids /\
    trace w1 = trace w ++ new /\
    In (EvLog "bridge_error_log.txt" (LogTurnOnFailed light_id e)) new.
Proof.
  assert (Hq : forall l, Forall (emits quiet (fun _ => True))
                           (map (Bridge.turn_on_light b) l)).
  { intros l. apply Forall_map, Forall_forall. intros x _.
    apply emits_turn_on. auto. }
  unfold gather. revert w. induction ids as [|id ids IH]; intros w; simpl.
  - discriminate.
  - destruct (emits_turn_on quiet quiet_others b id o w) as [(n1 & E1 & _) _].
    destruct (Bridge.turn_on_light b id o w) as [r w2] eqn:Et. simpl in E1.
    destruct (run_tasks (map (Bridge.turn_on_light b) ids) o w2) as [rs w3] eqn:Er.
    destruct r as [a|e0]; simpl.
    + specialize (IH w2). rewrite Er in IH.
      destruct (collect rs) as [l|e1]; [discriminate|].
      intros [= <- <-]. destruct (IH eq_refl) as (light_id & new & Hin & E & Hlog).
      exists light_id, (n1 ++ new). split; [auto|]. split.
      * rewrite E, E1, app_assoc. reflexivity.
      * apply in_or_app. auto.
    + intros [= <- <-].
      destruct (turn_on_failure_logged _ _ _ _ _ _ Et) as (n2 & E2 & _).
      destruct (emits_run_tasks quiet _ o w2 (Hq ids)) as (n3 & E3 & _).
      rewrite Er in E3. simpl in E3.
      exists id,
        (n2 ++ [EvLog "bridge_error_log.txt" (LogTurnOnFailed id e0)] ++ n3).
      split; [auto|]. split.
      * rewrite E3, E2, <- !app_assoc. reflexivity.
      * rewrite !in_app_iff. simpl. auto.
Qed.

(** When the turn-on step returns, no light id is empty and the bridge has
    answered the requests of all the lights. *)
Lemma turn_on_step_returns b ids o w rs w1 :
  gather (map (Bridge.turn_on_light b) ids) o w = (Ok rs, w1) ->
  Forall (fun light_id => light_id <> "") ids /\
  forall i, (i < List.length ids)%nat ->
    exists response, replies o (net_pos w + i) = NetOk response.
Proof.
  unfold gather. revert w rs w1.
  induction ids as [|id ids IH]; intros w rs w1; simpl.
  - intros _. split; [constructor | intros i Hi; lia].
  - destruct id as [|c id].
    + unfold Bridge.turn_on_light at 1, try_catch, bind, Bridge.get_url,
        Bridge.validate_light_id, Bridge.log_error, emit, raise. simpl.
      destruct (run_tasks _ o _) as [rs' w']. simpl. discriminate.
    + rewrite turn_on_exchange. unfold exchange.
      destruct (replies o (net_pos w)) as [j|d|d] eqn:Ej.
      2,3: destruct (run_tasks _ o _) as [rs' w']; simpl; discriminate.
      match goal with |- context [run_tasks ?ts o ?w2] =>
        specialize (IH w2); destruct (run_tasks ts o w2) as [rs' w'] eqn:Er
      end.
      simpl. destruct (collect rs') as [l|e1]; [|discriminate].
      intros _. destruct (IH l w' eq_refl) as (Hne & Hr). split.
      * constructor; [discriminate | exact Hne].
      * intros [|i] Hi.
        -- rewrite Nat.add_0_r. eauto.
        -- simpl in Hr. destruct (Hr i ltac:(lia)) as [r Hri].
           exists r. rewrite <- Hri. f_equal. lia.
Qed.

(** A bridge that answers turns every light on: the requests go out in the
    order of the lights and nothing else happens. *)
Lemma turn_on_step_healthy self o w :
  all_replies_ok o ->
  Forall (fun light_id => light_id <> "") (lights self) ->
  exists rs,
    gather (map (Bridge.turn_on_light (bridge self)) (lights self)) o w
    = (Ok rs,
       mkWorld (rng_pos w) (net_pos w + List.length (lights self))
         (trace w ++ turn_on_requests self)).
Proof.
  intros Ho. unfold turn_on_requests, gather.
  generalize (lights self) as ids. intros ids Hids. revert w.
  induction Hids as [|id ids Hne _ IH]; intros w; simpl.
  - exists []. rewrite Nat.add_0_r, app_nil_r. destruct w; reflexivity.
  - destruct id as [|c id]; [congruence|].
    rewrite turn_on_exchange. unfold exchange.
    destruct (Ho (net_pos w)) as [j Hj]. rewrite Hj.
    match goal with |- context [run_tasks ?ts o ?w2] =>
      destruct (IH w2) as [rs E]; destruct (run_tasks ts o w2) as [rs' w'] eqn:Er
    end.
    simpl in E. destruct (collect rs') as [l|e1] eqn:Ec; [|discriminate].
    injection E as <- ->. exists (j :: l). simpl.
    rewrite Ec, <- app_assoc, Nat.add_succ_r. reflexivity.
Qed.

(** *** The run, step by step *)

(** A run is its turn-on step, then the draw of the preset, then the draw
    of the number of ticks, then the ticks. *)
Lemma load_effect_cases self o w :
  let step := gather (map (Bridge.turn_on_light (bridge self)) (lights self)) o w in
  let w2 := mkWorld (S (rng_pos w)) (net_pos (snd step)) (trace (snd step)) in
  let w3 := mkWorld (S (S (rng_pos w))) (net_pos (snd step)) (trace (snd step)) in
  load_effect self o w =
  match fst step with
  | Err e => (Err e, snd step)
  | Ok _ =>
      match drawn_preset self o (rng_pos w) with
      | None => (Err IndexError, snd step)
      | Some name =>
          match dict_get name (animations self) with
          | None => (Err (KeyError name), w2)
          | Some config =>
              if minimum_duration self <=? maximum_duration self
              then tick_loop self config
                     (Z.to_nat (drawn_duration self o (rng_pos w))) o w3
              else (Err ValueError, w2)
          end
      end
  end.
Proof.
  cbv zeta. unfold load_effect, bind.
  destruct (turn_on_step_quiet (bridge self) (lights self) o w) as [Hr _].
  destruct (gather _ o w) as [[rs|e] w1]; simpl in Hr |- *; [|reflexivity].
  unfold choice, drawn_preset.
  destruct (dict_keys (animations self)) as [|first others]; [reflexivity|].
  rewrite Hr. unfold lift, lookup_animation.
  match goal with |- context [dict_get ?n (animations self)] =>
    destruct (dict_get n (animations self)) as [config|]
  end; [|reflexivity].
  unfold randint_z, drawn_duration. cbn [rng_pos net_pos trace].
  destruct (minimum_duration self <=? maximum_duration self); reflexivity.
Qed.

Lemma dict_get_In k v d : dict_get k d = Some v -> In (k, v) d.
Proof.
  induction d as [|[k' v'] d IH]; simpl; [discriminate|].
  destruct (String.eqb_spec k k') as [->|Hne].
  - intros [= ->]. auto.
  - auto.
Qed.

Lemma drawn_preset_known self o p :
  animations self <> [] ->
  exists name config,
    drawn_preset self o p = Some name /\
    dict_get name (animations self) = Some config /\
    In (name, config) (animations self).
Proof.
  intros Hne. unfold drawn_preset.
  destruct (dict_keys (animations self)) as [|first others] eqn:Ek.
  - destruct (animations self); [congruence | discriminate].
  - match goal with |- context [Some ?n = Some _] => set (name := n) end.
    assert (Hin : In name (dict_keys (animations self))).
    { rewrite Ek. apply nth_In.
      pose proof (Z.mod_pos_bound (entropy o p)
                    (Z.of_nat (List.length (first :: others)))) as Hb.
      simpl List.length in *. lia. }
    destruct (dict_get_key_in name (animations self) Hin) as (config & Eg & Hm).
    exists name, config. auto.
Qed.

Lemma drawn_duration_range self o p :
  minimum_duration self <= maximum_duration self ->
  minimum_duration self <= drawn_duration self o p <= maximum_duration self.
Proof.
  intros Hle. unfold drawn_duration.
  pose proof (Z.mod_pos_bound (entropy o (S p))
                (maximum_duration self - minimum_duration self + 1)). lia.
Qed.


Lemma launch_once_catches self o w e w1 :
  load_effect self o w = (Err e, w1) ->
  launch_once self o w
  = (Ok tt, mkWorld (rng_pos w1) (net_pos w1) (trace w1 ++ caught e)).
Proof.
  intros E. unfold launch_once, try_catch. rewrite E.
  unfold bind, log_error, emit, caught. simpl. rewrite <- app_assoc. reflexivity.
Qed.

(* ------------------------------------------------------------------ *)
(** ** The claim about a light that cannot be turned on *)

(** A turn-on step that cannot succeed: a light id is empty, or the bridge
    fails one of the requests of the step. Then the run ends there. *)
Lemma failed_turn_on_step self o w :
  In "" (lights self) \/
  (exists i, (i < List.length (lights self))%nat /\
             forall response, replies o (net_pos w + i) <> NetOk response) ->
  exists light_id e w3 new,
    In light_id (lights self) /\
    load_effect self o w = (Err e, w3) /\
    trace w3 = trace w ++ new /\
    In (EvLog "bridge_error_log.txt" (LogTurnOnFailed light_id e)) new /\
    count_sleeps new = 0%nat /\
    rng_pos w3 = rng_pos w.
Proof.
  intros H.
  destruct (turn_on_step_quiet (bridge self) (lights self) o w)
    as (Hrng & quiet_new & Eq & Fq).
  destruct (gather (map (Bridge.turn_on_light (bridge self)) (lights self)) o w)
    as [[rs|e] w1] eqn:Eg; simpl in Hrng, Eq.
  - exfalso. destruct (turn_on_step_returns _ _ _ _ _ _ Eg) as (Hne & Hr).
    destruct H as [Hin | (i & Hi & Hbad)].
    + rewrite Forall_forall in Hne. apply (Hne "" Hin). reflexivity.
    + destruct (Hr i Hi) as [r Er]. apply (Hbad r Er).
  - destruct (turn_on_step_fails _ _ _ _ _ _ Eg) as (light_id & new & Hin & E & Hlog).
    assert (new = quiet_new) as ->.
    { apply (app_inv_head (trace w)). congruence. }
    exists light_id, e, w1, quiet_new.
    split; [exact Hin|]. split.
    { rewrite load_effect_cases. cbv zeta. rewrite Eg. reflexivity. }
    split; [exact E|]. split; [exact Hlog|].
    split; [apply count_sleeps_quiet, Fq | exact Hrng].
Qed.

(** C6. When the turn-on step fails, because a light id is empty or because
    the bridge fails one of the requests of the step, the run ends with the
    exception of a light that could not be turned on, before it draws a
    preset and before any tick; the bridge log has "Failed to turn on
    light" for that light. The driver catches the exception, writes it to
    the animation log, prints it and goes on with the next run; however many
    turns the loop of [launch] takes, it never raises. *)
Theorem turn_on_failure_restarts_the_run self o w :
  In "" (lights self) \/
  (exists i, (i < List.length (lights self))%nat /\
             forall response, replies o (net_pos w + i) <> NetOk response) ->
  exists light_id e w3 new,
    In light_id (lights self) /\
    load_effect self o w = (Err e, w3) /\
    trace w3 = trace w ++ new /\
    In (EvLog "bridge_error_log.txt" (LogTurnOnFailed light_id e)) new /\
    count_sleeps new = 0%nat /\
    rng_pos w3 = rng_pos w /\
    let w4 := mkWorld (rng_pos w3) (net_pos w3)
                (trace w3 ++ [EvLog "error_log.txt" (LogAnimationError e);
                              EvPrint (PrintErrorOccurred e)]) in
    launch_once self o w = (Ok tt, w4) /\
    (forall n, launch (S n) self o w = launch n self o w4) /\
    (forall turns, exists w', launch turns self o w = (Ok tt, w')).
Proof.
  intros H.
  destruct (failed_turn_on_step self o w H)
    as (light_id & e & w1 & new & Hin & Hrun & E & Hlog & Hs & Hrng).
  exists light_id, e, w1, new.
  split; [exact Hin|]. split; [exact Hrun|]. split; [exact E|].
  split; [exact Hlog|]. split; [exact Hs|]. split; [exact Hrng|]. cbv zeta.
  pose proof (launch_once_catches self o w e w1 Hrun) as Honce.
  unfold caught in Honce. split; [exact Honce|]. split.
  - intros n. cbn [launch]. unfold bind. rewrite Honce. reflexivity.
  - intros turns. apply launch_returns.
Qed.

Lemma turn_on_failure_restarts_the_run_witness :
  exists light_id e w3 new,
    In light_id ["1"; "2"] /\
    load_effect Sample.show (Sample.failing_at 1) Sample.start = (Err e, w3) /\
    trace w3 = trace Sample.start ++ new /\
    In (EvLog "bridge_error_log.txt" (LogTurnOnFailed light_id e)) new /\
    count_sleeps new = 0%nat /\
    rng_pos w3 = 0%nat /\
    let w4 := mkWorld (rng_pos w3) (net_pos w3)
                (trace w3 ++ [EvLog "error_log.txt" (LogAnimationError e);
                              EvPrint (PrintErrorOccurred e)]) in
    launch_once Sample.show (Sample.failing_at 1) Sample.start = (Ok tt, w4) /\
    (forall n,
       launch (S n) Sample.show (Sample.failing_at 1) Sample.start
       = launch n Sample.show (Sample.failing_at 1) w4) /\
    (forall turns, exists w',
       launch turns Sample.show (Sample.failing_at 1) Sample.start = (Ok tt, w')).
Proof.
  apply (turn_on_failure_restarts_the_run Sample.show (Sample.failing_at 1)
           Sample.start).
  right. exists 1%nat. split; [simpl; lia | discriminate].
Defined.

(* ------------------------------------------------------------------ *)
(** ** The claim about the number of ticks *)




(* ------------------------------------------------------------------ *)
(** ** The claim about the pace *)

(** *** The double of a quotient *)

Lemma round_half_even_near n d :
  0 <= n -> 0 < d ->
  0 <= round_half_even n d /\ 2 * Z.abs (round_half_even n d * d - n) <= d.
Proof.
  intros Hn Hd. unfold round_half_even.
  pose proof (Z.div_mod n d ltac:(lia)) as E.
  pose proof (Z.mod_pos_bound n d Hd) as B.
  pose proof (Z.div_pos n d Hn Hd) as P.
  destruct (Z.compare_spec (2 * (n mod d)) d) as [C|C|C];
    [destruct (Z.even (n / d))| |]; split; try lia; nia.
Qed.

(** [2 ^ lg <= n / d], with [lg] the exponent the rounding starts from. *)
Lemma binary64_exponent_low n d :
  0 < n -> 0 < d -> Z.log2 d - Z.log2 n <= 1021 ->
  let ex := binary64_exponent n d in
  -1074 <= ex /\ ex <= Z.log2 n - 52 /\
  (0 <= ex -> d * 2 ^ ex * 2 ^ 52 <= n) /\
  (ex < 0 -> d * 2 ^ 52 <= n * 2 ^ (- ex)).
Proof.
  intros Hn Hd Hs. cbv zeta. unfold binary64_exponent.
  pose proof (Z.log2_spec n Hn) as [An Bn].
  pose proof (Z.log2_spec d Hd) as [Ad Bd].
  pose proof (Z.log2_nonneg n) as Pn. pose proof (Z.log2_nonneg d) as Pd.
  set (a := Z.log2 n) in *. set (b := Z.log2 d) in *.
  set (test := if 0 <=? a - b then d * 2 ^ (a - b) <=? n
               else d <=? n * 2 ^ (- (a - b))).
  assert (L : let lg := if test then a - b else a - b - 1 in
              (0 <= lg -> d * 2 ^ lg <= n) /\ (lg < 0 -> d <= n * 2 ^ (- lg))).
  { cbv zeta. subst test. destruct (Z.leb_spec 0 (a - b)) as [H0|H0].
    - destruct (Z.leb_spec (d * 2 ^ (a - b)) n) as [T|T].
      + split; [auto | lia].
      + split.
        * intros H1.
          assert (E : 2 ^ a = 2 ^ (b + 1) * 2 ^ (a - b - 1)).
          { rewrite <- Z.pow_add_r by lia. f_equal. lia. }
          assert (0 < 2 ^ (a - b - 1)) by (apply Z.pow_pos_nonneg; lia).
          replace (Z.succ b) with (b + 1) in Bd by lia. nia.
        * intros H1. assert (a - b = 0) by lia.
          replace (- (a - b - 1)) with 1 by lia.
          replace a with b in * by lia.
          replace (Z.succ b) with (b + 1) in Bd by lia.
          rewrite Z.pow_add_r in Bd by lia. change (2 ^ 1) with 2 in *. lia.
    - destruct (Z.leb_spec d (n * 2 ^ (- (a - b)))) as [T|T].
      + split; [lia | auto].
      + split; [lia|]. intros _.
        assert (E : 2 ^ (b + 1) = 2 ^ a * 2 ^ (- (a - b - 1))).
        { rewrite <- Z.pow_add_r by lia. f_equal. lia. }
        assert (0 < 2 ^ (- (a - b - 1))) by (apply Z.pow_pos_nonneg; lia).
        replace (Z.succ b) with (b + 1) in Bd by lia. nia. }
  cbv zeta in L. destruct L as (L1 & L2).
  set (lg := if test then a - b else a - b - 1) in *.
  assert (Hlg : a - b - 1 <= lg <= a - b) by (subst lg; destruct test; lia).
  rewrite Z.max_l by lia.
  split; [lia|]. split; [lia|]. split.
  - intros H0. specialize (L1 ltac:(lia)).
    replace lg with (lg - 52 + 52) in L1 by lia.
    rewrite Z.pow_add_r in L1 by lia. lia.
  - intros H0. destruct (Z.le_gt_cases 0 lg) as [Hp|Hp].
    + specialize (L1 Hp).
      assert (E : 2 ^ 52 = 2 ^ lg * 2 ^ (- (lg - 52))).
      { rewrite <- Z.pow_add_r by lia. f_equal. lia. }
      assert (0 < 2 ^ (- (lg - 52))) by (apply Z.pow_pos_nonneg; lia).
      rewrite E. nia.
    + specialize (L2 Hp).
      assert (E : 2 ^ (- (lg - 52)) = 2 ^ (- lg) * 2 ^ 52).
      { rewrite <- Z.pow_add_r by lia. f_equal. lia. }
      rewrite E.
      assert (0 < 2 ^ 52) by (apply Z.pow_pos_nonneg; lia). nia.
Qed.

Lemma binary64_exponent_high n d :
  0 < n -> 0 < d -> binary64_exponent n d <= Z.max (Z.log2 n - 52) (-1074).
Proof.
  intros Hn Hd. unfold binary64_exponent.
  pose proof (Z.log2_nonneg d).
  destruct (if 0 <=? Z.log2 n - Z.log2 d
            then d * 2 ^ (Z.log2 n - Z.log2 d) <=? n
            else d <=? n * 2 ^ (- (Z.log2 n - Z.log2 d))); lia.
Qed.

(** A quotient below [2 ^ 1023] has a double. *)
Lemma binary64_pos_fits n d :
  0 < n < 2 ^ 1023 -> 0 < d -> exists q, binary64_pos n d = Some q.
Proof.
  intros [Hn Hb] Hd. unfold binary64_pos.
  pose proof (binary64_exponent_high n d Hn Hd) as Hex.
  set (ex := binary64_exponent n d) in *.
  destruct (Z.leb_spec 0 ex) as [H0|H0]; [|eauto].
  assert (0 < 2 ^ ex) by (apply Z.pow_pos_nonneg; lia).
  destruct (round_half_even_near n (d * 2 ^ ex)) as (Pm & Nm); [lia | nia |].
  set (m := round_half_even n (d * 2 ^ ex)) in *.
  assert (Hp : 2 ^ ex <= n).
  { pose proof (Z.log2_spec n Hn) as [An _].
    assert (2 ^ ex <= 2 ^ Z.log2 n) by (apply Z.pow_le_mono_r; lia). lia. }
  cbv zeta. destruct (Z.leb_spec (2 ^ 1024) (m * 2 ^ ex)) as [Hv|Hv]; [|eauto].
  exfalso. change (2 ^ 1024) with (2 * 2 ^ 1023) in Hv. nia.
Qed.

Lemma binary64_pos_near (n d : positive) q :
  Z.log2 (Zpos d) - Z.log2 (Zpos n) <= 1021 ->
  binary64_pos (Zpos n) (Zpos d) = Some q ->
  (Qabs (q - (Zpos n # d)) <= (Zpos n # d) * (1 # 9007199254740992))%Q.
Proof.
  intros Hs. unfold binary64_pos.
  destruct (binary64_exponent_low (Zpos n) (Zpos d) ltac:(lia) ltac:(lia) Hs)
    as (_ & _ & Lp & Ln).
  set (ex := binary64_exponent (Zpos n) (Zpos d)) in *.
  destruct (Z.leb_spec 0 ex) as [H0|H0].
  - cbv zeta.
    assert (0 < 2 ^ ex) by (apply Z.pow_pos_nonneg; lia).
    destruct (round_half_even_near (Zpos n) (Zpos d * 2 ^ ex)) as (Pm & Nm);
      [lia | nia |].
    set (m := round_half_even (Zpos n) (Zpos d * 2 ^ ex)) in *.
    destruct (2 ^ 1024 <=? m * 2 ^ ex); [discriminate|]. intros [= <-].
    specialize (Lp H0).
    unfold Qle, Qabs, Qminus, Qplus, Qopp, Qmult, inject_Z. cbn [Qnum Qden].
    rewrite !Pos2Z.inj_mul.
    change (2 ^ 52) with 4503599627370496 in Lp.
    nia.
  - assert (Hp : 0 < 2 ^ (- ex)) by (apply Z.pow_pos_nonneg; lia).
    destruct (round_half_even_near (Zpos n * 2 ^ (- ex)) (Zpos d)) as (Pm & Nm);
      [nia | lia |].
    set (m := round_half_even (Zpos n * 2 ^ (- ex)) (Zpos d)) in *.
    intros Hq. replace q with (Qred (m # Z.to_pos (2 ^ (- ex)))) by congruence.
    rewrite Qred_correct.
    specialize (Ln H0).
    unfold Qle, Qabs, Qminus, Qplus, Qopp, Qmult. cbn [Qnum Qden].
    rewrite !Pos2Z.inj_mul, Z2Pos.id by exact Hp.
    change (2 ^ 52) with 4503599627370496 in Ln.
    set (P := 2 ^ (- ex)) in *. nia.
Qed.

(** The double of [z / 1000], for an int [z]: it is there up to
    [2 ^ 1023], and within [2 ^ -53] of the quotient, relatively. *)
Lemma binary64_thousandth z :
  (Z.abs z < 2 ^ 1023 -> exists q, binary64 (z # 1000) = Some q) /\
  (forall q, binary64 (z # 1000) = Some q ->
     (Qabs (q - (z # 1000)) <= Qabs (z # 1000) * (1 # 9007199254740992))%Q).
Proof.
  assert (Hs : forall n, Z.log2 1000 - Z.log2 (Zpos n) <= 1021).
  { intros n. pose proof (Z.log2_nonneg (Zpos n)).
    change (Z.log2 1000) with 9. lia. }
  unfold binary64. cbn [Qnum Qden]. destruct z as [|n|n].
  - split; [eauto|]. intros q [= <-]. unfold Qle. simpl. lia.
  - split.
    + intros Hb. apply binary64_pos_fits; lia.
    + intros q Hq. apply (binary64_pos_near n 1000 q (Hs n) Hq).
  - split.
    + intros Hb. destruct (binary64_pos_fits (Zpos n) 1000) as [q Hq]; [lia..|].
      rewrite Hq. simpl. eauto.
    + intros q Hq.
      destruct (binary64_pos (Zpos n) 1000) as [q'|] eqn:Eq; [|discriminate].
      injection Hq as <-.
      pose proof (binary64_pos_near n 1000 q' (Hs n) Eq) as H.
      change (Z.neg n # 1000)%Q with (- (Zpos n # 1000))%Q.
      setoid_replace (- q' - - (Z.pos n # 1000))%Q
        with (- (q' - (Z.pos n # 1000)))%Q by ring.
      rewrite !Qabs_opp. exact H.
Qed.

(** What Python gives for some quotients: [(50 / 1000).as_integer_ratio()],
    and so on; [10 ** 400 / 1000] and [(2 ** 1024 - 2 ** 970) * 1000 / 1000]
    are an [OverflowError], one less than the latter is the largest double. *)
Lemma binary64_samples :
  binary64 (50 # 1000) = Some (3602879701896397 # 72057594037927936)%Q /\
  binary64 (1 # 1000) = Some (1152921504606847 # 1152921504606846976)%Q /\
  binary64 (-50 # 1000) = Some (-3602879701896397 # 72057594037927936)%Q /\
  binary64 (2000 # 1000) = Some (2 # 1)%Q /\
  binary64 (9007199254740993 # 1000) = Some (1152921504606847 # 128)%Q /\
  binary64 (10 ^ 400 # 1000) = None /\
  binary64 ((2 ^ 1024 - 2 ^ 970) * 1000 # 1000) = None /\
  binary64 ((2 ^ 1024 - 2 ^ 970) * 1000 - 1 # 1000)
  = Some (inject_Z (2 ^ 1024 - 2 ^ 971)).
Proof. repeat (split; [vm_compute; reflexivity|]). vm_compute. reflexivity. Qed.

Lemma pace_fits_below lo z :
  int_value lo = Some z -> Z.abs z < 2 ^ 1023 -> pace_fits lo.
Proof.
  intros Hz Hb. destruct (proj1 (binary64_thousandth z) Hb) as [q Hq].
  exists z, q. auto.
Qed.

Lemma sleeps_app t1 t2 : sleeps (t1 ++ t2) = sleeps t1 ++ sleeps t2.
Proof. apply filter_app. Qed.

Lemma sleeps_quiet new : Forall quiet new -> sleeps new = [].
Proof.
  unfold sleeps. induction 1 as [|e new He _ IH]; simpl; [reflexivity|].
  rewrite He. exact IH.
Qed.

(** A tick that returns has slept once, at the end, for [speed.min / 1000]
    of its preset; a tick that raises has not slept. *)
Lemma tick_sleeps self config o w :
  exists new,
    trace (snd (tick self config o w)) = trace w ++ new /\
    match fst (tick self config o w) with
    | Ok _ =>
        exists lo s,
          getitem2 config "speed" "min" = Ok lo /\ truediv_1000 lo = Ok s /\
          sleeps new = [EvSleep s]
    | Err _ => sleeps new = []
    end.
Proof.
  unfold tick, bind.
  destruct (emits_make_tasks quiet quiet_others self config (lights self) o w)
    as [(n1 & E1 & F1) HQ].
  destruct (make_tasks self config (lights self) o w) as [[tasks|e] w1];
    simpl in E1, HQ |- *.
  2: { exists n1. split; [exact E1 | apply sleeps_quiet, F1]. }
  destruct (emits_gather quiet tasks (HQ tasks eq_refl) o w1) as [(n2 & E2 & F2) _].
  assert (E12 : forall w2, trace w2 = trace w1 ++ n2 ->
                  trace w2 = trace w ++ (n1 ++ n2)).
  { intros w2 ->. rewrite E1, app_assoc. reflexivity. }
  assert (S12 : sleeps (n1 ++ n2) = []).
  { apply sleeps_quiet, Forall_app; auto. }
  destruct (gather tasks o w1) as [[rs|e] w2]; simpl in E2 |- *.
  2: { exists (n1 ++ n2). auto. }
  unfold lift. destruct (getitem2 config "speed" "min") as [lo|e]; simpl.
  2: { exists (n1 ++ n2). auto. }
  destruct (truediv_1000 lo) as [s|e] eqn:Hs; simpl.
  2: { exists (n1 ++ n2). auto. }
  exists ((n1 ++ n2) ++ [EvSleep s]). split.
  - rewrite (E12 w2 E2), <- !app_assoc. reflexivity.
  - exists lo, s. split; [reflexivity|]. split; [exact Hs|].
    rewrite sleeps_app, S12. reflexivity.
Qed.

Lemma tick_loop_sleeps self config n o w :
  exists new k,
    trace (snd (tick_loop self config n o w)) = trace w ++ new /\
    match fst (tick_loop self config n o w) with
    | Ok _ => k = n
    | Err _ => (k < n)%nat
    end /\
    (k = 0%nat /\ sleeps new = [] \/
     exists lo s,
       getitem2 config "speed" "min" = Ok lo /\ truediv_1000 lo = Ok s /\
       sleeps new = repeat (EvSleep s) k).
Proof.
  revert w. induction n as [|n IH]; intros w; cbn [tick_loop].
  - exists [], 0%nat. simpl. rewrite app_nil_r. auto.
  - unfold bind. destruct (tick_sleeps self config o w) as (n1 & E1 & S1).
    destruct (tick self config o w) as [[[]|e] w1]; simpl in E1, S1 |- *.
    + destruct S1 as (lo & s & Hlo & Hs & S1).
      destruct (IH w1) as (n2 & k & E2 & R & S2).
      exists (n1 ++ n2), (S k). split; [rewrite E2, E1, app_assoc; reflexivity|].
      split; [destruct (fst (tick_loop self config n o w1)); lia|].
      right. exists lo, s. split; [exact Hlo|]. split; [exact Hs|].
      rewrite sleeps_app, S1. simpl. f_equal.
      destruct S2 as [(-> & S2) | (lo' & s' & Hlo' & Hs' & S2)];
        rewrite S2; [reflexivity|].
      congruence.
    + exists n1, 0%nat. split; [exact E1|]. split; [lia|]. left. auto.
Qed.

Lemma well_formed_pace config lo s :
  well_formed_preset config ->
  getitem2 config "speed" "min" = Ok lo -> truediv_1000 lo = Ok s ->
  exists z hi q,
    preset_range config "speed" = Some (z, hi) /\
    binary64 (z # 1000) = Some q /\ s = FFin q.
Proof.
  intros Hw Hlo Hs.
  destruct (well_formed_preset_ranges config Hw) as ((z & hi & R & _) & _).
  destruct (preset_range_inv _ _ _ _ R) as (a & b & Ea & _ & Ia & _).
  assert (a = lo) as -> by congruence.
  rewrite (truediv_1000_int_value lo z Ia) in Hs. unfold int_truediv_1000 in Hs.
  destruct (binary64 (z # 1000)) as [q|] eqn:Eq; [|discriminate].
  injection Hs as <-. exists z, hi, q. auto.
Qed.

(** C7. Every tick that completes ends with one sleep, and every sleep of
    a tick loop lasts the same time: [speed.min / 1000] of its preset, as
    Python divides an int, so the double of that quotient. A loop of [n]
    ticks that returns has slept [n] times, one that raises fewer; when the
    quotient is too large for a double there is no sleep at all. So it is
    for a run, with the preset and the number of ticks it has drawn. The
    double is there for every [speed.min] below [2 ^ 1023] in absolute
    value, and differs from the quotient by no more than [2 ^ -53] of it.
    The loader wants a [speed] range with both bounds, in order; after that
    [speed.max] is not read again: with any other values for the
    [speed.max] of the presets, the loop of [launch] does the same and ends
    in the same world. *)
Theorem pace_is_speed_min :
  (forall self config n o w lo z,
     getitem2 config "speed" "min" = Ok lo -> int_value lo = Some z ->
     exists new k,
       trace (snd (tick_loop self config n o w)) = trace w ++ new /\
       match fst (tick_loop self config n o w) with
       | Ok _ => k = n
       | Err _ => (k < n)%nat
       end /\
       match binary64 (z # 1000) with
       | Some q => sleeps new = repeat (EvSleep (FFin q)) k
       | None => k = 0%nat /\ sleeps new = []
       end) /\
  (forall self o w,
     Forall well_formed_entry (animations self) ->
     exists new k,
       trace (snd (load_effect self o w)) = trace w ++ new /\
       (forall w', load_effect self o w = (Ok tt, w') ->
          k = Z.to_nat (drawn_duration self o (rng_pos w))) /\
       (k = 0%nat /\ sleeps new = [] \/
        exists name config z hi q,
          drawn_preset self o (rng_pos w) = Some name /\
          dict_get name (animations self) = Some config /\
          preset_range config "speed" = Some (z, hi) /\
          binary64 (z # 1000) = Some q /\
          sleeps new = repeat (EvSleep (FFin q)) k)) /\
  (forall z,
     (Z.abs z < 2 ^ 1023 -> exists q, binary64 (z # 1000) = Some q) /\
     (forall q, binary64 (z # 1000) = Some q ->
        (Qabs (q - (z # 1000)) <= Qabs (z # 1000) * (1 # 9007199254740992))%Q)) /\
  (forall animation_file file items,
     load_and_validate_animations animation_file file = Ok items ->
     Forall (fun entry => well_formed_range (snd entry) "speed") items) /\
  (forall v config old,
     getitem2 config "speed" "max" = Ok old ->
     getitem2 (with_speed_max v config) "speed" "max" = Ok v) /\
  (forall v self turns o w,
     launch turns (retuned v self) o w = launch turns self o w).
Proof.
  split; [|split; [|split; [exact binary64_thousandth|split; [|split]]]].
  - intros self config n o w lo z Hlo Hz.
    destruct (tick_loop_sleeps self config n o w) as (new & k & E & R & S).
    exists new, k. split; [exact E|]. split; [exact R|].
    destruct S as [(-> & S) | (lo' & s & Hlo' & Hs & S)].
    + rewrite S. destruct (binary64 (z # 1000)); auto.
    + assert (lo' = lo) as -> by congruence.
      rewrite (truediv_1000_int_value lo z Hz) in Hs. unfold int_truediv_1000 in Hs.
      destruct (binary64 (z # 1000)) as [q|]; [|discriminate].
      injection Hs as <-. exact S.
  - intros self o w Hwf. rewrite load_effect_cases. cbv zeta.
    destruct (turn_on_step_quiet (bridge self) (lights self) o w)
      as (_ & n1 & E1 & F1).
    pose proof (sleeps_quiet n1 F1) as S1.
    destruct (gather _ o w) as [[rs|e] w1]; simpl in E1 |- *.
    2: { exists n1, 0%nat. split; [exact E1|]. split; [discriminate | auto]. }
    destruct (drawn_preset self o (rng_pos w)) as [name|].
    2: { exists n1, 0%nat. split; [exact E1|]. split; [discriminate | auto]. }
    destruct (dict_get name (animations self)) as [config|] eqn:Eg.
    2: { exists n1, 0%nat. split; [exact E1|]. split; [discriminate | auto]. }
    destruct (minimum_duration self <=? maximum_duration self).
    2: { exists n1, 0%nat. split; [exact E1|]. split; [discriminate | auto]. }
    assert (Hw : well_formed_preset config).
    { rewrite Forall_forall in Hwf. apply (Hwf (name, config)).
      apply dict_get_In, Eg. }
    match goal with |- context [tick_loop self config ?d o ?w3] =>
      destruct (tick_loop_sleeps self config d o w3) as (n2 & k & E2 & R & S2);
      destruct (tick_loop self config d o w3) as [r w4]
    end; simpl in E2, R |- *.
    exists (n1 ++ n2), k. split; [rewrite E2, E1, app_assoc; reflexivity|].
    split; [intros w' [= -> _]; exact R|].
    rewrite sleeps_app, S1. simpl.
    destruct S2 as [(-> & S2) | (lo & s & Hlo & Hs & S2)]; [left; auto|].
    right. destruct (well_formed_pace config lo s Hw Hlo Hs)
      as (z & hi & q & Rz & Eq & ->).
    exists name, config, z, hi, q. auto.
  - intros animation_file file items H.
    pose proof (load_returns_parsed _ _ _ H) as ->.
    cbn [load_and_validate_animations] in H. unfold bind_res in H.
    destruct (check_items items) as [[]|] eqn:E; [|discriminate].
    apply check_items_ok_iff in E.
    eapply Forall_impl; [|exact E].
    intros entry Hw. unfold well_formed_preset, required_keys in Hw.
    inversion Hw; assumption.
  - apply with_speed_max_sets.
  - intros v self turns o w. apply launch_retuned.
Qed.

Lemma pace_is_speed_min_witness :
  sleeps (trace (snd (tick_loop Sample.show Sample.glow 2
                        Sample.steady Sample.start)))
  = [EvSleep (FFin (3602879701896397 # 72057594037927936));
     EvSleep (FFin (3602879701896397 # 72057594037927936))] /\
  Forall (fun entry => well_formed_range (snd entry) "speed")
    [("pulse", Sample.pulse)] /\
  getitem2 (with_speed_max (JInt 9000) Sample.pulse) "speed" "max"
  = Ok (JInt 9000) /\
  launch 2 (retuned (fun _ => JInt 9000) Sample.show) Sample.steady Sample.start
  = launch 2 Sample.show Sample.steady Sample.start.
Proof.
  split; [|split; [|split]].
  - destruct (proj1 pace_is_speed_min Sample.show Sample.glow 2%nat
                Sample.steady Sample.start (JInt 50) 50 eq_refl eq_refl)
      as (new & k & E & R & S).
    rewrite E. change (trace Sample.start ++ new) with new.
    assert (Ok2 : fst (tick_loop Sample.show Sample.glow 2
                         Sample.steady Sample.start) = Ok tt)
      by (vm_compute; reflexivity).
    rewrite Ok2 in R. subst k.
    assert (B : binary64 (50 # 1000)
                = Some (3602879701896397 # 72057594037927936)%Q)
      by (vm_compute; reflexivity).
    rewrite B in S. exact S.
  - apply (proj1 (proj2 (proj2 (proj2 pace_is_speed_min))) "animation.json"
             (Parsed (JObj [("pulse", Sample.pulse)]))).
    reflexivity.
  - apply (proj1 (proj2 (proj2 (proj2 (proj2 pace_is_speed_min))))
             (JInt 9000) Sample.pulse (JInt 50)).
    reflexivity.
  - apply (proj2 (proj2 (proj2 (proj2 (proj2 pace_is_speed_min))))).
Defined.

(* ------------------------------------------------------------------ *)
(** ** Runs that cannot start, turn after turn *)

Lemma count_invalid_light_ids_app t1 t2 :
  count_invalid_light_ids (t1 ++ t2)
  = (count_invalid_light_ids t1 + count_invalid_light_ids t2)%nat.
Proof.
  unfold count_invalid_light_ids. rewrite filter_app, length_app. reflexivity.
Qed.

(** The turn-on step writes "Invalid light ID" once for each empty id,
    whatever the bridge answers to the requests of the other lights. *)
Lemma turn_on_step_refusals b ids o w :
  exists new,
    trace (snd (gather (map (Bridge.turn_on_light b) ids) o w)) = trace w ++ new /\
    count_invalid_light_ids new = count_empty ids.
Proof.
  unfold gather.
  assert (G : exists new,
            trace (snd (run_tasks (map (Bridge.turn_on_light b) ids) o w))
            = trace w ++ new /\
            count_invalid_light_ids new = count_empty ids).
  { revert w. induction ids as [|id ids IH]; intros w; simpl.
    - exists []. rewrite app_nil_r. auto.
    - assert (T : exists n1,
                trace (snd (Bridge.turn_on_light b id o w)) = trace w ++ n1 /\
                count_invalid_light_ids n1
                = (if String.eqb id "" then 1 else 0)%nat).
      { destruct id as [|c id].
        - unfold Bridge.turn_on_light, try_catch, bind, Bridge.get_url,
            Bridge.validate_light_id, Bridge.log_error, emit, raise. simpl.
          rewrite <- app_assoc. eexists. split; reflexivity.
        - rewrite turn_on_exchange. unfold exchange.
          destruct (replies o (net_pos w)); simpl; eexists; split; reflexivity. }
      destruct T as (n1 & E1 & C1).
      destruct (Bridge.turn_on_light b id o w) as [r w1]. simpl in E1.
      destruct (IH w1) as (n2 & E2 & C2).
      destruct (run_tasks (map (Bridge.turn_on_light b) ids) o w1) as [rs w2].
      simpl in E2 |- *. exists (n1 ++ n2). split.
      + rewrite E2, E1, app_assoc. reflexivity.
      + rewrite count_invalid_light_ids_app, C1, C2. unfold count_empty. simpl.
        destruct (String.eqb id ""); reflexivity. }
  destruct (run_tasks (map (Bridge.turn_on_light b) ids) o w) as [rs w1].
  exact G.
Qed.

Lemma empty_id_run_refused self o w :
  In "" (lights self) ->
  exists e w1 new,
    load_effect self o w = (Err e, w1) /\
    trace w1 = trace w ++ new /\
    count_invalid_light_ids new = count_empty (lights self).
Proof.
  intros Hin. rewrite load_effect_cases. cbv zeta.
  destruct (turn_on_step_refusals (bridge self) (lights self) o w)
    as (new & E & C).
  destruct (gather _ o w) as [[rs|e] w1] eqn:Eg; simpl in E |- *.
  - exfalso. destruct (turn_on_step_returns _ _ _ _ _ _ Eg) as (Hne & _).
    rewrite Forall_forall in Hne. apply (Hne "" Hin). reflexivity.
  - exists e, w1, new. auto.
Qed.

Lemma stalled_run self o w :
  all_replies_ok o ->
  Forall (fun light_id => light_id <> "") (lights self) ->
  animations self = [] \/ maximum_duration self < minimum_duration self ->
  exists w1,
    load_effect self o w = (Err (stalled_by self), w1) /\
    trace w1 = trace w ++ turn_on_requests self.
Proof.
  intros Ho Hids Hstall. rewrite load_effect_cases. cbv zeta.
  destruct (turn_on_step_healthy self o w Ho Hids) as [rs Eg]. rewrite Eg.
  cbn [fst snd trace net_pos]. unfold stalled_by.
  destruct (animations self) as [|entry rest] eqn:Ea.
  - unfold drawn_preset. rewrite Ea. simpl. eexists. split; reflexivity.
  - destruct Hstall as [|Hlt]; [discriminate|].
    destruct (drawn_preset_known self o (rng_pos w)) as (name & config & Ed & Ec & _).
    { rewrite Ea. discriminate. }
    rewrite Ed. rewrite <- Ea, Ec.
    destruct (Z.leb_spec (minimum_duration self) (maximum_duration self)); [lia|].
    eexists. split; reflexivity.
Qed.

Lemma launch_stalls self turns o w :
  all_replies_ok o ->
  Forall (fun light_id => light_id <> "") (lights self) ->
  animations self = [] \/ maximum_duration self < minimum_duration self ->
  exists w',
    launch turns self o w = (Ok tt, w') /\
    trace w' = trace w ++
      List.concat (repeat (turn_on_requests self ++ caught (stalled_by self)) turns).
Proof.
  intros Ho Hids Hstall. revert w. induction turns as [|n IH]; intros w;
    cbn [launch repeat List.concat].
  - exists w. rewrite app_nil_r. auto.
  - unfold bind. destruct (stalled_run self o w Ho Hids Hstall) as (w1 & E1 & T1).
    rewrite (launch_once_catches self o w _ w1 E1).
    match goal with |- context [launch n self o ?w2] =>
      destruct (IH w2) as (w' & L & T)
    end.
    exists w'. split; [exact L|]. rewrite T. simpl. rewrite T1, <- !app_assoc.
    reflexivity.
Qed.

Lemma launch_refuses self turns o w :
  In "" (lights self) ->
  exists w' new,
    launch turns self o w = (Ok tt, w') /\
    trace w' = trace w ++ new /\
    count_invalid_light_ids new = (turns * count_empty (lights self))%nat.
Proof.
  intros Hin. revert w. induction turns as [|n IH]; intros w; cbn [launch].
  - exists w, []. rewrite app_nil_r. auto.
  - unfold bind.
    destruct (empty_id_run_refused self o w Hin) as (e & w1 & n1 & E1 & T1 & C1).
    rewrite (launch_once_catches self o w e w1 E1).
    match goal with |- context [launch n self o ?w2] =>
      destruct (IH w2) as (w' & n2 & L & T & C)
    end.
    exists w', (n1 ++ caught e ++ n2). split; [exact L|]. split.
    + rewrite T. simpl. rewrite T1, <- !app_assoc. reflexivity.
    + rewrite !count_invalid_light_ids_app, C1, C. simpl. lia.
Qed.

Lemma stalled_turns_requests self e turns :
  filter is_put (List.concat (repeat (turn_on_requests self ++ caught e) turns))
  = List.concat (repeat (turn_on_requests self) turns) /\
  filter is_animation_error
    (List.concat (repeat (turn_on_requests self ++ caught e) turns))
  = repeat (EvLog "error_log.txt" (LogAnimationError e)) turns.
Proof.
  assert (R : filter is_put (turn_on_requests self) = turn_on_requests self /\
              filter is_animation_error (turn_on_requests self) = []).
  { unfold turn_on_requests. induction (lights self) as [|id ids (IH1 & IH2)];
      simpl; [auto|]. rewrite IH1, IH2. auto. }
  destruct R as (R1 & R2).
  induction turns as [|n (IH1 & IH2)]; cbn [repeat List.concat]; [auto|].
  rewrite !filter_app, IH1, IH2, R1, R2. simpl. rewrite app_nil_r. auto.
Qed.

(** X13. With no preset, with an empty light id among the lights, or with
    a minimum duration above the maximum, the driver never sleeps: each turn
    of its loop runs the turn-on step again, raises, writes one "Animation
    error" line and goes straight to the next turn. With a bridge that
    answers and no empty id, the requests of [turns] turns are the turn-on
    request of every light, [turns] times over, and nothing else, and the
    lines of the driver all name the same exception: [IndexError] when there
    is no preset, [ValueError] for the duration. With an empty id, each
    turn writes "Invalid light ID" for every empty id of the list. *)
Theorem driver_spins_when_runs_cannot_start self turns o w :
  (animations self = [] \/ In "" (lights self) \/
   maximum_duration self < minimum_duration self ->
   exists w',
     launch turns self o w = (Ok tt, w') /\
     count_sleeps (trace w') = count_sleeps (trace w) /\
     count_animation_errors (trace w')
     = (count_animation_errors (trace w) + turns)%nat) /\
  (all_replies_ok o ->
   Forall (fun light_id => light_id <> "") (lights self) ->
   animations self = [] \/ maximum_duration self < minimum_duration self ->
   exists w' new,
     launch turns self o w = (Ok tt, w') /\
     trace w' = trace w ++ new /\
     Permutation (filter is_put new)
       (List.concat (repeat (turn_on_requests self) turns)) /\
     count_puts new = (turns * List.length (lights self))%nat /\
     filter is_animation_error new
     = repeat
         (EvLog "error_log.txt"
            (LogAnimationError
               (match animations self with
                | [] => IndexError
                | _ :: _ => ValueError
                end)))
         turns) /\
  (In "" (lights self) ->
   exists w' new,
     launch turns self o w = (Ok tt, w') /\
     trace w' = trace w ++ new /\
     count_invalid_light_ids new = (turns * count_empty (lights self))%nat).
Proof.
  split; [|split].
  - intros H. apply launch_spins. intros o0 w0. destruct H as [H|[H|H]].
    + apply no_preset_run_fails, H.
    + destruct (empty_id_run_fails self o0 w0 H) as (e & w' & new & E & T & F & _).
      exists e, w', new. auto.
    + apply inverted_duration_run_fails, H.
  - intros Ho Hids Hstall.
    destruct (launch_stalls self turns o w Ho Hids Hstall) as (w' & L & T).
    destruct (stalled_turns_requests self (stalled_by self) turns) as (F1 & F2).
    eexists w', _. split; [exact L|]. split; [exact T|].
    split; [rewrite F1; apply Permutation_refl|]. split; [|exact F2].
    unfold count_puts. rewrite F1. clear.
    induction turns as [|n IH]; cbn [repeat List.concat]; [reflexivity|].
    rewrite length_app, IH. unfold turn_on_requests. rewrite length_map.
    reflexivity.
  - apply launch_refuses.
Qed.

Lemma driver_spins_when_runs_cannot_start_witness :
  (exists w',
     launch 5 (mkAnimation Sample.hub ["1"; "2"] 3 3 []) Sample.steady Sample.start
     = (Ok tt, w') /\
     count_sleeps (trace w') = 0%nat /\
     count_animation_errors (trace w') = 5%nat) /\
  (exists w' new,
     launch 5 (mkAnimation Sample.hub ["1"; "2"] 3 3 []) Sample.steady Sample.start
     = (Ok tt, w') /\
     trace w' = trace Sample.start ++ new /\
     Permutation (filter is_put new)
       (List.concat
          (repeat
             [EvPut "http://192.168.1.2/api/token/lights/1/state"
                (JObj [("on", JBool true)]);
              EvPut "http://192.168.1.2/api/token/lights/2/state"
                (JObj [("on", JBool true)])] 5)) /\
     count_puts new = 10%nat /\
     filter is_animation_error new
     = repeat (EvLog "error_log.txt" (LogAnimationError IndexError)) 5) /\
  (exists w' new,
     launch 3 (mkAnimation Sample.hub (split_on "|" "1||2") 3 3
                 [("pulse", Sample.pulse)]) (Sample.failing_at 0) Sample.start
     = (Ok tt, w') /\
     trace w' = trace Sample.start ++ new /\
     count_invalid_light_ids new = 3%nat).
Proof.
  split; [|split].
  - apply (proj1 (driver_spins_when_runs_cannot_start
                    (mkAnimation Sample.hub ["1"; "2"] 3 3 []) 5
                    Sample.steady Sample.start)).
    left. reflexivity.
  - apply (proj1 (proj2 (driver_spins_when_runs_cannot_start
                           (mkAnimation Sample.hub ["1"; "2"] 3 3 []) 5
                           Sample.steady Sample.start))).
    + exact steady_answers.
    + repeat constructor; discriminate.
    + left. reflexivity.
  - apply (proj2 (proj2 (driver_spins_when_runs_cannot_start
                           (mkAnimation Sample.hub (split_on "|" "1||2") 3 3
                              [("pulse", Sample.pulse)]) 3
                           (Sample.failing_at 0) Sample.start))).
    simpl. auto.
Defined.

(* ------------------------------------------------------------------ *)
(** ** The requests of a run in which nothing fails *)

Lemma turn_on_requests_counts self :
  count_sleeps (turn_on_requests self) = 0%nat /\
  count_puts (turn_on_requests self) = List.length (lights self).
Proof.
  unfold turn_on_requests, count_sleeps, count_puts.
  induction (lights self) as [|id ids (IH1 & IH2)]; simpl; [auto|].
  split; [exact IH1 | rewrite IH2; reflexivity].
Qed.

Lemma color_put self url data :
  body_keys data = ["hue"; "bri"; "sat"] ->
  emits no_request_but_color (fun _ => True) (Http.put self url data).
Proof.
  intros Hk.
  unfold Http.put, Http.validate_url, Http.validate_payload, Http.log_error.
  repeat first
    [ apply emits_bind with (Q1 := fun _ => True); [|intros ? _]
    | match goal with |- emits _ _ (if ?c then _ else _) => destruct c end
    | match goal with |- emits _ _ (match ?c with _ => _ end) => destruct c end
    | apply emits_emit; [intros ? ? [= <- <-]; exact Hk | exact I]
    | apply emits_emit; [intros ? ? [=] | exact I]
    | apply emits_raise
    | apply emits_ret; exact I
    | apply emits_next_reply ].
Qed.

Lemma color_set_light_color b light_id h br s :
  emits no_request_but_color (fun _ => True)
    (Bridge.set_light_color b light_id h br s).
Proof.
  unfold Bridge.set_light_color, Bridge.validate_color_values, Bridge.get_url,
    Bridge.validate_light_id, Bridge.log_error.
  repeat first
    [ apply color_put; reflexivity
    | apply emits_bind with (Q1 := fun _ => True); [|intros ? _]
    | apply emits_try; [|intros ?]
    | match goal with |- emits _ _ (if ?c then _ else _) => destruct c end
    | match goal with |- emits _ _ (match ?c with _ => _ end) => destruct c end
    | apply emits_emit; [intros ? ? [=] | exact I]
    | apply emits_raise
    | apply emits_ret; exact I ].
Qed.

Lemma color_make_tasks self config ids :
  emits no_request_but_color
    (Forall (emits no_request_but_color (fun _ => True)))
    (make_tasks self config ids).
Proof.
  induction ids as [|light_id ids IH]; cbn [make_tasks].
  - apply emits_ret. constructor.
  - apply emits_bind
      with (Q1 := Forall (emits no_request_but_color (fun _ => True))).
    + apply emits_try.
      * apply emits_bind with (Q1 := fun _ => True);
          [apply emits_generate_random_state | intros st _].
        apply emits_bind with (Q1 := fun _ => True); [|intros ? _].
        -- apply emits_emit; [intros ? ? [=] | exact I].
        -- apply emits_ret. constructor; [apply color_set_light_color | constructor].
      * intros e. apply emits_bind with (Q1 := fun _ => True); [|intros ? _].
        -- apply emits_emit; [intros ? ? [=] | exact I].
        -- apply emits_ret. constructor.
    + intros made Hmade.
      apply emits_bind
        with (Q1 := Forall (emits no_request_but_color (fun _ => True)));
        [exact IH|].
      intros more Hmore. apply emits_ret. apply Forall_app; auto.
Qed.

Lemma color_tick_loop self config n :
  emits no_request_but_color (fun _ => True) (tick_loop self config n).
Proof.
  induction n as [|n IH]; cbn [tick_loop].
  - apply emits_ret. exact I.
  - apply emits_bind with (Q1 := fun _ => True); [|intros _ _; exact IH].
    unfold tick.
    apply emits_bind
      with (Q1 := Forall (emits no_request_but_color (fun _ => True)));
      [apply color_make_tasks|].
    intros tasks Ht.
    apply emits_bind with (Q1 := fun _ => True); [apply emits_gather; exact Ht|].
    intros _ _.
    apply emits_bind with (Q1 := fun _ => True); [apply emits_lift; auto|].
    intros lo _.
    apply emits_bind with (Q1 := fun _ => True); [apply emits_lift; auto|].
    intros s _. unfold sleep. apply emits_emit; [intros ? ? [=] | exact I].
Qed.

(** X18. In a run in which nothing fails (there is a preset, the bounds of
    the duration are in order, the bridge answers every request, no light
    id is empty, every preset is playable), the bridge first gets the
    turn-on PUT of each light, once, and then the PUTs of the ticks, which
    all set a color: each tick makes one for each light and sleeps once.
    With [n] lights, the [d] ticks of the run make [n * d] PUTs for [d]
    sleeps, and the run [n * (1 + d)] PUTs, [d] being the number of ticks
    the run has drawn, between the two bounds of the duration. *)
Theorem requests_of_a_run self o w :
  all_replies_ok o ->
  Forall (fun light_id => light_id <> "") (lights self) ->
  animations self <> [] ->
  Forall (fun entry => playable_preset (snd entry)) (animations self) ->
  minimum_duration self <= maximum_duration self ->
  let d := drawn_duration self o (rng_pos w) in
  let n := List.length (lights self) in
  minimum_duration self <= d <= maximum_duration self /\
  (exists w' ons ticks,
     load_effect self o w = (Ok tt, w') /\
     trace w' = trace w ++ ons ++ ticks /\
     Permutation ons (turn_on_requests self) /\
     Forall no_request_but_color ticks /\
     count_sleeps ticks = Z.to_nat d /\
     count_puts ticks = (n * Z.to_nat d)%nat /\
     count_sleeps (trace w') = (count_sleeps (trace w) + Z.to_nat d)%nat /\
     count_puts (trace w') = (count_puts (trace w) + n * (1 + Z.to_nat d))%nat) /\
  (forall name config w0,
     In (name, config) (animations self) ->
     exists w1,
       tick self config o w0 = (Ok tt, w1) /\
       count_sleeps (trace w1) = (count_sleeps (trace w0) + 1)%nat /\
       count_puts (trace w1) = (count_puts (trace w0) + n)%nat).
Proof.
  intros Ho Hids Hne Hplay Hle. cbv zeta.
  split; [apply drawn_duration_range, Hle|]. split.
  - rewrite load_effect_cases. cbv zeta.
    destruct (turn_on_step_healthy self o w Ho Hids) as [rs Eg]. rewrite Eg.
    cbn [fst snd trace net_pos].
    destruct (drawn_preset_known self o (rng_pos w) Hne)
      as (name & config & Ed & Ec & Hmem).
    rewrite Ed, Ec.
    destruct (Z.leb_spec (minimum_duration self) (maximum_duration self)); [|lia].
    assert (Hp : playable_preset config).
    { rewrite Forall_forall in Hplay. apply (Hplay (name, config) Hmem). }
    match goal with |- context [tick_loop self config ?k o ?w3] =>
      destruct (tally_tick_loop o Ho self Hids config Hp k w3)
        as ([] & w4 & E4 & C4 & P4 & _);
      destruct (color_tick_loop self config k o w3) as [(ticks & T4 & F4) _]
    end.
    rewrite E4 in T4. cbn [snd trace] in T4, C4, P4.
    rewrite T4, count_sleeps_app in C4. rewrite T4, count_puts_app in P4.
    destruct (turn_on_requests_counts self) as (Cr & Pr).
    exists w4, (turn_on_requests self), ticks. split; [exact E4|].
    split; [rewrite T4, <- app_assoc; reflexivity|].
    split; [apply Permutation_refl|]. split; [exact F4|].
    split; [lia|]. split; [lia|].
    rewrite T4, !count_sleeps_app, !count_puts_app, Cr, Pr. split; lia.
  - intros name config w0 Hmem.
    assert (Hp : playable_preset config).
    { rewrite Forall_forall in Hplay. apply (Hplay (name, config) Hmem). }
    destruct (tally_tick o Ho self Hids config Hp w0) as ([] & w1 & E & C & P & _).
    exists w1. auto.
Qed.

Lemma requests_of_a_run_witness :
  drawn_duration Sample.encore Sample.steady 0 = 4 /\
  exists w' ons ticks,
    load_effect Sample.encore Sample.steady Sample.start = (Ok tt, w') /\
    trace w' = trace Sample.start ++ ons ++ ticks /\
    Permutation ons
      [EvPut "http://192.168.1.2/api/token/lights/1/state" (JObj [("on", JBool true)]);
       EvPut "http://192.168.1.2/api/token/lights/2/state" (JObj [("on", JBool true)])] /\
    Forall no_request_but_color ticks /\
    count_sleeps ticks = 4%nat /\ count_puts ticks = 8%nat /\
    count_sleeps (trace w') = 4%nat /\ count_puts (trace w') = 10%nat.
Proof.
  split; [reflexivity|].
  destruct (requests_of_a_run Sample.encore Sample.steady Sample.start)
    as (_ & (w' & ons & ticks & H) & _).
  - exact steady_answers.
  - repeat constructor; discriminate.
  - discriminate.
  - constructor; [exact pulse_playable | constructor].
  - simpl. lia.
  - exists w', ons, ticks. exact H.
Defined.
